(** * Notification service: delivery pipeline

    A shallow embedding of the delivery pipeline of the notification
    service (retry planner, circuit breaker, token-bucket rate limiter,
    webhook adapter, priority queue and worker, scheduler) together with
    the properties its specification states about them, and of the code
    around it (status query, mock SMS and push adapters, template
    rendering, the send endpoint) with further properties of the code.

    Conventions of the embedding.
    - Python [float] values (delays, timestamps, token counts, latencies)
      are rationals [Q]: arithmetic is exact, rounding is not modelled.
    - Python [int] values are [Z].
    - Dictionaries are [gmap]s, SQL tables keyed by a primary key are
      [gmap]s from the key, tables without a useful key are lists.
    - Every read of the wall clock ([time.time()], [datetime.utcnow()])
      is an argument of the function that performs it.
    - Every draw of the random generator is an argument as well.
    - Rationals follow the floats only while these are finite: the
      properties of the retry delays are stated for attempt numbers up to
      [float_safe_attempts].
    - Text is ASCII, a character to a byte; the properties that depend
      on lengths, digits or white space say so.
    - A worker turn is one step; a turn cut off at its [await] (a send
      under way or cancelled) is a step of its own, [suspended_turn]. *)

From Stdlib Require Import ZArith QArith Qminmax Qpower Lqa Lia Ascii DecimalString.
From Stdlib Require Import Sorting.Sorted Sorting.Permutation.
From stdpp Require Import gmap strings list.
From Equations Require Import Equations.

(* ===================================================================== *)
(** ** app/utils/retry_handler.py *)
(* ===================================================================== *)

Module retry_handler.

(** One row of [RETRY_CONFIGS]: the attempt budget and the integer delays. *)
Record retry_config := {
  cfg_max_attempts : Z;
  cfg_delays : list Z;
}.

#[global] Instance retry_config_inhabited : Inhabited retry_config :=
  populate {| cfg_max_attempts := 0%Z; cfg_delays := [] |}.

Definition RETRY_CONFIGS : gmap string retry_config :=
  <["critical" := {| cfg_max_attempts := 5%Z; cfg_delays := [1; 5; 15; 60; 300]%Z |}]>
  (<["high" := {| cfg_max_attempts := 3%Z; cfg_delays := [5; 30; 120]%Z |}]>
  (<["normal" := {| cfg_max_attempts := 2%Z; cfg_delays := [10; 60]%Z |}]>
  (<["low" := {| cfg_max_attempts := 1%Z; cfg_delays := [] |}]> ∅))).

(** [random.uniform(a, b)] is [a + (b - a) * random()], where the draw
    [random()] lies in the half-open unit interval. *)
Definition uniform (a b r : Q) : Q := (a + (b - a) * r)%Q.

(** [backoff_with_jitter(base_delay, attempt, jitter_ratio)], with the
    random draw [r] made explicit.  The rationals follow the floats of
    the source only while those stay finite: [2 ** (attempt - 1)] cannot
    be converted to a float from [attempt = 1025] on (the source raises
    [OverflowError]), and shortly below that the product overflows to
    infinity and the result is 0.0 or infinite.  What is proved about this
    function is stated for attempt numbers far below that range. *)
Definition backoff_with_jitter (base_delay : Q) (attempt : Z) (jitter_ratio : Q) (r : Q) : Q :=
  let delay := (base_delay * Qpower 2 (attempt - 1))%Q in
  let jitter := (delay * jitter_ratio)%Q in
  Qmax 0%Q (delay + uniform (- jitter) jitter r)%Q.

Definition default_jitter_ratio : Q := (2 # 10)%Q.

(** *** Circuit breaker *)

Inductive cb_state := closed | open | half_open.

Record CircuitBreaker := {
  failure_threshold : Z;
  cooldown_seconds : Q;
  state : cb_state;
  failure_count : Z;
  opened_at : option Q;
  half_open_probe_in_flight : bool;
}.

(** The dataclass constructor with its field defaults for the mutable part. *)
Definition new_breaker (threshold : Z) (cooldown : Q) : CircuitBreaker :=
  {| failure_threshold := threshold;
     cooldown_seconds := cooldown;
     state := closed;
     failure_count := 0%Z;
     opened_at := None;
     half_open_probe_in_flight := false |}.

Definition on_success (cb : CircuitBreaker) : CircuitBreaker :=
  {| failure_threshold := failure_threshold cb;
     cooldown_seconds := cooldown_seconds cb;
     state := closed;
     failure_count := 0%Z;
     opened_at := None;
     half_open_probe_in_flight := false |}.

Definition on_failure (now : Q) (cb : CircuitBreaker) : CircuitBreaker :=
  match state cb with
  | half_open =>
      {| failure_threshold := failure_threshold cb;
         cooldown_seconds := cooldown_seconds cb;
         state := open;
         failure_count := Z.max (failure_count cb) (failure_threshold cb);
         opened_at := Some now;
         half_open_probe_in_flight := false |}
  | _ =>
      let count := (failure_count cb + 1)%Z in
      if (failure_threshold cb <=? count)%Z then
        {| failure_threshold := failure_threshold cb;
           cooldown_seconds := cooldown_seconds cb;
           state := open;
           failure_count := count;
           opened_at := Some now;
           half_open_probe_in_flight := half_open_probe_in_flight cb |}
      else
        {| failure_threshold := failure_threshold cb;
           cooldown_seconds := cooldown_seconds cb;
           state := state cb;
           failure_count := count;
           opened_at := opened_at cb;
           half_open_probe_in_flight := half_open_probe_in_flight cb |}
  end.

(** The state an open breaker takes when its cooldown has elapsed, before
    it re-enters [allow_request]. *)
Definition to_half_open (cb : CircuitBreaker) : CircuitBreaker :=
  {| failure_threshold := failure_threshold cb;
     cooldown_seconds := cooldown_seconds cb;
     state := half_open;
     failure_count := failure_count cb;
     opened_at := opened_at cb;
     half_open_probe_in_flight := false |}.

Definition stamp_opened (now : Q) (cb : CircuitBreaker) : CircuitBreaker :=
  {| failure_threshold := failure_threshold cb;
     cooldown_seconds := cooldown_seconds cb;
     state := state cb;
     failure_count := failure_count cb;
     opened_at := Some now;
     half_open_probe_in_flight := half_open_probe_in_flight cb |}.

Definition claim_probe (cb : CircuitBreaker) : CircuitBreaker :=
  {| failure_threshold := failure_threshold cb;
     cooldown_seconds := cooldown_seconds cb;
     state := state cb;
     failure_count := failure_count cb;
     opened_at := opened_at cb;
     half_open_probe_in_flight := true |}.

(** Case analysis that remembers which case was taken. *)
Definition inspect {A : Type} (x : A) : { y : A | x = y } := exist _ x eq_refl.

(** The recursion of [allow_request] goes from [open] to [half_open] only. *)
Definition cb_rank (s : cb_state) : nat :=
  match s with open => 1 | _ => 0 end.

(** [allow_request] returns the answer and the mutated breaker.  The inner
    call reads the clock again; the branch it reaches ignores the clock, so
    the same reading is passed on. *)
Equations? allow_request (now : Q) (cb : CircuitBreaker) : bool * CircuitBreaker
  by wf (cb_rank (state cb)) lt :=
  allow_request now cb with inspect (state cb) => {
    | exist _ closed Hs => (true, cb);
    | exist _ open Hs with opened_at cb => {
        | None => (false, stamp_opened now cb);
        | Some t with Qle_bool (cooldown_seconds cb) (now - t) => {
            | true => allow_request now (to_half_open cb);
            | false => (false, cb) } };
    | exist _ half_open Hs =>
        if negb (half_open_probe_in_flight cb) then (true, claim_probe cb)
        else (false, cb) }.
Proof. rewrite Hs. simpl. lia. Qed.

(** *** Retry plan *)

Record RetryPlan := {
  max_attempts : Z;
  delays : list Q;
}.

(** [next_delay]; [r] is the random draw used by the fallback branch.
    The index [attempt_number - 2] is non-negative and below the length
    where [delays] is read, so the read cannot fail. *)
Definition next_delay (plan : RetryPlan) (r : Q) (attempt_number : Z) : Q :=
  if (attempt_number <=? 1)%Z then 0%Q
  else
    let idx := (attempt_number - 2)%Z in
    if (idx <? Z.of_nat (length (delays plan)))%Z then
      default 0%Q (delays plan !! Z.to_nat idx)
    else
      let base := match delays plan with [] => 1%Q | _ => List.last (delays plan) 0%Q end in
      backoff_with_jitter base (attempt_number - Z.of_nat (length (delays plan)))
        default_jitter_ratio r.

Definition get_retry_plan (priority : string) : RetryPlan :=
  let cfg :=
    match RETRY_CONFIGS !! priority with
    | Some c => c
    | None => RETRY_CONFIGS !!! "normal"
    end in
  {| max_attempts := cfg_max_attempts cfg;
     delays := map inject_Z (cfg_delays cfg) |}.

End retry_handler.

(* ===================================================================== *)
(** ** app/utils/rate_limiter.py *)
(* ===================================================================== *)

Module rate_limiter.

Record TokenBucket := {
  capacity : Q;
  refill_rate : Q;
  tokens : Q;
  last_refill : Q;
}.

(** Python's [x > y] and [x >= y] on floats. *)
Definition Qgtb (x y : Q) : bool := negb (Qle_bool x y).
Definition Qgeb (x y : Q) : bool := Qle_bool y x.

(** The refill step of [try_consume]: it runs only when time has passed. *)
Definition refill (now : Q) (b : TokenBucket) : TokenBucket :=
  let elapsed := (now - last_refill b)%Q in
  if Qgtb elapsed 0 then
    {| capacity := capacity b;
       refill_rate := refill_rate b;
       tokens := Qmin (capacity b) (tokens b + elapsed * refill_rate b);
       last_refill := now |}
  else b.

Definition try_consume (now : Q) (amount : Q) (b : TokenBucket) : bool * TokenBucket :=
  let b1 := refill now b in
  if Qgeb (tokens b1) amount then
    (true,
     {| capacity := capacity b1;
        refill_rate := refill_rate b1;
        tokens := (tokens b1 - amount)%Q;
        last_refill := last_refill b1 |})
  else (false, b1).

Record RateLimiter := {
  rl_capacity : Q;
  rl_refill_rate : Q;
  _buckets : gmap string TokenBucket;
}.

Definition new_limiter (cap rate : Q) : RateLimiter :=
  {| rl_capacity := cap; rl_refill_rate := rate; _buckets := ∅ |}.

(** The bucket a call works on: the stored one, or a full one stamped with
    the clock reading [created] taken when it is built. *)
Definition bucket_for (key : string) (created : Q) (rl : RateLimiter) : TokenBucket :=
  match _buckets rl !! key with
  | Some b => b
  | None =>
      {| capacity := rl_capacity rl;
         refill_rate := rl_refill_rate rl;
         tokens := rl_capacity rl;
         last_refill := created |}
  end.

(** [allow(key, amount)].  The clock is read when a bucket is created
    ([created]) and again inside [try_consume] ([now]).  The bucket object
    is stored in the dictionary and mutated in place. *)
Definition allow (key : string) (amount : Q) (created now : Q) (rl : RateLimiter)
  : bool * RateLimiter :=
  let r := try_consume now amount (bucket_for key created rl) in
  (fst r,
   {| rl_capacity := rl_capacity rl;
      rl_refill_rate := rl_refill_rate rl;
      _buckets := <[key := snd r]> (_buckets rl) |}).

(** A burst: [n] calls for one key, all with amount 1 and all reading the
    same instant [now] from the clock.  Returns the answers in order. *)
Fixpoint burst (n : nat) (key : string) (now : Q) (rl : RateLimiter) : list bool * RateLimiter :=
  match n with
  | O => ([], rl)
  | S n' =>
      let r := allow key 1 now now rl in
      let rest := burst n' key now (snd r) in
      (fst r :: fst rest, snd rest)
  end.

Definition count_true (l : list bool) : nat := length (filter (λ b, b = true) l).

End rate_limiter.

(* ===================================================================== *)
(** ** app/channels/base.py and app/channels/webhook_channel.py *)
(* ===================================================================== *)

Module channels.

(** What [send] hands back on success; the webhook adapter fills in the
    status code. *)
Record send_metadata := {
  provider : string;
  status_code : option Z;
  latency_ms : Q;
}.

(** The result of one call of an adapter's [send]: the metadata, or the
    exception it raises with its message. *)
Inductive send_result :=
| Sent (m : send_metadata)
| PermanentChannelError (msg : string)
| TransientChannelError (msg : string)
| OtherException (msg : string).

(** What the HTTP client does with the POST. *)
Inductive http_exchange :=
| Response (code : Z) (text : string)
| TimeoutException
| HTTPError (msg : string)
| ClientFailure (msg : string).

Definition lower_ascii (c : ascii) : ascii :=
  let n := nat_of_ascii c in
  if (65 <=? n)%nat && (n <=? 90)%nat then ascii_of_nat (n + 32) else c.

Fixpoint lower (s : string) : string :=
  match s with
  | EmptyString => EmptyString
  | String c s' => String (lower_ascii c) (lower s')
  end.

Definition str_of_Z (z : Z) : string := NilZero.string_of_int (Z.to_int z).

(** [WebhookChannel.send]: the URL check, then the classification of the
    exchange.  [latency] is the measured latency in milliseconds. *)
Definition webhook_send (recipient : string) (x : http_exchange) (latency : Q) : send_result :=
  if negb (String.prefix "http://" (lower recipient) || String.prefix "https://" (lower recipient))
  then PermanentChannelError "Webhook recipient must be a valid URL"
  else
    match x with
    | Response code text =>
        if (200 <=? code)%Z && (code <? 300)%Z then
          Sent {| provider := "http"; status_code := Some code; latency_ms := latency |}
        else if (400 <=? code)%Z && (code <? 500)%Z then
          PermanentChannelError
            ("Webhook responded with " +:+ str_of_Z code +:+ ": " +:+ String.substring 0 200 text)
        else
          TransientChannelError
            ("Webhook server error " +:+ str_of_Z code +:+ ": " +:+ String.substring 0 200 text)
    | TimeoutException => TransientChannelError "Webhook timeout after 10.0s"
    | HTTPError msg => TransientChannelError ("Webhook HTTP error: " +:+ msg)
    | ClientFailure msg => OtherException msg
    end.

End channels.

(* ===================================================================== *)
(** ** app/models.py, app/database.py and app/services/queue_service.py *)
(* ===================================================================== *)

Module queue_service.
Import retry_handler rate_limiter channels.

(** *** Request schema (app/models.py) *)

Definition Priority : list string := ["low"; "normal"; "high"; "critical"].
Definition Channel : list string := ["email"; "sms"; "webhook"; "push"].

(** JSON documents (content, variables, metadata) are carried as opaque
    text: nothing below looks inside them. *)
Definition json : Type := string.

Record NotificationRequest := {
  req_channel : string;
  req_recipient : string;
  req_template_id : option string;
  req_content : json;
  req_variables : json;
  req_metadata : json;
  req_priority : string;
}.

(** [str.strip()] on ASCII text. *)
Definition is_space (c : ascii) : bool :=
  let n := nat_of_ascii c in
  ((9 <=? n)%nat && (n <=? 13)%nat) || ((28 <=? n)%nat && (n <=? 32)%nat).

Fixpoint lstrip (s : string) : string :=
  match s with
  | EmptyString => EmptyString
  | String c s' => if is_space c then lstrip s' else s
  end.

Fixpoint rstrip (s : string) : string :=
  match s with
  | EmptyString => EmptyString
  | String c s' =>
      match rstrip s' with
      | EmptyString => if is_space c then EmptyString else String c EmptyString
      | r => String c r
      end
  end.

Definition strip (s : string) : string := rstrip (lstrip s).

(** Building a [NotificationRequest] runs the schema's validation: the
    channel and the priority must be one of the literals, and the
    recipient, stripped, must be non-empty.  [None] is a validation error. *)
Definition make_request (channel recipient : string) (template_id : option string)
    (content variables metadata : json) (priority : string) : option NotificationRequest :=
  if bool_decide (channel ∈ Channel) && bool_decide (priority ∈ Priority)
     && negb (String.eqb (strip recipient) "")
  then Some {| req_channel := channel;
               req_recipient := strip recipient;
               req_template_id := template_id;
               req_content := content;
               req_variables := variables;
               req_metadata := metadata;
               req_priority := priority |}
  else None.

(** *** Tables (app/database.py); datetimes are microsecond counts *)

(** The JSON stored in the [content] column, in the shape
    [enqueue_notification] writes it.  The fallback of
    [_reconstruct_request_from_notif] for rows of an older shape (subject
    and body at top level) is not modelled. *)
Record stored_content := {
  sc_content : json;
  sc_variables : json;
  sc_metadata : json;
  sc_template_id : option string;
}.

Record NotificationORM := {
  tracking_id : string;
  channel : string;
  recipient : string;
  content : stored_content;
  status : string;
  priority : string;
  attempts : Z;
  created_at : Z;
  delivered_at : option Z;
  last_attempt_at : option Z;
  failure_reason : option string;
}.

(** The surrogate key of an attempt row is a fresh UUID; rows are kept in
    insertion order instead. *)
Record DeliveryAttemptORM := {
  da_tracking_id : string;
  attempt_number : Z;
  da_status : string;
  error_message : option string;
  response_code : option Z;
  attempted_at : Z;
  da_latency_ms : Q;
}.

(** *** Process-wide state *)

(** The tables and the module-level variables of the process.  A call of
    a function below is one step on this state: what other tasks do while
    a worker awaits the rendering or the adapter is not interleaved with
    it. *)

(** A queue entry is the tuple [(priority_value, seq, tracking_id)]. *)
Definition QueueEntry : Type := Z * Z * string.

Definition entry_rank (e : QueueEntry) : Z := e.1.1.
Definition entry_seq (e : QueueEntry) : Z := e.1.2.
Definition entry_tid (e : QueueEntry) : string := e.2.

(** A timer task created for [_delayed_requeue(tracking_id, priority, delay)]
    that has not fired yet. *)
Definition Requeue : Type := string * string * Q.

Record World := {
  notifications : gmap string NotificationORM;
  delivery_attempts : list DeliveryAttemptORM;
  _ready_queue : list QueueEntry;
  _seq_counter : Z;
  _circuit_breakers : gmap string CircuitBreaker;
  _rate_limiter : option RateLimiter;
  pending_requeues : list Requeue;
  CB_COOLDOWN : Q;
}.

Definition set_notifications (v : gmap string NotificationORM) (w : World) : World :=
  {| notifications := v;
     delivery_attempts := delivery_attempts w;
     _ready_queue := _ready_queue w;
     _seq_counter := _seq_counter w;
     _circuit_breakers := _circuit_breakers w;
     _rate_limiter := _rate_limiter w;
     pending_requeues := pending_requeues w;
     CB_COOLDOWN := CB_COOLDOWN w |}.

Definition set_delivery_attempts (v : list DeliveryAttemptORM) (w : World) : World :=
  {| notifications := notifications w;
     delivery_attempts := v;
     _ready_queue := _ready_queue w;
     _seq_counter := _seq_counter w;
     _circuit_breakers := _circuit_breakers w;
     _rate_limiter := _rate_limiter w;
     pending_requeues := pending_requeues w;
     CB_COOLDOWN := CB_COOLDOWN w |}.

Definition set_queue (q : list QueueEntry) (seq : Z) (w : World) : World :=
  {| notifications := notifications w;
     delivery_attempts := delivery_attempts w;
     _ready_queue := q;
     _seq_counter := seq;
     _circuit_breakers := _circuit_breakers w;
     _rate_limiter := _rate_limiter w;
     pending_requeues := pending_requeues w;
     CB_COOLDOWN := CB_COOLDOWN w |}.

Definition set_circuit_breakers (v : gmap string CircuitBreaker) (w : World) : World :=
  {| notifications := notifications w;
     delivery_attempts := delivery_attempts w;
     _ready_queue := _ready_queue w;
     _seq_counter := _seq_counter w;
     _circuit_breakers := v;
     _rate_limiter := _rate_limiter w;
     pending_requeues := pending_requeues w;
     CB_COOLDOWN := CB_COOLDOWN w |}.

Definition set_rate_limiter (v : option RateLimiter) (w : World) : World :=
  {| notifications := notifications w;
     delivery_attempts := delivery_attempts w;
     _ready_queue := _ready_queue w;
     _seq_counter := _seq_counter w;
     _circuit_breakers := _circuit_breakers w;
     _rate_limiter := v;
     pending_requeues := pending_requeues w;
     CB_COOLDOWN := CB_COOLDOWN w |}.

Definition set_pending_requeues (v : list Requeue) (w : World) : World :=
  {| notifications := notifications w;
     delivery_attempts := delivery_attempts w;
     _ready_queue := _ready_queue w;
     _seq_counter := _seq_counter w;
     _circuit_breakers := _circuit_breakers w;
     _rate_limiter := _rate_limiter w;
     pending_requeues := v;
     CB_COOLDOWN := CB_COOLDOWN w |}.

(** The state of a freshly started process: empty tables, empty queue. *)
Definition initial_world (limiter : option RateLimiter) (cooldown : Q) : World :=
  {| notifications := ∅;
     delivery_attempts := [];
     _ready_queue := [];
     _seq_counter := 0;
     _circuit_breakers := ∅;
     _rate_limiter := limiter;
     pending_requeues := [];
     CB_COOLDOWN := cooldown |}.

(** *** The priority queue *)

Definition priority_order : gmap string Z :=
  <["critical" := 0%Z]> (<["high" := 1%Z]> (<["normal" := 2%Z]> (<["low" := 3%Z]> ∅))).

Definition _priority_value (priority : string) : Z :=
  default 2%Z (priority_order !! priority).

(** Tuple comparison, as the heap of [asyncio.PriorityQueue] applies it. *)
Definition entry_ltb (a b : QueueEntry) : bool :=
  (entry_rank a <? entry_rank b)%Z
  || ((entry_rank a =? entry_rank b)%Z
      && ((entry_seq a <? entry_seq b)%Z
          || ((entry_seq a =? entry_seq b)%Z && String.ltb (entry_tid a) (entry_tid b)))).

(** The least entry among [e] and the entries of [q]. *)
Fixpoint queue_min (e : QueueEntry) (q : list QueueEntry) : QueueEntry :=
  match q with
  | [] => e
  | x :: q' => queue_min (if entry_ltb x e then x else e) q'
  end.

Fixpoint remove_first (e : QueueEntry) (q : list QueueEntry) : list QueueEntry :=
  match q with
  | [] => []
  | x :: q' => if decide (x = e) then q' else x :: remove_first e q'
  end.

(** [PriorityQueue.get]: the least entry and the remaining entries, or
    [None] when the queue is empty (the caller then waits). *)
Definition queue_get (q : list QueueEntry) : option (QueueEntry * list QueueEntry) :=
  match q with
  | [] => None
  | x :: q' => let m := queue_min x q' in Some (m, remove_first m q)
  end.

(** The order in which repeated [get]s hand out the entries of [q]. *)
Fixpoint drain_n (n : nat) (q : list QueueEntry) : list QueueEntry :=
  match n with
  | O => []
  | S n' =>
      match queue_get q with
      | None => []
      | Some (e, q') => e :: drain_n n' q'
      end
  end.

Definition drain (q : list QueueEntry) : list QueueEntry := drain_n (length q) q.

Definition _enqueue_ready (tracking_id priority : string) (w : World) : World :=
  let seq := (_seq_counter w + 1)%Z in
  set_queue (_ready_queue w ++ [(_priority_value priority, seq, tracking_id)]) seq w.

(** [enqueue_notification]; [new_id] is the UUID drawn for the row and
    [utcnow] the clock reading.  The primary key rejects a duplicate id:
    the commit fails and nothing is queued. *)
Definition enqueue_notification (new_id : string) (utcnow : Z) (req : NotificationRequest)
    (w : World) : World * option string :=
  match notifications w !! new_id with
  | Some _ => (w, None)
  | None =>
      let notif :=
        {| tracking_id := new_id;
           channel := req_channel req;
           recipient := req_recipient req;
           content := {| sc_content := req_content req;
                         sc_variables := req_variables req;
                         sc_metadata := req_metadata req;
                         sc_template_id := req_template_id req |};
           status := "queued";
           priority := req_priority req;
           attempts := 0;
           created_at := utcnow;
           delivered_at := None;
           last_attempt_at := None;
           failure_reason := None |} in
      (_enqueue_ready new_id (req_priority req)
         (set_notifications (<[new_id := notif]> (notifications w)) w),
       Some new_id)
  end.

Definition _reconstruct_request_from_notif (notif : NotificationORM) : option NotificationRequest :=
  make_request (channel notif) (recipient notif) (sc_template_id (content notif))
    (sc_content (content notif)) (sc_variables (content notif)) (sc_metadata (content notif))
    (priority notif).

Definition _get_or_create_cb (recipient : string) (w : World) : CircuitBreaker :=
  match _circuit_breakers w !! recipient with
  | Some cb => cb
  | None => new_breaker 3 (CB_COOLDOWN w)
  end.

(** What one run of [_process_tracking_id] reads from its environment. *)
Record step_env := {
  t_allow : Q;            (* [time.time()] in [allow_request] *)
  t_bucket : Q;           (* [time.time()] when a bucket is created *)
  t_consume : Q;          (* [time.time()] in [try_consume] *)
  dispatch : send_result; (* rendering, channel lookup and [send] *)
  t_failure : Q;          (* [time.time()] in [on_failure] *)
  latency : Q;            (* measured latency in milliseconds *)
  utcnow : Z;             (* [datetime.utcnow()] when the attempt is recorded *)
  jitter_draw : Q;        (* [random.random()] *)
}.

Definition update_parent (notif : NotificationORM) (number : Z) (st : string)
    (error : option string) (at_ : Z) : NotificationORM :=
  let attempts' := Z.max (attempts notif) number in
  if decide (st = "delivered") then
    {| tracking_id := tracking_id notif;
       channel := channel notif;
       recipient := recipient notif;
       content := content notif;
       status := "delivered";
       priority := priority notif;
       attempts := attempts';
       created_at := created_at notif;
       delivered_at := Some at_;
       last_attempt_at := Some at_;
       failure_reason := None |}
  else if bool_decide (st ∈ ["failed"; "bounced"]) then
    {| tracking_id := tracking_id notif;
       channel := channel notif;
       recipient := recipient notif;
       content := content notif;
       status := st;
       priority := priority notif;
       attempts := attempts';
       created_at := created_at notif;
       delivered_at := delivered_at notif;
       last_attempt_at := Some at_;
       failure_reason := error |}
  else
    {| tracking_id := tracking_id notif;
       channel := channel notif;
       recipient := recipient notif;
       content := content notif;
       status := status notif;
       priority := priority notif;
       attempts := attempts';
       created_at := created_at notif;
       delivered_at := delivered_at notif;
       last_attempt_at := Some at_;
       failure_reason := failure_reason notif |}.

Definition record_delivery_attempt (now : Z) (tid : string) (number : Z) (st : string)
    (latency_ms : Q) (error : option string) (code : option Z) (w : World) : World :=
  let attempt :=
    {| da_tracking_id := tid;
       attempt_number := number;
       da_status := st;
       error_message := error;
       response_code := code;
       attempted_at := now;
       da_latency_ms := latency_ms |} in
  let w1 := set_delivery_attempts (delivery_attempts w ++ [attempt]) w in
  match notifications w !! tid with
  | Some notif =>
      set_notifications
        (<[tid := update_parent notif number st error (attempted_at attempt)]> (notifications w)) w1
  | None => w1
  end.

Definition set_status (st : string) (notif : NotificationORM) : NotificationORM :=
  {| tracking_id := tracking_id notif;
     channel := channel notif;
     recipient := recipient notif;
     content := content notif;
     status := st;
     priority := priority notif;
     attempts := attempts notif;
     created_at := created_at notif;
     delivered_at := delivered_at notif;
     last_attempt_at := last_attempt_at notif;
     failure_reason := failure_reason notif |}.

(** The failure handling shared by the three [except] branches: breaker,
    attempt row, and, when [retry] is set and the budget allows it, the
    timer task for the re-enqueue. *)
Definition handle_failure (env : step_env) (tid : string) (req : NotificationRequest)
    (plan : RetryPlan) (cb : CircuitBreaker) (number : Z) (msg : string) (retry : bool)
    (w : World) : World :=
  let w1 := set_circuit_breakers
              (<[req_recipient req := on_failure (t_failure env) cb]> (_circuit_breakers w)) w in
  let w2 := record_delivery_attempt (utcnow env) tid number "failed" (latency env) (Some msg) None w1 in
  if retry && (number <? max_attempts plan)%Z then
    let delay := next_delay plan (jitter_draw env) (number + 1) in
    set_pending_requeues (pending_requeues w2 ++ [(tid, req_priority req, delay)]) w2
  else w2.

(** The rate-limiter step of [_process_tracking_id]: the answer ([true]
    when no limiter is configured) and the process with the limiter as the
    call leaves it. *)
Definition consult_rate_limiter (env : step_env) (req : NotificationRequest) (w : World)
  : bool * World :=
  match _rate_limiter w with
  | None => (true, w)
  | Some rl =>
      let a := allow ("recipient:" +:+ req_recipient req) 1 (t_bucket env) (t_consume env) rl in
      (fst a, set_rate_limiter (Some (snd a)) w)
  end.

(** The part of [_process_tracking_id] from "Attempt send" on: mark the
    row as sending, dispatch, and record the outcome.  [cb] is the breaker
    of the recipient. *)
Definition attempt_send (env : step_env) (tid : string) (notif : NotificationORM)
    (req : NotificationRequest) (plan : RetryPlan) (cb : CircuitBreaker) (w : World) : World :=
  let number := (attempts notif + 1)%Z in
  let w3 := set_notifications (<[tid := set_status "sending" notif]> (notifications w)) w in
  match dispatch env with
  | Sent _ =>
      let w4 := set_circuit_breakers
                  (<[req_recipient req := on_success cb]> (_circuit_breakers w3)) w3 in
      record_delivery_attempt (utcnow env) tid number "delivered" (latency env) None None w4
  | PermanentChannelError msg =>
      handle_failure env tid req plan cb number msg false w3
  | TransientChannelError msg =>
      handle_failure env tid req plan cb number msg true w3
  | OtherException msg =>
      handle_failure env tid req plan cb number ("unexpected: " +:+ msg) true w3
  end.

(** [_process_tracking_id].  The second component is the exception that
    escapes to the worker loop, if any. *)
Definition _process_tracking_id (env : step_env) (tid : string) (w : World)
  : World * option string :=
  match notifications w !! tid with
  | None => (w, None)
  | Some notif =>
      match _reconstruct_request_from_notif notif with
      | None => (w, Some "ValidationError")
      | Some req =>
          let plan := get_retry_plan (req_priority req) in
          let r := allow_request (t_allow env) (_get_or_create_cb (req_recipient req) w) in
          let cb := snd r in
          let w1 := set_circuit_breakers (<[req_recipient req := cb]> (_circuit_breakers w)) w in
          if negb (fst r) then
            (record_delivery_attempt (utcnow env) tid (attempts notif + 1) "failed" 0
               (Some "circuit_open") None w1, None)
          else
            let limiter_answer := consult_rate_limiter env req w1 in
            if negb (fst limiter_answer) then
              (_enqueue_ready tid (req_priority req) (snd limiter_answer), None)
            else
              (attempt_send env tid notif req plan cb (snd limiter_answer), None)
      end
  end.

(** One turn of [_worker_loop]: take the least entry and process it; an
    escaping exception is logged and the loop goes on. *)
Definition _worker_loop_turn (env : step_env) (w : World) : World :=
  match queue_get (_ready_queue w) with
  | None => w
  | Some (e, q') =>
      fst (_process_tracking_id env (entry_tid e) (set_queue q' (_seq_counter w) w))
  end.

(** The [i]-th pending [_delayed_requeue] task wakes up and re-enqueues. *)
Definition _delayed_requeue (i : nat) (w : World) : World :=
  match pending_requeues w !! i with
  | None => w
  | Some (tid, prio, _) =>
      _enqueue_ready tid prio (set_pending_requeues (delete i (pending_requeues w)) w)
  end.

(** A turn of [_worker_loop] as far as its first suspension: at the
    adapter, with the status committed as sending, or in the pause before
    a rate-limited notification is queued again.  A turn that does not get
    that far has run to its end.  This is what the process holds while the
    turn is suspended, and what remains when the task is cancelled or the
    process is killed there. *)
Definition suspended_turn (env : step_env) (w : World) : World :=
  match queue_get (_ready_queue w) with
  | None => w
  | Some (e, q') =>
      let w0 := set_queue q' (_seq_counter w) w in
      match notifications w0 !! entry_tid e with
      | None => _worker_loop_turn env w
      | Some notif =>
          match _reconstruct_request_from_notif notif with
          | None => _worker_loop_turn env w
          | Some req =>
              let r := allow_request (t_allow env) (_get_or_create_cb (req_recipient req) w0) in
              let w1 := set_circuit_breakers
                          (<[req_recipient req := snd r]> (_circuit_breakers w0)) w0 in
              if fst r then
                let limiter_answer := consult_rate_limiter env req w1 in
                if fst limiter_answer then
                  set_notifications
                    (<[entry_tid e := set_status "sending" notif]>
                       (notifications (snd limiter_answer)))
                    (snd limiter_answer)
                else snd limiter_answer
              else _worker_loop_turn env w
          end
      end
  end.

(** *** Status query *)









End queue_service.

(* ===================================================================== *)
(** ** app/services/scheduler_service.py *)
(* ===================================================================== *)

Module scheduler_service.
Import queue_service.

(** The stored payload of a schedule: the fields of a request before
    validation. *)
Record request_data := {
  rd_channel : string;
  rd_recipient : string;
  rd_template_id : option string;
  rd_content : json;
  rd_variables : json;
  rd_metadata : json;
  rd_priority : string;
}.

(** [NotificationRequest.parse_obj(payload)]. *)
Definition parse_obj (d : request_data) : option NotificationRequest :=
  make_request (rd_channel d) (rd_recipient d) (rd_template_id d)
    (rd_content d) (rd_variables d) (rd_metadata d) (rd_priority d).

(** A row of [scheduled_notifications].  The two datetime columns carry no
    zone: what is read back from them is a naive wall-clock reading, in
    microseconds. *)
Record ScheduledNotificationORM := {
  schedule_id : string;
  notification_data : request_data;
  send_at : Z;
  timezone : string;
  recurrence : option string;
  last_run : option Z;
  active : bool;
}.

Definition set_last_run (t : Z) (s : ScheduledNotificationORM) : ScheduledNotificationORM :=
  {| schedule_id := schedule_id s;
     notification_data := notification_data s;
     send_at := send_at s;
     timezone := timezone s;
     recurrence := recurrence s;
     last_run := Some t;
     active := active s |}.

Definition set_send_at (t : Z) (s : ScheduledNotificationORM) : ScheduledNotificationORM :=
  {| schedule_id := schedule_id s;
     notification_data := notification_data s;
     send_at := t;
     timezone := timezone s;
     recurrence := recurrence s;
     last_run := last_run s;
     active := active s |}.

Definition set_active (b : bool) (s : ScheduledNotificationORM) : ScheduledNotificationORM :=
  {| schedule_id := schedule_id s;
     notification_data := notification_data s;
     send_at := send_at s;
     timezone := timezone s;
     recurrence := recurrence s;
     last_run := last_run s;
     active := b |}.

(** The state of one scan: the rows as the session holds them, the rows
    as committed, and the rest of the process. *)
Record scan_state := {
  session : list ScheduledNotificationORM;
  committed : list ScheduledNotificationORM;
  world : World;
}.

Section WithTimeLibraries.

(** [ZoneInfo(tz_name)]: the UTC offset, in microseconds, the zone gives
    to a wall-clock reading; [None] when the zone is unknown. *)
Variable zone : string -> option (Z -> Z).

(** [croniter(expr, base).get_next(datetime)] for [base] the instant
    [base_utc] seen in zone [tz_name]: the instant of the next occurrence,
    or [None] when the expression is rejected. *)
Variable croniter_next : string -> string -> Z -> option Z.

(** [_to_utc] on a naive reading: the instant it denotes in [tz_name]. *)
Definition _to_utc (dt : Z) (tz_name : string) : option Z :=
  match zone tz_name with
  | Some offset => Some (dt - offset dt)%Z
  | None => None
  end.

(** [_next_cron_time] on a zone-aware instant: the instant of the next
    occurrence. *)
Definition _next_cron_time (current_utc : Z) (cron_expr tz_name : string) : option Z :=
  match zone tz_name with
  | Some _ => croniter_next cron_expr tz_name current_utc
  | None => None
  end.

(** The body of the loop of [_process_due_schedules] for the row at
    position [i].  [new_id] and [utcnow] are what [enqueue_notification]
    draws.  Every [None] below is an exception caught by the loop: the
    scan goes on with what the session holds at that point.  A commit
    writes the whole session. *)
Definition process_schedule (now_utc : Z) (new_id : string) (utcnow : Z) (i : nat)
    (st : scan_state) : scan_state :=
  match session st !! i with
  | None => st
  | Some sched =>
      let tz_name := if String.eqb (timezone sched) "" then "UTC" else timezone sched in
      match _to_utc (send_at sched) tz_name with
      | None => st
      | Some send_at_utc =>
          if (send_at_utc <=? now_utc)%Z then
            match last_run sched with
            | Some _ =>
                (* a stored [last_run] is naive, [send_at_utc] is aware:
                   the comparison raises *)
                st
            | None =>
                match parse_obj (notification_data sched) with
                | None => st
                | Some req =>
                    match enqueue_notification new_id utcnow req (world st) with
                    | (_, None) => st
                    | (w', Some _) =>
                        let sched1 := set_last_run now_utc sched in
                        match recurrence sched with
                        | Some cron =>
                            if String.eqb cron "" then
                              let rows := <[i := set_active false sched1]> (session st) in
                              {| session := rows; committed := rows; world := w' |}
                            else
                              match _next_cron_time send_at_utc cron tz_name with
                              | None =>
                                  {| session := <[i := sched1]> (session st);
                                     committed := session st;
                                     world := w' |}
                              | Some next_utc =>
                                  let rows := <[i := set_send_at next_utc sched1]> (session st) in
                                  {| session := rows; committed := rows; world := w' |}
                              end
                        | None =>
                            let rows := <[i := set_active false sched1]> (session st) in
                            {| session := rows; committed := rows; world := w' |}
                        end
                    end
                end
            end
          else st
      end
  end.

(** The loop over the rows that were active when the scan started;
    [draws] supplies the id and clock reading of each iteration. *)
Fixpoint scan_rows (now_utc : Z) (i : nat) (rows : list ScheduledNotificationORM)
    (draws : list (string * Z)) (st : scan_state) : scan_state :=
  match rows, draws with
  | r :: rows', (new_id, utcnow) :: draws' =>
      let st' := if active r then process_schedule now_utc new_id utcnow i st else st in
      scan_rows now_utc (S i) rows' draws' st'
  | _, _ => st
  end.

(** [_process_due_schedules]: one scan; closing the session drops what
    was not committed. *)
Definition _process_due_schedules (now_utc : Z) (draws : list (string * Z))
    (table : list ScheduledNotificationORM) (w : World)
  : list ScheduledNotificationORM * World :=
  let st := scan_rows now_utc 0 table draws
              {| session := table; committed := table; world := w |} in
  (committed st, world st).

End WithTimeLibraries.

(** *** Stand-ins for the time libraries on fixed-offset zones *)

Definition hour_us : Z := 3600 * 1000000.
Definition day_us : Z := 24 * hour_us.

(** Two zones without daylight saving. *)
Definition fixed_zones (tz_name : string) : option (Z -> Z) :=
  if String.eqb tz_name "UTC" then Some (λ _, 0%Z)
  else if String.eqb tz_name "Asia/Tokyo" then Some (λ _, 9 * hour_us)%Z
  else None.

Definition fixed_offset (tz_name : string) : Z :=
  match fixed_zones tz_name with Some f => f 0%Z | None => 0%Z end.

(** The expression ["0 9 * * *"] (every day at 09:00) in a fixed-offset
    zone: the first instant strictly after [base_utc] whose local reading
    is 09:00:00. *)
Definition daily_nine (cron_expr tz_name : string) (base_utc : Z) : option Z :=
  if String.eqb cron_expr "0 9 * * *" then
    let local := (base_utc + fixed_offset tz_name)%Z in
    let today := (local / day_us * day_us + 9 * hour_us)%Z in
    let next_local := if (local <? today)%Z then today else (today + day_us)%Z in
    Some (next_local - fixed_offset tz_name)%Z
  else None.

End scheduler_service.

(* ===================================================================== *)
(** ** app/channels/sms_channel.py and app/channels/push_channel.py *)
(* ===================================================================== *)

Module mock_channels.
Import rate_limiter channels queue_service.

(** The result of [send] of a mock adapter: its metadata, or the channel
    error it raises with its message. *)
Inductive outcome (M : Type) :=
| Delivered (m : M)
| Permanent (msg : string)
| Transient (msg : string).

Arguments Delivered {M} m.
Arguments Permanent {M} msg.
Arguments Transient {M} msg.

(** *** The two regular expressions, on ASCII text

    The adapters are modelled on ASCII text, a character to a byte:
    there [len] is [String.length], [\d] is [[0-9]] and [str.strip]
    removes the ASCII white space.  On other text Python counts code
    points, [\d] takes any Unicode decimal digit and [strip] any Unicode
    white space; the properties of the adapters are stated for ASCII
    recipients and bodies. *)

Definition in_range (lo hi : nat) (c : ascii) : bool :=
  (lo <=? nat_of_ascii c)%nat && (nat_of_ascii c <=? hi)%nat.

(** [\d] and [[1-9]]. *)
Definition is_digit (c : ascii) : bool := in_range 48 57 c.
Definition is_nonzero_digit (c : ascii) : bool := in_range 49 57 c.

(** [[A-Za-z0-9_\-:.]]. *)
Definition is_token_char (c : ascii) : bool :=
  in_range 65 90 c || in_range 97 122 c || in_range 48 57 c
  || Ascii.eqb c "_" || Ascii.eqb c "-" || Ascii.eqb c ":" || Ascii.eqb c ".".

Fixpoint all_chars (p : ascii -> bool) (s : string) : bool :=
  match s with
  | EmptyString => true
  | String c s' => p c && all_chars p s'
  end.

(** [$] matches at the end of the text and also before a newline that
    ends the text: the text the pattern has to cover. *)
Fixpoint chomp (s : string) : string :=
  match s with
  | EmptyString => EmptyString
  | String c s' =>
      match s' with
      | EmptyString => if Ascii.eqb c "010" then EmptyString else s
      | _ => String c (chomp s')
      end
  end.

(** [PHONE_REGEX.match], for [^\+?[1-9]\d{7,14}$], on ASCII text (where
    [\d] is [[0-9]]). *)
Definition phone_match (s : string) : bool :=
  let s1 := match s with
            | String c r => if Ascii.eqb c "+" then r else s
            | EmptyString => s
            end in
  match chomp s1 with
  | EmptyString => false
  | String c rest =>
      is_nonzero_digit c && all_chars is_digit rest
      && (7 <=? String.length rest)%nat && (String.length rest <=? 14)%nat
  end.

(** [TOKEN_REGEX.match], for [^[A-Za-z0-9_\-:.]{16,256}$]. *)
Definition token_match (s : string) : bool :=
  let t := chomp s in
  all_chars is_token_char t
  && (16 <=? String.length t)%nat && (String.length t <=? 256)%nat.

(** *** SMS *)

Definition HARD_CHAR_LIMIT : Z := 1000.
Definition SEGMENT_SIZE : Z := 160.
Definition FAILURE_RATE : Q := 5 # 100.

Record sms_metadata := {
  sms_provider : string;
  segments : Z;
  sms_latency_ms : Q;
}.

(** [SMSChannel.send] on an ASCII recipient and body; [rendered_body] is
    [rendered.get("body")], [draw] the value of [random.random()] and
    [latency] the measured latency.  [String.length] is [len] on ASCII
    text.  The simulated delay is not modelled. *)
Definition sms_send (recipient : string) (rendered_body : option string) (draw latency : Q)
  : outcome sms_metadata :=
  let body := strip (default "" rendered_body) in
  if String.eqb body "" then Permanent "SMS body is required"
  else if negb (phone_match (strip recipient)) then Permanent "Invalid phone number format"
  else if (HARD_CHAR_LIMIT <? Z.of_nat (String.length body))%Z then
    Permanent ("SMS body exceeds " +:+ str_of_Z HARD_CHAR_LIMIT +:+ " characters")
  else if Qgtb FAILURE_RATE draw then Transient "Carrier temporary failure"
  else
    Delivered
      {| sms_provider := "mock-twilio";
         segments := Z.max 1 ((Z.of_nat (String.length body) + SEGMENT_SIZE - 1) / SEGMENT_SIZE);
         sms_latency_ms := latency |}.

(** *** Push *)

Definition RECEIPT_RATE : Q := 95 # 100.

Record push_metadata := {
  push_provider : string;
  receipt_id : string;
  push_latency_ms : Q;
}.

(** [int(x)] on a float: truncation towards zero. *)
Definition int_of (x : Q) : Z := Z.quot (Qnum x) (Zpos (Qden x)).

(** [PushChannel.send] on an ASCII recipient and body; [now] is
    [time.time()] and [serial] the value of [random.randint(1000, 9999)]
    that go into the receipt id. *)
Definition push_send (recipient : string) (rendered_body : option string) (draw latency : Q)
    (now : Q) (serial : Z) : outcome push_metadata :=
  if negb (token_match (strip recipient)) then Permanent "Invalid device token"
  else if String.eqb (strip (default "" rendered_body)) "" then
    Permanent "Push body is required"
  else if Qgtb draw RECEIPT_RATE then Transient "Push provider temporary failure"
  else
    Delivered
      {| push_provider := "mock-push";
         receipt_id := "r_" +:+ str_of_Z (int_of (now * 1000)) +:+ "_" +:+ str_of_Z serial;
         push_latency_ms := latency |}.

End mock_channels.

(* ===================================================================== *)
(** ** app/services/template_service.py and the rendering step of
       app/services/queue_service.py *)
(* ===================================================================== *)

Module template_service.
Import channels queue_service.

(** The JSON of the [content] column of a template: the values under
    ["subject"] and ["body"], [None] for a key that is absent or null. *)
Record template_content := {
  tc_subject : option string;
  tc_body : option string;
}.

(** A row of [templates] (app/database.py).  The primary key
    [template_id] and the unique [name] identify at most one row each. *)
Record TemplateORM := {
  template_id : string;
  name : string;
  t_channel : string;
  t_content : template_content;
  t_variables : list string;
  t_active : bool;
  t_created_at : Z;
  t_updated_at : Z;
}.

(** What rendering hands to the adapter: the dictionary with the keys
    ["subject"] and ["body"]. *)
Record rendered := {
  r_subject : option string;
  r_body : string;
}.

(** The exceptions the rendering step can raise, with their messages. *)
Inductive render_error :=
| RaisesValueError (msg : string)
| RaisesPermanentChannelError (msg : string)
| RaisesOther (msg : string).

(** Truthiness of an optional text. *)
Definition truthy (t : option string) : bool :=
  match t with
  | Some s => negb (String.eqb s "")
  | None => false
  end.

(** [query(TemplateORM).filter(template_id == k).one_or_none()]. *)
Definition get_template_orm (k : string) (table : list TemplateORM) : option TemplateORM :=
  find (λ t, String.eqb (template_id t) k) table.

(** [query(TemplateORM).filter(name == k, active == True).one_or_none()]. *)
Definition active_by_name (k : string) (table : list TemplateORM) : option TemplateORM :=
  find (λ t, String.eqb (name t) k && t_active t) table.

Definition with_active (b : bool) (now : Z) (t : TemplateORM) : TemplateORM :=
  {| template_id := template_id t;
     name := name t;
     t_channel := t_channel t;
     t_content := t_content t;
     t_variables := t_variables t;
     t_active := b;
     t_created_at := t_created_at t;
     t_updated_at := now |}.

(** [TemplateService.set_active]; [now] is [datetime.utcnow()]. *)
Definition set_active (now : Z) (k : string) (b : bool) (table : list TemplateORM)
  : list TemplateORM * bool :=
  match get_template_orm k table with
  | None => (table, false)
  | Some _ =>
      (map (λ t, if String.eqb (template_id t) k then with_active b now t else t) table, true)
  end.

Section WithJinja.

(** The values a variables dictionary holds. *)
Variable V : Type.

(** Rendering the Jinja template [text] with the variables as keyword
    arguments: the rendered text, or the message of the exception the
    template engine raises. *)
Variable jinja : string -> gmap string V -> string + string.

(** The dictionary a JSON document of variables denotes; an absent one
    denotes the empty dictionary. *)
Variable variables_of : json -> gmap string V.

(** [content.get(key)] on the content of a request, for a value that is
    text. *)
Variable content_get : json -> string -> option string.

Definition _render_text (text : option string) (variables : gmap string V)
  : option string + string :=
  match text with
  | None => inl None
  | Some t =>
      match jinja t variables with
      | inl s => inl (Some s)
      | inr e => inr e
      end
  end.

(** [_validate_required_variables]: [None] when nothing is missing,
    otherwise the message of the [ValueError]. *)
Definition _validate_required_variables (required : list string) (provided : gmap string V)
  : option string :=
  let missing := filter (λ v, provided !! v = None) required in
  match missing with
  | [] => None
  | _ => Some ("Missing required template variables: " +:+ String.concat ", " missing)
  end.

(** [TemplateService.render]. *)
Definition render (template_obj : TemplateORM) (variables : gmap string V)
  : rendered + render_error :=
  match _validate_required_variables (t_variables template_obj) variables with
  | Some msg => inr (RaisesValueError msg)
  | None =>
      let subject_text := tc_subject (t_content template_obj) in
      let body_text := tc_body (t_content template_obj) in
      match (if truthy subject_text then _render_text subject_text variables else inl None) with
      | inr e => inr (RaisesOther e)
      | inl rendered_subject =>
          match (if truthy body_text then _render_text body_text variables
                 else inl (Some "")) with
          | inr e => inr (RaisesOther e)
          | inl rendered_body =>
              inl {| r_subject := rendered_subject; r_body := default "" rendered_body |}
          end
      end
  end.

(** [_render_content] of app/services/queue_service.py. *)
Definition _render_content (templates : list TemplateORM) (req : NotificationRequest)
  : rendered + render_error :=
  if truthy (req_template_id req) then
    let k := default "" (req_template_id req) in
    match get_template_orm k templates with
    | Some tpl => render tpl (variables_of (req_variables req))
    | None =>
        match active_by_name k templates with
        | Some tpl => render tpl (variables_of (req_variables req))
        | None => inr (RaisesPermanentChannelError "Template not found")
        end
    end
  else
    inl {| r_subject := content_get (req_content req) "subject";
           r_body := default "" (content_get (req_content req) "body") |}.

(** The [try] block of [_process_tracking_id]: rendering, the lookup of
    the adapter ([get_channel], with the registry as [registry]) and its
    [send], as the [except] clauses classify the outcome. *)
Definition dispatch_of (templates : list TemplateORM)
    (registry : string -> option (NotificationRequest -> rendered -> send_result))
    (req : NotificationRequest) : send_result :=
  match _render_content templates req with
  | inl r =>
      match registry (req_channel req) with
      | Some send => send req r
      | None => PermanentChannelError ("Channel not supported: " +:+ req_channel req)
      end
  | inr (RaisesPermanentChannelError msg) => PermanentChannelError msg
  | inr (RaisesValueError msg) => OtherException msg
  | inr (RaisesOther msg) => OtherException msg
  end.

End WithJinja.

End template_service.

(* ===================================================================== *)
(** ** app/api/notifications.py *)
(* ===================================================================== *)

Module api_notifications.
Import queue_service.

(** What the handler of [POST /send] returns, or the exception that
    leaves it. *)
Inductive send_response :=
| TrackingId (tid : string)
| TrackingIds (tids : list string) (count : Z)
| Raises (exn : string).

(** [base_req.recipient = r]: an assignment, which the schema does not
    validate. *)
Definition with_recipient (r : string) (req : NotificationRequest) : NotificationRequest :=
  {| req_channel := req_channel req;
     req_recipient := r;
     req_template_id := req_template_id req;
     req_content := req_content req;
     req_variables := req_variables req;
     req_metadata := req_metadata req;
     req_priority := req_priority req |}.

(** The loop of the bulk path; [draws i] is the id and the clock reading
    of the [i]-th admission. *)
Fixpoint enqueue_each (recipients : list string) (draws : nat -> string * Z) (i : nat)
    (base_req : NotificationRequest) (w : World) (tracking_ids : list string)
  : World * option (list string) :=
  match recipients with
  | [] => (w, Some tracking_ids)
  | r :: rest =>
      match enqueue_notification (fst (draws i)) (snd (draws i))
              (with_recipient r base_req) w with
      | (w', Some tid) => enqueue_each rest draws (S i) base_req w' (tracking_ids ++ [tid])
      | (w', None) => (w', None)
      end
  end.

(** [send_notification]; [recipients] is the attribute [recipients] of
    the payload when it has one. *)
Definition send_notification (payload : NotificationRequest)
    (recipients : option (list string)) (draws : nat -> string * Z) (w : World)
  : World * send_response :=
  match recipients with
  | Some rs =>
      match make_request (req_channel payload) "" (req_template_id payload)
              (req_content payload) (req_variables payload) (req_metadata payload)
              (req_priority payload) with
      | None => (w, Raises "ValidationError")
      | Some base_req =>
          match enqueue_each rs draws 0 base_req w [] with
          | (w', Some tids) => (w', TrackingIds tids (Z.of_nat (length tids)))
          | (w', None) => (w', Raises "IntegrityError")
          end
      end
  | None =>
      match enqueue_notification (fst (draws 0%nat)) (snd (draws 0%nat)) payload w with
      | (w', Some tid) => (w', TrackingId tid)
      | (w', None) => (w', Raises "IntegrityError")
      end
  end.

End api_notifications.

(* ===================================================================== *)
(** * Vocabulary of the properties *)
(* ===================================================================== *)

Import retry_handler rate_limiter channels queue_service scheduler_service.

(** ** Retry planner *)




(** The attempt numbers up to which the arithmetic of the fallback stays
    within finite floats with a wide margin: the bases of the table are at
    most 300, so every intermediate value is below [2 ^ 1010], while
    floats reach [2 ^ 1024]. *)
Definition float_safe_attempts : Z := 1000.



(** ** Circuit breaker *)

(** Consecutive recorded failures, at the clock readings [ts]. *)
Definition failures (ts : list Q) (cb : CircuitBreaker) : CircuitBreaker :=
  fold_left (λ b t, on_failure t b) ts cb.

(** Consecutive allow-checks at the clock readings [ts], with no outcome
    recorded in between: the answers and the final breaker. *)
Fixpoint allow_checks (ts : list Q) (cb : CircuitBreaker) : list bool * CircuitBreaker :=
  match ts with
  | [] => ([], cb)
  | t :: ts' =>
      let r := allow_request t cb in
      let rest := allow_checks ts' (snd r) in
      (fst r :: fst rest, snd rest)
  end.

(** A breaker as it is when it starts closed: no failure counted yet. *)
Definition starts_closed (cb : CircuitBreaker) : Prop :=
  state cb = closed /\ failure_count cb = 0%Z.

(** ** Rate limiter *)

(** What holds of every bucket of a limiter at clock reading [now], when
    the clock does not run backwards and no negative amount is asked for:
    a bucket never holds more than its capacity and was last refilled in
    the past. *)
Definition limiter_ok (now : Q) (rl : RateLimiter) : Prop :=
  forall key b, _buckets rl !! key = Some b ->
    (tokens b <= capacity b)%Q /\ (last_refill b <= now)%Q.

(** The level a bucket is refilled to at clock reading [now]. *)
Definition refilled (now : Q) (b : TokenBucket) : Q :=
  Qmin (capacity b) (tokens b + (now - last_refill b) * refill_rate b)%Q.

(** The number of granted calls among the answers [l], as a rational. *)
Definition granted (l : list bool) : Q := inject_Z (Z.of_nat (count_true l)).

(** ** Webhook adapter *)

(** The recipient passes the URL check of the adapter. *)
Definition is_http_url (recipient : string) : bool :=
  String.prefix "http://" (lower recipient) || String.prefix "https://" (lower recipient).

(** ** Priority queue *)

(** [a] comes strictly before [b] by priority rank, then by sequence. *)
Definition key_lt (a b : QueueEntry) : Prop :=
  (entry_rank a < entry_rank b
   \/ (entry_rank a = entry_rank b /\ entry_seq a < entry_seq b))%Z.

Definition key_le (a b : QueueEntry) : Prop :=
  (entry_rank a < entry_rank b
   \/ (entry_rank a = entry_rank b /\ entry_seq a <= entry_seq b))%Z.

(** ** Worker *)

(** The same environment with another behaviour of the adapter. *)
Definition set_dispatch (d : send_result) (env : step_env) : step_env :=
  {| t_allow := t_allow env;
     t_bucket := t_bucket env;
     t_consume := t_consume env;
     dispatch := d;
     t_failure := t_failure env;
     latency := latency env;
     utcnow := utcnow env;
     jitter_draw := jitter_draw env |}.

(** The attempt row written for a failure. *)
Definition failed_row (tid : string) (number : Z) (latency_ms : Q) (msg : string) (at_ : Z)
  : DeliveryAttemptORM :=
  {| da_tracking_id := tid;
     attempt_number := number;
     da_status := "failed";
     error_message := Some msg;
     response_code := None;
     attempted_at := at_;
     da_latency_ms := latency_ms |}.

(** *** A small scenario: one webhook notification in an idle process *)

Definition hook : string := "https://example.com/hook".

Definition sample_request (prio : string) : NotificationRequest :=
  {| req_channel := "webhook";
     req_recipient := hook;
     req_template_id := None;
     req_content := "{}";
     req_variables := "{}";
     req_metadata := "{}";
     req_priority := prio |}.

(** The row that admission writes for [sample_request] under id ["n1"]. *)
Definition sample_row (prio : string) : NotificationORM :=
  {| tracking_id := "n1";
     channel := "webhook";
     recipient := hook;
     content := {| sc_content := "{}"; sc_variables := "{}";
                   sc_metadata := "{}"; sc_template_id := None |};
     status := "queued";
     priority := prio;
     attempts := 0;
     created_at := 0;
     delivered_at := None;
     last_attempt_at := None;
     failure_reason := None |}.

(** The process after admitting [sample_request] at time 0, with a
    cooldown of 60 seconds and no rate limiter. *)
Definition sample_world (prio : string) : World :=
  fst (enqueue_notification "n1" 0 (sample_request prio) (initial_world None 60)).

(** The same, with the breaker of the recipient tripped at time 3. *)
Definition tripped_world (prio : string) : World :=
  set_circuit_breakers
    (<[hook := failures [1; 2; 3]%Q (new_breaker 3 60)]> ∅) (sample_world prio).

(** An environment in which every clock reads [t] seconds and the adapter
    behaves as [d]; the latency is 5 ms and the random draw 1/2. *)
Definition sample_env (t : Z) (d : send_result) : step_env :=
  {| t_allow := inject_Z t;
     t_bucket := inject_Z t;
     t_consume := inject_Z t;
     dispatch := d;
     t_failure := inject_Z t;
     latency := 5;
     utcnow := (t * 1000000)%Z;
     jitter_draw := 1 # 2 |}.

(** *** Vocabulary of the retry cycle *)

(** The attempt rows recorded for one notification. *)
Definition attempts_of (tid : string) (w : World) : list DeliveryAttemptORM :=
  filter (λ a, da_tracking_id a = tid) (delivery_attempts w).

(** The worker gets as far as the adapter: the notification exists, its
    request can be rebuilt, the breaker allows and the rate limiter, if
    there is one, grants a token. *)
Definition reaches_dispatch (env : step_env) (tid : string) (w : World) : bool :=
  match notifications w !! tid with
  | None => false
  | Some notif =>
      match _reconstruct_request_from_notif notif with
      | None => false
      | Some req =>
          fst (allow_request (t_allow env) (_get_or_create_cb (req_recipient req) w))
          && match _rate_limiter w with
             | None => true
             | Some rl =>
                 fst (allow ("recipient:" +:+ req_recipient req) 1
                        (t_bucket env) (t_consume env) rl)
             end
      end
  end.

(** The adapter raises a transient error or an unclassified exception;
    the message is the one the worker records. *)
Definition transient_message (d : send_result) : option string :=
  match d with
  | TransientChannelError msg => Some msg
  | OtherException msg => Some ("unexpected: " +:+ msg)
  | _ => None
  end.




(** One round of the pipeline: a worker takes the least entry and
    processes it, then the first pending retry timer, if any, fires. *)
Definition round (env : step_env) (w : World) : World :=
  _delayed_requeue 0 (_worker_loop_turn env w).

(** The rounds driven by the environments [envs], in order. *)
Definition deliver (envs : list step_env) (w : World) : World :=
  fold_left (λ w env, round env w) envs w.


(** The status of a notification, if it exists. *)
Definition status_of (tid : string) (w : World) : option string :=
  status <$> notifications w !! tid.




(** ** Delivery store and the states the pipeline reaches *)

(** The attempt row written by [record_delivery_attempt]. *)
Definition attempt_row (tid : string) (number : Z) (st : string) (latency_ms : Q)
    (error : option string) (code : option Z) (at_ : Z) : DeliveryAttemptORM :=
  {| da_tracking_id := tid;
     attempt_number := number;
     da_status := st;
     error_message := error;
     response_code := code;
     attempted_at := at_;
     da_latency_ms := latency_ms |}.

(** How many times [tid] is waiting: as a queue entry or behind a retry
    timer. *)
Definition tokens_for (tid : string) (w : World) : nat :=
  length (filter (λ e, entry_tid e = tid) (_ready_queue w))
  + length (filter (λ r, r.1.1 = tid) (pending_requeues w)).

(** A restart of the process: the tables persist, everything held in
    memory starts afresh. *)
Definition restart (limiter : option RateLimiter) (cooldown : Q) (w : World) : World :=
  {| notifications := notifications w;
     delivery_attempts := delivery_attempts w;
     _ready_queue := [];
     _seq_counter := 0;
     _circuit_breakers := ∅;
     _rate_limiter := limiter;
     pending_requeues := [];
     CB_COOLDOWN := cooldown |}.

(** The states of the pipeline: from a fresh process with empty tables,
    by admissions (from the API or the scheduler), worker turns, worker
    turns that are suspended at the adapter or in the pause of the rate
    limiter (and, here, not taken up again), retry timers firing, and
    restarts.  A turn that is suspended and later runs on is taken as one
    step: what other tasks do between its two halves is not interleaved
    with it. *)
Inductive reachable : World -> Prop :=
| reach_start (limiter : option RateLimiter) (cooldown : Q) :
    reachable (initial_world limiter cooldown)
| reach_enqueue (w : World) (new_id : string) (now : Z) (req : NotificationRequest) :
    reachable w -> reachable (fst (enqueue_notification new_id now req w))
| reach_worker (w : World) (env : step_env) :
    reachable w -> reachable (_worker_loop_turn env w)
| reach_requeue (w : World) (i : nat) :
    reachable w -> reachable (_delayed_requeue i w)
| reach_restart (w : World) (limiter : option RateLimiter) (cooldown : Q) :
    reachable w -> reachable (restart limiter cooldown w)
| reach_suspended (w : World) (env : step_env) :
    reachable w -> reachable (suspended_turn env w).

(** What the pipeline maintains for one tracking id: it waits at most
    once; once [delivered_at] is set its status is delivered and it waits
    no more; and an id without a row does not wait. *)
Definition settled (tid : string) (w : World) : Prop :=
  (tokens_for tid w <= 1)%nat
  /\ (forall notif, notifications w !! tid = Some notif ->
        delivered_at notif <> None ->
        status notif = "delivered" /\ tokens_for tid w = 0%nat)
  /\ (notifications w !! tid = None -> tokens_for tid w = 0%nat).

(** The row of the sample notification once its first attempt, recorded
    at second 1 of the clock, has delivered it. *)
Definition sample_row_delivered : NotificationORM :=
  {| tracking_id := "n1";
     channel := "webhook";
     recipient := hook;
     content := {| sc_content := "{}"; sc_variables := "{}";
                   sc_metadata := "{}"; sc_template_id := None |};
     status := "delivered";
     priority := "normal";
     attempts := 1;
     created_at := 0;
     delivered_at := Some 1000000%Z;
     last_attempt_at := Some 1000000%Z;
     failure_reason := None |}.

Definition sample_success : send_result :=
  Sent {| provider := "http"; status_code := Some 200%Z; latency_ms := 5 |}.

(** ** Unknown priorities *)

Definition with_priority (p : string) (notif : NotificationORM) : NotificationORM :=
  {| tracking_id := tracking_id notif;
     channel := channel notif;
     recipient := recipient notif;
     content := content notif;
     status := status notif;
     priority := p;
     attempts := attempts notif;
     created_at := created_at notif;
     delivered_at := delivered_at notif;
     last_attempt_at := last_attempt_at notif;
     failure_reason := failure_reason notif |}.

(** The process with the stored priority of [tid] replaced by [p]. *)
Definition set_row_priority (tid p : string) (w : World) : World :=
  set_notifications (alter (with_priority p) tid (notifications w)) w.

(** The priority [p] is taken through the pipeline as normal: it has the
    plan and the rank of normal, and a worker that processes a stored
    notification of priority [p] records the attempts it would record if
    the priority were normal. *)
Definition processed_as_normal (p : string) : Prop :=
  get_retry_plan p = get_retry_plan "normal"
  /\ _priority_value p = _priority_value "normal"
  /\ forall (env : step_env) (tid : string) (w : World) (notif : NotificationORM),
       notifications w !! tid = Some notif -> priority notif = p ->
       delivery_attempts (fst (_process_tracking_id env tid w))
       = delivery_attempts
           (fst (_process_tracking_id env tid (set_row_priority tid "normal" w))).

(** A process holding one stored notification of priority ["urgent"]. *)
Definition urgent_world : World :=
  set_notifications (<["n1" := sample_row "urgent"]> ∅) (initial_world None 60).

(** ** Scheduler *)

(** 2024-01-01 00:00:00 as a microsecond count. *)
Definition jan1 : Z := 1704067200 * 1000000.

(** A schedule for every day at 09:00 in Tokyo, first due on
    2024-01-01 at 09:00 Tokyo time, which is 2024-01-01 00:00 UTC. *)
Definition tokyo_schedule : ScheduledNotificationORM :=
  {| schedule_id := "s1";
     notification_data :=
       {| rd_channel := "webhook";
          rd_recipient := hook;
          rd_template_id := None;
          rd_content := "{}";
          rd_variables := "{}";
          rd_metadata := "{}";
          rd_priority := "normal" |};
     send_at := jan1 + 9 * hour_us;
     timezone := "Asia/Tokyo";
     recurrence := Some "0 9 * * *";
     last_run := None;
     active := true |}.

(** One scan, one second after the schedule falls due, in an idle
    process. *)
Definition tokyo_scan : list ScheduledNotificationORM * World :=
  _process_due_schedules fixed_zones daily_nine (jan1 + 1000000) [("n1", jan1 + 1000000)%Z]
    [tokyo_schedule] (initial_world None 60).

(** Four rounds with the adapter timing out, each as soon as the retry
    delay of the plan for critical allows: at seconds 0, 1, 6 and 21. *)
Definition timeouts_on_schedule : list step_env :=
  map (λ t, sample_env t (TransientChannelError "Webhook timeout after 10.0s"))
    [0; 1; 6; 21]%Z.



(** [a] does not come after [b] in the order of the tuples. *)
Definition entry_le (a b : QueueEntry) : Prop := entry_ltb b a = false.

(** ** Further vocabulary: breakers and limiters in use *)

(** The breakers a program can hold: built by the constructor with a
    threshold of at least 1 and touched only through the three methods. *)
Inductive cb_reachable : CircuitBreaker -> Prop :=
| cbr_new (threshold : Z) (cooldown : Q) :
    (1 <= threshold)%Z -> cb_reachable (new_breaker threshold cooldown)
| cbr_success (cb : CircuitBreaker) :
    cb_reachable cb -> cb_reachable (on_success cb)
| cbr_failure (cb : CircuitBreaker) (now : Q) :
    cb_reachable cb -> cb_reachable (on_failure now cb)
| cbr_allow (cb : CircuitBreaker) (now : Q) :
    cb_reachable cb -> cb_reachable (snd (allow_request now cb)).

(** The fields of a breaker agree with its state. *)
Definition cb_consistent (cb : CircuitBreaker) : Prop :=
  (1 <= failure_threshold cb)%Z
  /\ match state cb with
     | closed =>
         (0 <= failure_count cb < failure_threshold cb)%Z
         /\ half_open_probe_in_flight cb = false
     | open =>
         (failure_threshold cb <= failure_count cb)%Z
         /\ opened_at cb <> None
         /\ half_open_probe_in_flight cb = false
     | half_open =>
         (failure_threshold cb <= failure_count cb)%Z /\ opened_at cb <> None
     end.

(** The limiters a program can hold: built by the constructor and used
    through [allow] with amounts that are not negative; the clock is
    arbitrary. *)
Inductive rl_reachable (cap rate : Q) : RateLimiter -> Prop :=
| rlr_new : rl_reachable cap rate (new_limiter cap rate)
| rlr_allow (rl : RateLimiter) (key : string) (amount created now : Q) :
    rl_reachable cap rate rl -> (0 <= amount)%Q ->
    rl_reachable cap rate (snd (allow key amount created now rl)).

(** [ts] are clock readings, each at least [1 / rate] seconds after the
    one before, starting after [t0]. *)
Fixpoint spaced (rate t0 : Q) (ts : list Q) : Prop :=
  match ts with
  | [] => True
  | t :: ts' => (1 <= (t - t0) * rate)%Q /\ spaced rate t ts'
  end.

(** Calls of [allow] for one key with amount 1, one at each reading of
    [ts]: the answers in order. *)
Fixpoint calls (key : string) (ts : list Q) (rl : RateLimiter) : list bool :=
  match ts with
  | [] => []
  | t :: ts' =>
      fst (allow key 1 t t rl) :: calls key ts' (snd (allow key 1 t t rl))
  end.

(** ** Further vocabulary: the attempt history *)

(** The numbers 1, 2, ..., [n]. *)
Definition one_to (n : nat) : list Z := map Z.of_nat (seq 1 n).

(** What the tables hold about one tracking id: without a notification
    there is no attempt row; with one, its rows are numbered 1, 2, ... in
    the order they were written, [attempts] counts them, all rows but the
    last are failed ones, and the notification mirrors the last row (or is
    still as it was admitted), except that its status reads sending from
    the moment a send begins until its outcome is recorded. *)
Definition ledger (tid : string) (w : World) : Prop :=
  let rows := attempts_of tid w in
  match notifications w !! tid with
  | None => rows = []
  | Some n =>
      map attempt_number rows = one_to (length rows)
      /\ attempts n = Z.of_nat (length rows)
      /\ Forall (λ r, da_status r = "failed") (removelast rows)
      /\ match last rows with
         | None =>
             (status n = "queued" \/ status n = "sending")
             /\ last_attempt_at n = None
             /\ failure_reason n = None /\ delivered_at n = None
         | Some r =>
             (status n = da_status r
              \/ status n = "sending" /\ da_status r = "failed")
             /\ last_attempt_at n = Some (attempted_at r)
             /\ failure_reason n = error_message r
             /\ (da_status r = "delivered" /\ error_message r = None
                 /\ delivered_at n = Some (attempted_at r)
                 \/ da_status r = "failed" /\ error_message r <> None
                    /\ delivered_at n = None)
         end
  end.

(** The sample notification after a first attempt, at second 1 of the
    clock, has delivered it. *)
Definition delivered_world : World :=
  _worker_loop_turn (sample_env 1 sample_success) (sample_world "normal").

(** The sample notification while its first attempt, begun at second 1
    of the clock, is with the adapter. *)
Definition sending_world : World :=
  suspended_turn (sample_env 1 sample_success) (sample_world "normal").

(** ** Further vocabulary: worker turns *)

(** The breaker of [recipient] is half-open with its probe handed out. *)
Definition probe_outstanding (recipient : string) (w : World) : Prop :=
  exists cb, _circuit_breakers w !! recipient = Some cb
             /\ state cb = half_open /\ half_open_probe_in_flight cb = true.

(** The sample process with the breaker of the recipient tripped at time
    3 and a limiter whose only token for the recipient is spent at time
    70. *)
Definition throttled_world : World :=
  set_rate_limiter
    (Some (snd (allow ("recipient:" +:+ hook) 1 70 70 (new_limiter 1 (1 # 100)))))
    (tripped_world "normal").

(** The throttled process after a worker turn at second 70: the cooldown
    of the breaker has elapsed, the limiter has no token. *)
Definition stalled_world : World :=
  _worker_loop_turn (sample_env 70 sample_success) throttled_world.

(** ** Further vocabulary: the queue in use *)



(** ** Further vocabulary: scans of the schedule table *)

(** The zone name a scan uses for a row. *)
Definition zone_name (r : ScheduledNotificationORM) : string :=
  if String.eqb (timezone r) "" then "UTC" else timezone r.

(** A row that a scan at [now_utc] has no reason to fire: it is inactive,
    it has run before, its zone is unknown, it is not due yet, or its
    payload is not a valid request. *)
Definition passed_over (zone : string -> option (Z -> Z)) (now_utc : Z)
    (r : ScheduledNotificationORM) : Prop :=
  active r = false
  \/ last_run r <> None
  \/ _to_utc zone (send_at r) (zone_name r) = None
  \/ (exists u, _to_utc zone (send_at r) (zone_name r) = Some u /\ (now_utc < u)%Z)
  \/ parse_obj (notification_data r) = None.

(** The request a scan at [now_utc] admits for a row, if any: the row
    is active, its zone is known, it is due, it has never run and its
    payload is a valid request. *)
Definition fires (zone : string -> option (Z -> Z)) (now_utc : Z)
    (r : ScheduledNotificationORM) : option NotificationRequest :=
  if active r then
    match _to_utc zone (send_at r) (zone_name r) with
    | Some u =>
        if (u <=? now_utc)%Z then
          match last_run r with
          | None => parse_obj (notification_data r)
          | Some _ => None
          end
        else None
    | None => None
    end
  else None.

(** The admission a scan makes for a row and the id and clock reading
    drawn for it. *)
Definition admit_fired (zone : string -> option (Z -> Z)) (now_utc : Z) (w : World)
    (x : ScheduledNotificationORM * (string * Z)) : World :=
  match fires zone now_utc x.1 with
  | Some req => fst (enqueue_notification x.2.1 x.2.2 req w)
  | None => w
  end.

(** What a scan at [now_utc] can make of a row: nothing, or a row that
    fires in this scan records [now_utc] as its last run. *)
Definition ran (zone : string -> option (Z -> Z)) (now_utc : Z)
    (r r' : ScheduledNotificationORM) : Prop :=
  r' = r
  \/ (fires zone now_utc r <> None /\ last_run r' = Some now_utc
      /\ schedule_id r' = schedule_id r).

(** What one iteration of the scan keeps: the lengths of the session and
    of the committed table, the rows at other positions of the session,
    and for every row the relation [ran] to the row it started from. *)
Definition scan_inv (zone : string -> option (Z -> Z)) (now_utc : Z)
    (table : list ScheduledNotificationORM) (i : nat) (st : scan_state) : Prop :=
  length (session st) = length table
  /\ length (committed st) = length table
  /\ (forall j, (i <= j)%nat -> session st !! j = table !! j)
  /\ (forall j r r', table !! j = Some r -> session st !! j = Some r' ->
        ran zone now_utc r r')
  /\ (forall j r r', table !! j = Some r -> committed st !! j = Some r' ->
        ran zone now_utc r r').

(** The Tokyo schedule with an expression that is not a cron expression. *)
Definition broken_schedule : ScheduledNotificationORM :=
  {| schedule_id := "s1";
     notification_data := notification_data tokyo_schedule;
     send_at := jan1 + 9 * hour_us;
     timezone := "Asia/Tokyo";
     recurrence := Some "every day";
     last_run := None;
     active := true |}.

(** The Tokyo schedule as the scan of [tokyo_scan] leaves it. *)
Definition tokyo_schedule_after : ScheduledNotificationORM :=
  set_send_at (jan1 + day_us) (set_last_run (jan1 + 1000000) tokyo_schedule).

(** ** Further vocabulary: the mock adapters *)

(** The body an adapter works on: the rendered body, an absent one read
    as empty, without surrounding white space. *)
Definition body_of (rendered_body : option string) : string :=
  strip (default "" rendered_body).

(** Text within ASCII, the text the model of the adapters covers. *)
Definition ascii_text (s : string) : bool :=
  mock_channels.all_chars (λ c, (nat_of_ascii c <? 128)%nat) s.

(** ** Further vocabulary: templates *)

(** The required variables of a template that a dictionary lacks, in the
    order the template lists them. *)
Definition missing_variables {V : Type} (tpl : template_service.TemplateORM)
    (variables : gmap string V) : list string :=
  filter (λ v, variables !! v = None) (template_service.t_variables tpl).

(** A welcome template that requires the variable ["user"]. *)
Definition welcome_template : template_service.TemplateORM :=
  {| template_service.template_id := "t1";
     template_service.name := "welcome";
     template_service.t_channel := "webhook";
     template_service.t_content :=
       {| template_service.tc_subject := None;
          template_service.tc_body := Some "Hello {{ user }}" |};
     template_service.t_variables := ["user"];
     template_service.t_active := true;
     template_service.t_created_at := 0;
     template_service.t_updated_at := 0 |}.

(** A stand-in for the template engine that returns the template text as
    it is, and for the JSON reader one that finds no variable and no
    content. *)
Definition echo_engine (text : string) (variables : gmap string string) : string + string :=
  inl text.

Definition no_variables (doc : json) : gmap string string := ∅.

Definition no_content (doc : json) (key : string) : option string := None.

(** The sample request addressed to a template. *)
Definition template_request (k : string) : NotificationRequest :=
  {| req_channel := "webhook";
     req_recipient := hook;
     req_template_id := Some k;
     req_content := "{}";
     req_variables := "{}";
     req_metadata := "{}";
     req_priority := "normal" |}.

(** The process after admitting [template_request "t1"] under id ["n1"],
    and a turn at second 1 whose dispatch is the rendering of that request
    against the welcome template, with no variable supplied. *)
Definition template_world : World :=
  fst (enqueue_notification "n1" 0 (template_request "t1") (initial_world None 60)).

Definition template_env : step_env :=
  sample_env 1
    (template_service.dispatch_of string echo_engine no_variables no_content
       [welcome_template] (λ _, None) (template_request "t1")).

(** ** Further vocabulary: what follows a state *)

(** The states the pipeline can reach from [w0]. *)
Inductive continues (w0 : World) : World -> Prop :=
| cont_here : continues w0 w0
| cont_enqueue (w : World) (new_id : string) (now : Z) (req : NotificationRequest) :
    continues w0 w -> continues w0 (fst (enqueue_notification new_id now req w))
| cont_worker (w : World) (env : step_env) :
    continues w0 w -> continues w0 (_worker_loop_turn env w)
| cont_requeue (w : World) (i : nat) :
    continues w0 w -> continues w0 (_delayed_requeue i w)
| cont_restart (w : World) (limiter : option RateLimiter) (cooldown : Q) :
    continues w0 w -> continues w0 (restart limiter cooldown w)
| cont_suspended (w : World) (env : step_env) :
    continues w0 w -> continues w0 (suspended_turn env w).

(** The notification [tid] is as [n], with the attempt rows [rows], and
    does not wait. *)
Definition at_rest (tid : string) (n : NotificationORM) (rows : list DeliveryAttemptORM)
    (w : World) : Prop :=
  notifications w !! tid = Some n
  /\ attempts_of tid w = rows
  /\ tokens_for tid w = 0%nat.

(* ===================================================================== *)
(** * Properties *)
(* ===================================================================== *)

(** ** Retry planner *)

Lemma get_retry_plan_cases (p : string) :
  get_retry_plan p = {| max_attempts := 5; delays := [1; 5; 15; 60; 300]%Q |}
  \/ get_retry_plan p = {| max_attempts := 3; delays := [5; 30; 120]%Q |}
  \/ get_retry_plan p = {| max_attempts := 2; delays := [10; 60]%Q |}
  \/ get_retry_plan p = {| max_attempts := 1; delays := [] |}.
Proof.
  unfold get_retry_plan, RETRY_CONFIGS.
  destruct (decide (p = "critical")) as [->|H1]; [left; reflexivity|].
  destruct (decide (p = "high")) as [->|H2]; [right; left; reflexivity|].
  destruct (decide (p = "normal")) as [->|H3]; [right; right; left; reflexivity|].
  destruct (decide (p = "low")) as [->|H4]; [right; right; right; reflexivity|].
  rewrite !lookup_insert_ne, lookup_empty by congruence.
  right; right; left; reflexivity.
Qed.








(** ** Circuit breaker *)

Lemma allow_request_closed (now : Q) (cb : CircuitBreaker) :
  state cb = closed -> allow_request now cb = (true, cb).
Proof.
  destruct cb as [th cd st fc oa fl]; simpl; intros ->.
  simp allow_request. reflexivity.
Qed.

Lemma allow_request_half_open (now : Q) (cb : CircuitBreaker) :
  state cb = half_open ->
  allow_request now cb =
    if negb (half_open_probe_in_flight cb) then (true, claim_probe cb) else (false, cb).
Proof.
  destruct cb as [th cd st fc oa fl]; simpl; intros ->.
  simp allow_request. reflexivity.
Qed.

Lemma allow_request_open_unstamped (now : Q) (cb : CircuitBreaker) :
  state cb = open -> opened_at cb = None ->
  allow_request now cb = (false, stamp_opened now cb).
Proof.
  destruct cb as [th cd st fc oa fl]; simpl; intros -> ->.
  simp allow_request. reflexivity.
Qed.

Lemma allow_request_open_waiting (now t : Q) (cb : CircuitBreaker) :
  state cb = open -> opened_at cb = Some t ->
  (now - t < cooldown_seconds cb)%Q ->
  allow_request now cb = (false, cb).
Proof.
  destruct cb as [th cd st fc oa fl]; simpl; intros -> -> Hlt.
  simp allow_request. simpl.
  destruct (Qle_bool cd (now - t)) eqn:E.
  - apply Qle_bool_iff in E. lra.
  - simpl. reflexivity.
Qed.

Lemma allow_request_open_elapsed (now t : Q) (cb : CircuitBreaker) :
  state cb = open -> opened_at cb = Some t ->
  (cooldown_seconds cb <= now - t)%Q ->
  allow_request now cb = (true, claim_probe (to_half_open cb)).
Proof.
  destruct cb as [th cd st fc oa fl]; simpl; intros -> -> Hle.
  simp allow_request. simpl.
  apply Qle_bool_iff in Hle. rewrite Hle. simpl.
  simp allow_request. reflexivity.
Qed.

Lemma on_failure_below (now : Q) (cb : CircuitBreaker) :
  state cb = closed -> (failure_count cb + 1 < failure_threshold cb)%Z ->
  on_failure now cb =
    {| failure_threshold := failure_threshold cb;
       cooldown_seconds := cooldown_seconds cb;
       state := closed;
       failure_count := failure_count cb + 1;
       opened_at := opened_at cb;
       half_open_probe_in_flight := half_open_probe_in_flight cb |}.
Proof.
  intros Hs Hlt. unfold on_failure. rewrite Hs.
  destruct (Z.leb_spec (failure_threshold cb) (failure_count cb + 1)); [lia|reflexivity].
Qed.

Lemma on_failure_reaches (now : Q) (cb : CircuitBreaker) :
  state cb = closed -> (failure_threshold cb <= failure_count cb + 1)%Z ->
  state (on_failure now cb) = open /\ opened_at (on_failure now cb) = Some now.
Proof.
  intros Hs Hle. unfold on_failure. rewrite Hs.
  destruct (Z.leb_spec (failure_threshold cb) (failure_count cb + 1)); [|lia].
  split; reflexivity.
Qed.

Lemma failures_below (ts : list Q) : forall cb : CircuitBreaker,
  state cb = closed ->
  (failure_count cb + Z.of_nat (length ts) < failure_threshold cb)%Z ->
  state (failures ts cb) = closed
  /\ failure_count (failures ts cb) = (failure_count cb + Z.of_nat (length ts))%Z
  /\ failure_threshold (failures ts cb) = failure_threshold cb.
Proof.
  induction ts as [|t ts IH]; intros cb Hs Hlt; simpl in *.
  - repeat split; [assumption | lia].
  - unfold failures in *. simpl.
    rewrite on_failure_below by (assumption || lia).
    destruct (IH {| failure_threshold := failure_threshold cb;
                    cooldown_seconds := cooldown_seconds cb;
                    state := closed;
                    failure_count := failure_count cb + 1;
                    opened_at := opened_at cb;
                    half_open_probe_in_flight := half_open_probe_in_flight cb |})
      as (H1 & H2 & H3); simpl; [reflexivity | lia |].
    simpl in *. repeat split; [assumption | lia | assumption].
Qed.

Lemma allow_checks_probe_taken (ts : list Q) (cb : CircuitBreaker) :
  state cb = half_open -> half_open_probe_in_flight cb = true ->
  Forall (λ b, b = false) (fst (allow_checks ts cb)) /\ snd (allow_checks ts cb) = cb.
Proof.
  intros Hs Hp. induction ts as [|t ts [IH1 IH2]]; simpl.
  - split; [constructor | reflexivity].
  - rewrite (allow_request_half_open t cb Hs), Hp. simpl.
    split; [constructor; [reflexivity | assumption] | assumption].
Qed.

(** C3.  A breaker that starts closed opens at the [failure_threshold]-th
    consecutive failure, not earlier, and stamps [opened_at] with the time
    of that failure.  An open breaker refuses while less than
    [cooldown_seconds] have passed since [opened_at]; at the first check
    after that it turns half-open and allows, and every further check
    refuses and leaves it as it is until an outcome is recorded.
    [on_success] resets any breaker to closed, with no failure counted and
    no probe in flight.  [on_failure] on a half-open breaker re-opens it
    with [opened_at] set to the time of the failure. *)
Theorem circuit_breaker_cycle :
  (forall (cb : CircuitBreaker) (ts : list Q) (t : Q),
     starts_closed cb ->
     Z.of_nat (length ts) + 1 = failure_threshold cb ->
     state (failures ts cb) = closed
     /\ state (failures (ts ++ [t]) cb) = open
     /\ opened_at (failures (ts ++ [t]) cb) = Some t)%Z
  /\ (forall (cb : CircuitBreaker) (t now : Q),
        state cb = open -> opened_at cb = Some t ->
        (now - t < cooldown_seconds cb)%Q ->
        allow_request now cb = (false, cb))
  /\ (forall (cb : CircuitBreaker) (t now : Q) (later : list Q),
        state cb = open -> opened_at cb = Some t ->
        (cooldown_seconds cb <= now - t)%Q ->
        fst (allow_request now cb) = true
        /\ state (snd (allow_request now cb)) = half_open
        /\ Forall (λ b, b = false) (fst (allow_checks later (snd (allow_request now cb))))
        /\ snd (allow_checks later (snd (allow_request now cb))) = snd (allow_request now cb))
  /\ (forall cb : CircuitBreaker,
        state (on_success cb) = closed
        /\ failure_count (on_success cb) = 0%Z
        /\ half_open_probe_in_flight (on_success cb) = false)
  /\ (forall (cb : CircuitBreaker) (now : Q),
        state cb = half_open ->
        state (on_failure now cb) = open /\ opened_at (on_failure now cb) = Some now).
Proof.
  split; [|split; [|split; [|split]]].
  - intros cb ts t [Hs Hc] Hlen.
    destruct (failures_below ts cb Hs) as (H1 & H2 & H3); [lia|].
    split; [assumption|].
    unfold failures in *. rewrite fold_left_app. simpl.
    apply on_failure_reaches; [assumption | lia].
  - intros cb t now. apply allow_request_open_waiting.
  - intros cb t now later Hs Ho Hle.
    rewrite (allow_request_open_elapsed now t cb Hs Ho Hle). simpl.
    split; [reflexivity|]. split; [reflexivity|].
    apply allow_checks_probe_taken; reflexivity.
  - intros cb. repeat split.
  - intros cb now Hs. unfold on_failure. rewrite Hs. split; reflexivity.
Qed.

Lemma circuit_breaker_cycle_witness :
  let cb := new_breaker 3 60 in
  let opened := failures [1; 2; 3]%Q cb in
  (state (failures [1; 2]%Q cb) = closed
   /\ state opened = open /\ opened_at opened = Some 3%Q)
  /\ allow_request 62 opened = (false, opened)
  /\ (fst (allow_request 63 opened) = true
      /\ state (snd (allow_request 63 opened)) = half_open
      /\ Forall (λ b, b = false)
           (fst (allow_checks [64; 65]%Q (snd (allow_request 63 opened))))
      /\ snd (allow_checks [64; 65]%Q (snd (allow_request 63 opened)))
         = snd (allow_request 63 opened))
  /\ (state (on_failure 70 (snd (allow_request 63 opened))) = open
      /\ opened_at (on_failure 70 (snd (allow_request 63 opened))) = Some 70%Q).
Proof.
  intros cb opened.
  destruct circuit_breaker_cycle as (H1 & H2 & H3 & _ & H5).
  split; [|split; [|split]].
  - apply (H1 cb [1; 2]%Q 3%Q); [split; reflexivity | reflexivity].
  - apply (H2 opened 3%Q 62%Q); [reflexivity | reflexivity | vm_compute; reflexivity].
  - apply (H3 opened 3%Q 63%Q [64; 65]%Q); [reflexivity | reflexivity | vm_compute; discriminate].
  - apply (H5 (snd (allow_request 63 opened)) 70%Q). reflexivity.
Defined.

(** ** Rate limiter *)

Lemma Qgtb_true (x y : Q) : Qgtb x y = true <-> (y < x)%Q.
Proof.
  unfold Qgtb. destruct (Qle_bool x y) eqn:E; simpl.
  - apply Qle_bool_iff in E. split; [discriminate | lra].
  - split; [intros _ | reflexivity].
    destruct (Qlt_le_dec y x) as [H|H]; [assumption|].
    apply Qle_bool_iff in H. congruence.
Qed.

Lemma Qgtb_false (x y : Q) : Qgtb x y = false <-> (x <= y)%Q.
Proof.
  unfold Qgtb. destruct (Qle_bool x y) eqn:E; simpl.
  - apply Qle_bool_iff in E. split; [intros _; assumption | reflexivity].
  - split; [discriminate|]. intros H. apply Qle_bool_iff in H. congruence.
Qed.

Lemma Qgeb_true (x y : Q) : Qgeb x y = true <-> (y <= x)%Q.
Proof. unfold Qgeb. apply Qle_bool_iff. Qed.

Lemma Qgeb_false (x y : Q) : Qgeb x y = false <-> (x < y)%Q.
Proof.
  unfold Qgeb. destruct (Qle_bool y x) eqn:E.
  - apply Qle_bool_iff in E. split; [discriminate | lra].
  - split; [intros _ | reflexivity].
    destruct (Qlt_le_dec x y) as [H|H]; [assumption|].
    apply Qle_bool_iff in H. congruence.
Qed.

(** The refill step reaches the level [refilled], whether or not time has
    passed, and leaves the bucket stamped with the current reading. *)
Lemma refill_level (now : Q) (b : TokenBucket) :
  (tokens b <= capacity b)%Q -> (last_refill b <= now)%Q ->
  (tokens (refill now b) == refilled now b)%Q
  /\ (last_refill (refill now b) == now)%Q
  /\ capacity (refill now b) = capacity b
  /\ refill_rate (refill now b) = refill_rate b.
Proof.
  intros Hcap Hclock. unfold refill, refilled.
  destruct (Qgtb (now - last_refill b) 0) eqn:E; simpl.
  - repeat split; reflexivity.
  - apply Qgtb_false in E.
    assert (He : (now - last_refill b == 0)%Q) by lra.
    repeat split; try reflexivity; [|lra].
    rewrite He. rewrite Q.min_r; lra.
Qed.

Lemma try_consume_spec (now amount : Q) (b : TokenBucket) :
  (tokens b <= capacity b)%Q -> (last_refill b <= now)%Q ->
  (fst (try_consume now amount b) = true <-> (amount <= refilled now b)%Q)
  /\ (tokens (snd (try_consume now amount b)) ==
        if fst (try_consume now amount b)
        then refilled now b - amount else refilled now b)%Q
  /\ (last_refill (snd (try_consume now amount b)) == now)%Q
  /\ capacity (snd (try_consume now amount b)) = capacity b
  /\ refill_rate (snd (try_consume now amount b)) = refill_rate b.
Proof.
  intros Hcap Hclock.
  destruct (refill_level now b Hcap Hclock) as (Ht & Hl & Hc & Hr).
  unfold try_consume.
  destruct (Qgeb (tokens (refill now b)) amount) eqn:E; simpl.
  - apply Qgeb_true in E. repeat split; try assumption; try lra.
  - apply Qgeb_false in E. repeat split; try assumption; try lra; discriminate.
Qed.

Lemma bucket_for_ok (t created : Q) (key : string) (rl : RateLimiter) :
  limiter_ok t rl -> (t <= created)%Q ->
  (tokens (bucket_for key created rl) <= capacity (bucket_for key created rl))%Q
  /\ (last_refill (bucket_for key created rl) <= created)%Q.
Proof.
  intros Hok Hle. unfold bucket_for.
  destruct (_buckets rl !! key) as [b|] eqn:E; simpl.
  - destruct (Hok key b E). split; lra.
  - split; lra.
Qed.

(** The invariant [limiter_ok] is established by the constructor and
    kept by [allow], as long as the clock does not run backwards and the
    amount is not negative. *)
Lemma limiter_ok_new (cap rate now : Q) : limiter_ok now (new_limiter cap rate).
Proof. intros key b H. simpl in H. rewrite lookup_empty in H. discriminate. Qed.

Lemma limiter_ok_allow (t created now amount : Q) (key : string) (rl : RateLimiter) :
  limiter_ok t rl -> (t <= created)%Q -> (created <= now)%Q -> (0 <= amount)%Q ->
  limiter_ok now (snd (allow key amount created now rl)).
Proof.
  intros Hok H1 H2 Ha key' b'. unfold allow. simpl.
  destruct (decide (key = key')) as [<-|Hne].
  - rewrite lookup_insert_eq. intros [= <-].
    destruct (bucket_for_ok t created key rl Hok H1) as [Hb1 Hb2].
    destruct (try_consume_spec now amount (bucket_for key created rl)) as (_ & Ht & Hl & Hc & _);
      [assumption | lra |].
    rewrite Hc. split; [|lra].
    rewrite Ht. pose proof (Q.le_min_l (capacity (bucket_for key created rl))
      (tokens (bucket_for key created rl)
       + (now - last_refill (bucket_for key created rl))
         * refill_rate (bucket_for key created rl))) as Hm.
    fold (refilled now (bucket_for key created rl)) in Hm.
    destruct (fst (try_consume now amount (bucket_for key created rl))); lra.
  - rewrite lookup_insert_ne by assumption. intros Hb.
    destruct (Hok key' b' Hb). split; lra.
Qed.

(** *** Bursts *)

Lemma refill_settled (now : Q) (b : TokenBucket) :
  Qgtb (now - last_refill (refill now b)) 0 = false.
Proof.
  unfold refill. destruct (Qgtb (now - last_refill b) 0) eqn:E; simpl.
  - apply Qgtb_false. lra.
  - assumption.
Qed.

Lemma refill_fixed (now : Q) (b : TokenBucket) :
  Qgtb (now - last_refill b) 0 = false -> refill now b = b.
Proof. intros H. unfold refill. rewrite H. reflexivity. Qed.

Lemma refill_try_consume (now amount : Q) (b : TokenBucket) :
  refill now (snd (try_consume now amount b)) = snd (try_consume now amount b).
Proof.
  apply refill_fixed. unfold try_consume.
  destruct (Qgeb (tokens (refill now b)) amount); simpl; apply refill_settled.
Qed.

Lemma refill_below_capacity (now : Q) (b : TokenBucket) :
  (tokens b <= capacity b)%Q -> (tokens (refill now b) <= capacity b)%Q.
Proof.
  intros H. unfold refill. destruct (Qgtb (now - last_refill b) 0); simpl.
  - apply Q.le_min_l.
  - assumption.
Qed.

Lemma granted_cons (x : bool) (l : list bool) :
  (granted (x :: l) == (if x then 1 else 0) + granted l)%Q.
Proof.
  unfold granted, count_true. destruct x.
  - rewrite filter_cons_True by reflexivity.
    cbn [length]. rewrite Nat2Z.inj_succ, <- Z.add_1_l, inject_Z_plus. reflexivity.
  - rewrite filter_cons_False by discriminate. lra.
Qed.

Lemma burst_bound (n : nat) (key : string) (now : Q) : forall rl : RateLimiter,
  (granted (fst (burst n key now rl)) <= Qmax 0 (tokens (refill now (bucket_for key now rl))))%Q.
Proof.
  induction n as [|n IH]; intros rl; simpl.
  - apply Q.le_max_l.
  - rewrite granted_cons.
    set (b := bucket_for key now rl).
    specialize (IH (snd (allow key 1 now now rl))).
    assert (Hb : bucket_for key now (snd (allow key 1 now now rl))
                 = snd (try_consume now 1 b)).
    { unfold allow, bucket_for at 1. simpl. rewrite lookup_insert_eq. reflexivity. }
    rewrite Hb, refill_try_consume in IH.
    unfold allow in *. simpl in *. fold b in IH |- *.
    unfold try_consume in *.
    destruct (Qgeb (tokens (refill now b)) 1) eqn:E; simpl in *.
    + apply Qgeb_true in E.
      destruct (Q.max_spec 0 (tokens (refill now b) - 1)) as [[_ H]|[_ H]];
        rewrite H in IH; pose proof (Q.le_max_r 0 (tokens (refill now b))); lra.
    + lra.
Qed.

(** C8.  At a clock that does not run backwards, [allow key amount] works
    on the key's bucket refilled to
    [min(capacity, tokens + elapsed * refill_rate)] and stamped with the
    current reading; it answers true exactly when that level is at least
    [amount], and then takes [amount] from it, and otherwise leaves the
    level as it is.  The bucket of a key not seen before starts with
    [capacity] tokens.  Of the calls of a burst, all for one key with
    amount 1 at one instant, at most [capacity] are granted. *)
Theorem allow_refills_then_consumes :
  (forall (t : Q) (rl : RateLimiter) (key : string) (amount created now : Q),
     limiter_ok t rl -> (t <= created)%Q -> (created <= now)%Q ->
     exists b' : TokenBucket,
       _buckets (snd (allow key amount created now rl)) !! key = Some b'
       /\ (last_refill b' == now)%Q
       /\ (fst (allow key amount created now rl) = true
           <-> (amount <= refilled now (bucket_for key created rl))%Q)
       /\ (tokens b' ==
             if fst (allow key amount created now rl)
             then refilled now (bucket_for key created rl) - amount
             else refilled now (bucket_for key created rl))%Q)
  /\ (forall (rl : RateLimiter) (key : string) (created : Q),
        _buckets rl !! key = None ->
        tokens (bucket_for key created rl) = rl_capacity rl
        /\ capacity (bucket_for key created rl) = rl_capacity rl)
  /\ (forall (t : Q) (rl : RateLimiter) (key : string) (now : Q) (n : nat),
        limiter_ok t rl ->
        (0 <= capacity (bucket_for key now rl))%Q ->
        (granted (fst (burst n key now rl)) <= capacity (bucket_for key now rl))%Q).
Proof.
  split; [|split].
  - intros t rl key amount created now Hok H1 H2.
    destruct (bucket_for_ok t created key rl Hok H1) as [Hb1 Hb2].
    destruct (try_consume_spec now amount (bucket_for key created rl))
      as (Hiff & Ht & Hl & _ & _); [assumption | lra |].
    exists (snd (try_consume now amount (bucket_for key created rl))).
    unfold allow. simpl. rewrite lookup_insert_eq.
    repeat split; try assumption; apply Hiff.
  - intros rl key created Hnone. unfold bucket_for. rewrite Hnone. split; reflexivity.
  - intros t rl key now n Hok Hcap.
    pose proof (burst_bound n key now rl) as Hb.
    assert (Htok : (tokens (bucket_for key now rl) <= capacity (bucket_for key now rl))%Q).
    { unfold bucket_for. destruct (_buckets rl !! key) as [b|] eqn:E; simpl.
      - apply (Hok key b E).
      - lra. }
    pose proof (refill_below_capacity now _ Htok) as Hr.
    pose proof (Q.max_lub _ _ _ Hcap Hr). lra.
Qed.

Lemma allow_refills_then_consumes_witness :
  let rl := snd (allow "recipient:a" 1 0 0 (new_limiter 2 1)) in
  (exists b' : TokenBucket,
     _buckets (snd (allow "recipient:a" 1 3 4 rl)) !! "recipient:a" = Some b'
     /\ (last_refill b' == 4)%Q
     /\ (fst (allow "recipient:a" 1 3 4 rl) = true
         <-> (1 <= refilled 4 (bucket_for "recipient:a" 3 rl))%Q)
     /\ (tokens b' ==
           if fst (allow "recipient:a" 1 3 4 rl)
           then refilled 4 (bucket_for "recipient:a" 3 rl) - 1
           else refilled 4 (bucket_for "recipient:a" 3 rl))%Q)
  /\ (granted (fst (burst 5 "recipient:a" 4 rl)) <= capacity (bucket_for "recipient:a" 4 rl))%Q
  /\ fst (burst 5 "recipient:a" 4 rl) = [true; true; false; false; false].
Proof.
  intros rl.
  destruct allow_refills_then_consumes as (H1 & _ & H3).
  assert (Hok : limiter_ok 0 rl).
  { apply (limiter_ok_allow 0 0 0 1 "recipient:a" (new_limiter 2 1));
      [apply limiter_ok_new | lra | lra | lra]. }
  split; [|split].
  - apply (H1 0%Q rl "recipient:a" 1%Q 3%Q 4%Q); [exact Hok | lra | lra].
  - apply (H3 0%Q rl "recipient:a" 4%Q 5%nat); [exact Hok | vm_compute; discriminate].
  - vm_compute. reflexivity.
Defined.

(** ** Priority queue *)

Lemma key_le_refl (a : QueueEntry) : key_le a a.
Proof. unfold key_le. lia. Qed.

Lemma key_le_trans (a b c : QueueEntry) : key_le a b -> key_le b c -> key_le a c.
Proof. unfold key_le. lia. Qed.

Lemma entry_ltb_key_le (a b : QueueEntry) : entry_ltb a b = true -> key_le a b.
Proof.
  unfold entry_ltb, key_le. intros H.
  apply orb_true_iff in H as [H|H]; [left; lia|].
  apply andb_true_iff in H as [H1 H2]. apply Z.eqb_eq in H1.
  apply orb_true_iff in H2 as [H2|H2]; [lia|].
  apply andb_true_iff in H2 as [H2 _]. lia.
Qed.

Lemma entry_ltb_false_key_le (a b : QueueEntry) : entry_ltb a b = false -> key_le b a.
Proof.
  unfold entry_ltb, key_le. intros H.
  apply orb_false_iff in H as [H1 H2]. apply Z.ltb_ge in H1.
  destruct (Z.eqb_spec (entry_rank a) (entry_rank b)) as [He|Hne]; [|lia].
  simpl in H2. apply orb_false_iff in H2 as [H2 _]. lia.
Qed.

Lemma queue_min_in (q : list QueueEntry) : forall e, queue_min e q ∈ e :: q.
Proof.
  induction q as [|x q IH]; intros e; simpl.
  - apply elem_of_cons. left. reflexivity.
  - specialize (IH (if entry_ltb x e then x else e)).
    apply elem_of_cons in IH as [IH|IH].
    + rewrite IH. destruct (entry_ltb x e).
      * apply elem_of_cons. right. apply elem_of_cons. left. reflexivity.
      * apply elem_of_cons. left. reflexivity.
    + apply elem_of_cons. right. apply elem_of_cons. right. assumption.
Qed.

Lemma queue_min_least (q : list QueueEntry) : forall e x,
  x ∈ e :: q -> key_le (queue_min e q) x.
Proof.
  induction q as [|y q IH]; intros e x Hx; simpl.
  - apply list_elem_of_singleton in Hx as ->. apply key_le_refl.
  - set (e' := if entry_ltb y e then y else e).
    assert (He : key_le e' e /\ key_le e' y).
    { subst e'. destruct (entry_ltb y e) eqn:E.
      - split; [apply entry_ltb_key_le; assumption | apply key_le_refl].
      - split; [apply key_le_refl | apply entry_ltb_false_key_le; assumption]. }
    destruct He as [He Hy].
    assert (Hm : key_le (queue_min e' q) e').
    { apply IH. apply elem_of_cons. left. reflexivity. }
    apply elem_of_cons in Hx as [->|Hx]; [eapply key_le_trans; eassumption|].
    apply elem_of_cons in Hx as [->|Hx]; [eapply key_le_trans; eassumption|].
    apply IH. apply elem_of_cons. right. assumption.
Qed.

Lemma remove_first_perm (m : QueueEntry) (q : list QueueEntry) :
  m ∈ q -> q ≡ₚ m :: remove_first m q.
Proof.
  induction q as [|x q IH]; intros Hm; simpl.
  - apply elem_of_nil in Hm. contradiction.
  - destruct (decide (x = m)) as [->|Hne]; [reflexivity|].
    apply elem_of_cons in Hm as [->|Hm]; [congruence|].
    rewrite (IH Hm) at 1. apply Permutation_swap.
Qed.

Lemma queue_get_spec (q : list QueueEntry) (m : QueueEntry) (q' : list QueueEntry) :
  queue_get q = Some (m, q') ->
  q ≡ₚ m :: q' /\ (forall x, x ∈ q -> key_le m x).
Proof.
  destruct q as [|x q]; simpl; [discriminate|]. intros [= <- <-].
  split.
  - apply (remove_first_perm (queue_min x q) (x :: q)). apply queue_min_in.
  - intros y Hy. apply queue_min_least. assumption.
Qed.

Lemma drain_n_spec (n : nat) : forall q : list QueueEntry,
  length q = n ->
  drain_n n q ≡ₚ q /\ StronglySorted key_le (drain_n n q).
Proof.
  induction n as [|n IH]; intros q Hlen.
  - destruct q; [|discriminate]. simpl. split; [reflexivity | constructor].
  - destruct q as [|x q]; [discriminate|].
    destruct (queue_get (x :: q)) as [[m q']|] eqn:E; [|discriminate].
    cbn [drain_n].
    rewrite E.
    destruct (queue_get_spec _ _ _ E) as [Hperm Hleast].
    assert (Hlen' : length q' = n).
    { apply Permutation_length in Hperm. simpl in *. lia. }
    destruct (IH q' Hlen') as [IHp IHs].
    split.
    + rewrite IHp. symmetry. assumption.
    + constructor; [assumption|].
      apply Forall_forall. intros y Hy. apply Hleast.
      rewrite Hperm. apply elem_of_cons. right. rewrite <- IHp. assumption.
Qed.

Lemma sorted_order_of_positions (l : list QueueEntry) :
  StronglySorted key_le l ->
  forall (i j : nat) (a b : QueueEntry),
    l !! i = Some a -> l !! j = Some b -> key_lt a b -> (i < j)%nat.
Proof.
  induction 1 as [|x l Hs IH Hall]; intros i j a b Hi Hj Hlt.
  - rewrite lookup_nil in Hi. discriminate.
  - destruct i as [|i], j as [|j]; simpl in *.
    + injection Hi as ->. injection Hj as ->. unfold key_lt in Hlt. lia.
    + lia.
    + injection Hj as ->.
      assert (Ha : a ∈ l) by (eapply list_elem_of_lookup_2; eassumption).
      rewrite Forall_forall in Hall. specialize (Hall a Ha).
      unfold key_le, key_lt in *. lia.
    + specialize (IH i j a b Hi Hj Hlt). lia.
Qed.

(** *** The full order of the tuples *)

Lemma ascii_compare_lt_trans (a b c : ascii) :
  Ascii.compare a b = Lt -> Ascii.compare b c = Lt -> Ascii.compare a c = Lt.
Proof.
  unfold Ascii.compare. rewrite !N.compare_lt_iff. apply N.lt_trans.
Qed.

Lemma string_compare_lt_trans (s1 : string) : forall s2 s3 : string,
  String.compare s1 s2 = Lt -> String.compare s2 s3 = Lt -> String.compare s1 s3 = Lt.
Proof.
  induction s1 as [|c1 s1 IH]; intros [|c2 s2] [|c3 s3]; simpl; try discriminate;
    try reflexivity.
  destruct (Ascii.compare c1 c2) eqn:E12; try discriminate;
    destruct (Ascii.compare c2 c3) eqn:E23; try discriminate; intros H12 H23.
  - apply Ascii.compare_eq_iff in E12, E23. subst.
    assert (Hrefl : Ascii.compare c3 c3 = Eq)
      by (unfold Ascii.compare; apply N.compare_refl).
    rewrite Hrefl. eapply IH; eassumption.
  - apply Ascii.compare_eq_iff in E12. subst. rewrite E23. reflexivity.
  - apply Ascii.compare_eq_iff in E23. subst. rewrite E12. reflexivity.
  - rewrite (ascii_compare_lt_trans _ _ _ E12 E23). reflexivity.
Qed.

Lemma string_ltb_trans (s1 s2 s3 : string) :
  String.ltb s1 s2 = true -> String.ltb s2 s3 = true -> String.ltb s1 s3 = true.
Proof.
  unfold String.ltb.
  destruct (String.compare s1 s2) eqn:E12; try discriminate.
  destruct (String.compare s2 s3) eqn:E23; try discriminate.
  rewrite (string_compare_lt_trans _ _ _ E12 E23). reflexivity.
Qed.

Lemma string_ltb_total (s1 s2 : string) :
  String.ltb s1 s2 = false -> String.ltb s2 s1 = false -> s1 = s2.
Proof.
  unfold String.ltb. rewrite (String.compare_antisym s2 s1).
  destruct (String.compare s1 s2) eqn:E; simpl; try discriminate.
  intros _ _. apply String.compare_eq_iff. exact E.
Qed.

(** The strict order of the tuples, as a proposition. *)
Lemma entry_ltb_true (a b : QueueEntry) :
  entry_ltb a b = true <->
  (entry_rank a < entry_rank b
   \/ (entry_rank a = entry_rank b
       /\ (entry_seq a < entry_seq b
           \/ (entry_seq a = entry_seq b
               /\ String.ltb (entry_tid a) (entry_tid b) = true))))%Z.
Proof.
  unfold entry_ltb.
  rewrite orb_true_iff, andb_true_iff, orb_true_iff, andb_true_iff.
  rewrite !Z.ltb_lt, !Z.eqb_eq. reflexivity.
Qed.

Lemma entry_le_refl (a : QueueEntry) : entry_le a a.
Proof.
  unfold entry_le. destruct (entry_ltb a a) eqn:E; [|reflexivity].
  apply entry_ltb_true in E.
  destruct E as [E|[_ [E|[_ E]]]]; try lia.
  unfold String.ltb in E.
  assert (Hrefl : String.compare (entry_tid a) (entry_tid a) = Eq).
  { destruct (String.compare (entry_tid a) (entry_tid a)) eqn:C; [reflexivity| |];
      pose proof (String.compare_antisym (entry_tid a) (entry_tid a)) as Ha;
      rewrite C in Ha; discriminate Ha. }
  rewrite Hrefl in E. discriminate E.
Qed.

Lemma entry_le_trans (a b c : QueueEntry) : entry_le a b -> entry_le b c -> entry_le a c.
Proof.
  unfold entry_le. intros Hab Hbc.
  destruct (entry_ltb c a) eqn:Hca; [|reflexivity]. exfalso.
  apply entry_ltb_true in Hca.
  apply not_true_iff_false in Hab, Hbc. rewrite entry_ltb_true in Hab, Hbc.
  destruct (String.ltb (entry_tid c) (entry_tid b)) eqn:Scb;
    destruct (String.ltb (entry_tid b) (entry_tid a)) eqn:Sba;
    destruct (String.ltb (entry_tid c) (entry_tid a)) eqn:Sca;
    try (apply Hab; lia); try (apply Hbc; lia); try lia.
  - destruct (String.ltb (entry_tid b) (entry_tid c)) eqn:Sbc.
    + pose proof (string_ltb_trans _ _ _ Sbc Sca) as Hba. rewrite Sba in Hba.
      discriminate Hba.
    + pose proof (string_ltb_total _ _ Scb Sbc) as Heq. rewrite Heq, Sba in Sca.
      discriminate Sca.
Qed.

Lemma entry_ltb_le (a b : QueueEntry) : entry_ltb a b = true -> entry_le a b.
Proof.
  intros Hab. unfold entry_le.
  destruct (entry_ltb b a) eqn:Hba; [|reflexivity]. exfalso.
  apply entry_ltb_true in Hab, Hba.
  destruct (String.ltb (entry_tid a) (entry_tid b)) eqn:S1;
    destruct (String.ltb (entry_tid b) (entry_tid a)) eqn:S2; try lia.
  pose proof (string_ltb_trans _ _ _ S1 S2) as Haa.
  pose proof (entry_le_refl a) as Hr. unfold entry_le in Hr.
  apply not_true_iff_false in Hr. apply Hr. apply entry_ltb_true.
  right. split; [reflexivity|]. right. split; [reflexivity | exact Haa].
Qed.

Lemma queue_min_least_lex (q : list QueueEntry) : forall e x,
  x ∈ e :: q -> entry_le (queue_min e q) x.
Proof.
  induction q as [|y q IH]; intros e x Hx; simpl.
  - apply list_elem_of_singleton in Hx as ->. apply entry_le_refl.
  - set (e' := if entry_ltb y e then y else e).
    assert (He : entry_le e' e /\ entry_le e' y).
    { subst e'. destruct (entry_ltb y e) eqn:E.
      - split; [apply entry_ltb_le; assumption | apply entry_le_refl].
      - split; [apply entry_le_refl | exact E]. }
    destruct He as [He Hy].
    assert (Hm : entry_le (queue_min e' q) e').
    { apply IH. apply elem_of_cons. left. reflexivity. }
    apply elem_of_cons in Hx as [->|Hx]; [eapply entry_le_trans; eassumption|].
    apply elem_of_cons in Hx as [->|Hx]; [eapply entry_le_trans; eassumption|].
    apply IH. apply elem_of_cons. right. assumption.
Qed.

Lemma drain_n_sorted_lex (n : nat) : forall q : list QueueEntry,
  length q = n -> StronglySorted entry_le (drain_n n q).
Proof.
  induction n as [|n IH]; intros q Hlen.
  - destruct q; [|discriminate]. constructor.
  - destruct q as [|x q]; [discriminate|].
    pose proof (drain_n_spec n (remove_first (queue_min x q) (x :: q))) as Hspec.
    pose proof (remove_first_perm (queue_min x q) (x :: q) (queue_min_in q x)) as Hperm.
    assert (Hlen' : length (remove_first (queue_min x q) (x :: q)) = n).
    { apply Permutation_length in Hperm. simpl in *. lia. }
    cbn [drain_n queue_get].
    constructor; [apply IH; exact Hlen'|].
    apply Forall_forall. intros y Hy. apply queue_min_least_lex.
    rewrite Hperm. apply elem_of_cons. right.
    destruct (Hspec Hlen') as [Hp _]. rewrite <- Hp. exact Hy.
Qed.

(** C6.  The rank of a priority is 0 for critical, 1 for high, 2 for
    normal and 3 for low.  Admission appends the entry
    [(rank, sequence, tracking_id)] with the next value of the sequence
    counter.  Repeated dequeueing hands out every entry of the queue, and
    in ascending order of the tuples: whenever one entry has a lower rank
    than another, or the same rank and a smaller sequence, it is handed
    out first.  After a low-priority and
    then a high-priority admission to an empty queue, the high-priority
    entry is dequeued first. *)
Theorem queue_dequeues_by_rank_then_sequence :
  (_priority_value "critical" = 0 /\ _priority_value "high" = 1
   /\ _priority_value "normal" = 2 /\ _priority_value "low" = 3)%Z
  /\ (forall (tid p : string) (w : World),
        _ready_queue (_enqueue_ready tid p w)
          = _ready_queue w ++ [(_priority_value p, (_seq_counter w + 1)%Z, tid)]
        /\ _seq_counter (_enqueue_ready tid p w) = (_seq_counter w + 1)%Z)
  /\ (forall q : list QueueEntry, drain q ≡ₚ q /\ StronglySorted entry_le (drain q))
  /\ (forall (q : list QueueEntry) (i j : nat) (a b : QueueEntry),
        drain q !! i = Some a -> drain q !! j = Some b ->
        (entry_rank a < entry_rank b
         \/ (entry_rank a = entry_rank b /\ entry_seq a < entry_seq b))%Z ->
        (i < j)%nat)
  /\ (forall (w : World) (low_id high_id : string),
        _ready_queue w = [] ->
        queue_get (_ready_queue (_enqueue_ready high_id "high" (_enqueue_ready low_id "low" w)))
          = Some ((1, _seq_counter w + 1 + 1, high_id), [(3, _seq_counter w + 1, low_id)])%Z).
Proof.
  split; [|split; [|split; [|split]]].
  - repeat split; reflexivity.
  - intros tid p w. split; reflexivity.
  - intros q. split.
    + apply (drain_n_spec (length q) q). reflexivity.
    + apply drain_n_sorted_lex. reflexivity.
  - intros q i j a b Hi Hj Hlt.
    apply (sorted_order_of_positions (drain q)) with (a := a) (b := b);
      [apply (drain_n_spec (length q) q); reflexivity | assumption | assumption | exact Hlt].
  - intros w low_id high_id Hq. unfold _enqueue_ready. simpl. rewrite Hq. simpl.
    change (_priority_value "high") with 1%Z. change (_priority_value "low") with 3%Z.
    unfold queue_get, queue_min, entry_ltb, entry_rank. simpl.
    rewrite decide_True by reflexivity. reflexivity.
Qed.

Lemma queue_dequeues_by_rank_then_sequence_witness :
  let q := [(3, 1, "a"); (1, 2, "b"); (1, 3, "c"); (0, 4, "d")]%Z in
  drain q ≡ₚ q
  /\ (drain q !! 1%nat = Some (1, 2, "b")%Z -> drain q !! 3%nat = Some (3, 1, "a")%Z ->
      (1 < 3)%nat)
  /\ drain q = [(0, 4, "d"); (1, 2, "b"); (1, 3, "c"); (3, 1, "a")]%Z
  /\ queue_get (_ready_queue (_enqueue_ready "h" "high"
                   (_enqueue_ready "l" "low" (initial_world None 60))))
     = Some ((1, 0 + 1 + 1, "h"), [(3, 0 + 1, "l")])%Z.
Proof.
  intros q.
  destruct queue_dequeues_by_rank_then_sequence as (_ & _ & H3 & H4 & H5).
  split; [|split; [|split]].
  - apply (H3 q).
  - intros Hb Ha.
    apply (H4 q 1%nat 3%nat (1, 2, "b")%Z (3, 1, "a")%Z Hb Ha). left. vm_compute. reflexivity.
  - vm_compute. reflexivity.
  - apply (H5 (initial_world None 60) "l" "h"). reflexivity.
Defined.

(** ** Worker *)

(** C7.  When a worker pops an entry and the breaker of the recipient
    refuses, the worker appends a failed attempt with error
    ["circuit_open"] and latency 0, marks the notification failed, puts
    nothing back on the queue, starts no retry timer, and does not call
    the adapter: the outcome is the same whatever the adapter would do. *)
Theorem circuit_open_fast_fail
    (env : step_env) (w : World) (e : QueueEntry) (q' : list QueueEntry)
    (notif : NotificationORM) (req : NotificationRequest) :
  queue_get (_ready_queue w) = Some (e, q') ->
  notifications w !! entry_tid e = Some notif ->
  _reconstruct_request_from_notif notif = Some req ->
  fst (allow_request (t_allow env) (_get_or_create_cb (req_recipient req) w)) = false ->
  delivery_attempts (_worker_loop_turn env w)
    = delivery_attempts w
        ++ [failed_row (entry_tid e) (attempts notif + 1) 0 "circuit_open" (utcnow env)]
  /\ _ready_queue (_worker_loop_turn env w) = q'
  /\ _seq_counter (_worker_loop_turn env w) = _seq_counter w
  /\ pending_requeues (_worker_loop_turn env w) = pending_requeues w
  /\ (exists notif', notifications (_worker_loop_turn env w) !! entry_tid e = Some notif'
        /\ status notif' = "failed" /\ failure_reason notif' = Some "circuit_open")
  /\ (forall d : send_result,
        _worker_loop_turn (set_dispatch d env) w = _worker_loop_turn env w).
Proof.
  intros Hget Hn Hreq Hcb.
  assert (Hturn : forall env', t_allow env' = t_allow env -> utcnow env' = utcnow env ->
            _worker_loop_turn env' w =
            record_delivery_attempt (utcnow env) (entry_tid e) (attempts notif + 1) "failed" 0
              (Some "circuit_open") None
              (set_circuit_breakers
                 (<[req_recipient req :=
                      snd (allow_request (t_allow env) (_get_or_create_cb (req_recipient req) w))]>
                    (_circuit_breakers w))
                 (set_queue q' (_seq_counter w) w))).
  { intros env' Ht Hu. unfold _worker_loop_turn. rewrite Hget.
    unfold _process_tracking_id. simpl. rewrite Hn, Hreq. rewrite Ht, Hu.
    change (_get_or_create_cb (req_recipient req) (set_queue q' (_seq_counter w) w))
      with (_get_or_create_cb (req_recipient req) w).
    rewrite Hcb. reflexivity. }
  rewrite (Hturn env eq_refl eq_refl).
  unfold record_delivery_attempt. simpl. rewrite Hn. simpl.
  repeat split.
  - rewrite lookup_insert_eq. eexists. split; [reflexivity|].
    unfold update_parent. simpl. split; reflexivity.
  - intros d. rewrite (Hturn (set_dispatch d env) eq_refl eq_refl).
    unfold record_delivery_attempt. simpl. rewrite Hn. reflexivity.
Qed.

Lemma circuit_open_fast_fail_witness :
  let env := sample_env 10 (Sent {| provider := "http"; status_code := Some 200%Z;
                                    latency_ms := 5 |}) in
  let w := tripped_world "critical" in
  delivery_attempts (_worker_loop_turn env w)
    = [failed_row "n1" 1 0 "circuit_open" 10000000]
  /\ _ready_queue (_worker_loop_turn env w) = []
  /\ pending_requeues (_worker_loop_turn env w) = [].
Proof.
  intros env w.
  destruct (circuit_open_fast_fail env w (0, 1, "n1")%Z [] (sample_row "critical")
              (sample_request "critical"))
    as (H1 & H2 & _ & H4 & _).
  - vm_compute. reflexivity.
  - vm_compute. reflexivity.
  - vm_compute. reflexivity.
  - vm_compute. reflexivity.
  - split; [exact H1 | split; [exact H2 | exact H4]].
Defined.

(** *** One failed dispatch *)

Lemma consult_rate_limiter_frame (env : step_env) (req : NotificationRequest) (w : World) :
  notifications (snd (consult_rate_limiter env req w)) = notifications w
  /\ delivery_attempts (snd (consult_rate_limiter env req w)) = delivery_attempts w
  /\ _ready_queue (snd (consult_rate_limiter env req w)) = _ready_queue w
  /\ _seq_counter (snd (consult_rate_limiter env req w)) = _seq_counter w
  /\ _circuit_breakers (snd (consult_rate_limiter env req w)) = _circuit_breakers w
  /\ pending_requeues (snd (consult_rate_limiter env req w)) = pending_requeues w.
Proof.
  unfold consult_rate_limiter. destruct (_rate_limiter w); simpl; repeat split; reflexivity.
Qed.

(** The effect of [handle_failure], field by field. *)
Lemma handle_failure_fields
    (env : step_env) (tid : string) (notif : NotificationORM) (req : NotificationRequest)
    (plan : RetryPlan) (cb : CircuitBreaker) (number : Z) (msg : string) (retry : bool)
    (w : World) :
  notifications w !! tid = Some notif ->
  let w' := handle_failure env tid req plan cb number msg retry w in
  delivery_attempts w'
    = delivery_attempts w ++ [failed_row tid number (latency env) msg (utcnow env)]
  /\ _circuit_breakers w'
     = <[req_recipient req := on_failure (t_failure env) cb]> (_circuit_breakers w)
  /\ _ready_queue w' = _ready_queue w
  /\ _seq_counter w' = _seq_counter w
  /\ pending_requeues w'
     = pending_requeues w
         ++ (if retry && (number <? max_attempts plan)%Z
             then [(tid, req_priority req, next_delay plan (jitter_draw env) (number + 1))]
             else [])
  /\ notifications w'
     = <[tid := update_parent notif number "failed" (Some msg) (utcnow env)]> (notifications w).
Proof.
  intros Hn w'. subst w'. unfold handle_failure, record_delivery_attempt. simpl.
  rewrite Hn.
  destruct (retry && (number <? max_attempts plan)%Z); simpl;
    rewrite ?app_nil_r; repeat split; reflexivity.
Qed.

(** What a worker turn does when the adapter is reached and fails with
    message [msg]; [retry] tells whether the failure is retryable. *)
Lemma worker_turn_failure
    (env : step_env) (w : World) (e : QueueEntry) (q' : list QueueEntry)
    (notif : NotificationORM) (req : NotificationRequest) (msg : string) (retry : bool) :
  queue_get (_ready_queue w) = Some (e, q') ->
  notifications w !! entry_tid e = Some notif ->
  _reconstruct_request_from_notif notif = Some req ->
  reaches_dispatch env (entry_tid e) w = true ->
  (dispatch env = PermanentChannelError msg /\ retry = false
   \/ transient_message (dispatch env) = Some msg /\ retry = true) ->
  let number := (attempts notif + 1)%Z in
  let plan := get_retry_plan (req_priority req) in
  let w' := _worker_loop_turn env w in
  delivery_attempts w'
    = delivery_attempts w ++ [failed_row (entry_tid e) number (latency env) msg (utcnow env)]
  /\ _circuit_breakers w' !! req_recipient req
     = Some (on_failure (t_failure env)
               (snd (allow_request (t_allow env) (_get_or_create_cb (req_recipient req) w))))
  /\ _ready_queue w' = q'
  /\ _seq_counter w' = _seq_counter w
  /\ pending_requeues w'
     = pending_requeues w
         ++ (if retry && (number <? max_attempts plan)%Z
             then [(entry_tid e, req_priority req,
                    next_delay plan (jitter_draw env) (number + 1))]
             else [])
  /\ notifications w'
     = <[entry_tid e :=
           update_parent (set_status "sending" notif) number "failed" (Some msg) (utcnow env)]>
         (notifications w).
Proof.
  intros Hget Hn Hreq Hreach Hd number plan w'.
  unfold reaches_dispatch in Hreach. rewrite Hn, Hreq in Hreach.
  apply andb_true_iff in Hreach as [Hcb Hrl].
  subst w'. unfold _worker_loop_turn. rewrite Hget.
  unfold _process_tracking_id. simpl notifications. rewrite Hn, Hreq.
  change (_get_or_create_cb (req_recipient req) (set_queue q' (_seq_counter w) w))
    with (_get_or_create_cb (req_recipient req) w).
  rewrite Hcb. cbn [negb].
  set (cb := snd (allow_request (t_allow env) (_get_or_create_cb (req_recipient req) w))).
  set (w1 := set_circuit_breakers _ _).
  assert (Hadm : fst (consult_rate_limiter env req w1) = true).
  { unfold consult_rate_limiter. subst w1. simpl.
    destruct (_rate_limiter w); simpl; [assumption | reflexivity]. }
  rewrite Hadm. cbn [negb fst].
  destruct (consult_rate_limiter_frame env req w1) as (F1 & F2 & F3 & F4 & F5 & F6).
  set (w2 := snd (consult_rate_limiter env req w1)) in *.
  unfold attempt_send.
  set (w3 := set_notifications _ w2).
  assert (Hn3 : notifications w3 !! entry_tid e = Some (set_status "sending" notif)).
  { subst w3. simpl. apply lookup_insert_eq. }
  assert (Hgoal : forall retry' msg',
            retry' = retry -> msg' = msg ->
            let w4 := handle_failure env (entry_tid e) req
                        (get_retry_plan (req_priority req)) cb
                        (attempts notif + 1) msg' retry' w3 in
            delivery_attempts w4
              = delivery_attempts w
                  ++ [failed_row (entry_tid e) number (latency env) msg (utcnow env)]
            /\ _circuit_breakers w4 !! req_recipient req = Some (on_failure (t_failure env) cb)
            /\ _ready_queue w4 = q'
            /\ _seq_counter w4 = _seq_counter w
            /\ pending_requeues w4
               = pending_requeues w
                   ++ (if retry && (number <? max_attempts plan)%Z
                       then [(entry_tid e, req_priority req,
                              next_delay plan (jitter_draw env) (number + 1))]
                       else [])
            /\ notifications w4
               = <[entry_tid e :=
                     update_parent (set_status "sending" notif) number "failed"
                       (Some msg) (utcnow env)]>
                   (notifications w)).
  { intros retry' msg' -> ->.
    destruct (handle_failure_fields env (entry_tid e) (set_status "sending" notif) req
                (get_retry_plan (req_priority req)) cb (attempts notif + 1) msg retry w3 Hn3)
      as (G1 & G2 & G3 & G4 & G5 & G6).
    cbv zeta. rewrite G1, G2, G3, G4, G5, G6. subst w3. simpl.
    rewrite F1, F2, F3, F4, F6. subst w1. simpl.
    rewrite lookup_insert_eq, insert_insert_eq. repeat split; reflexivity. }
  destruct Hd as [[Hd ->]|[Hd ->]].
  - rewrite Hd. simpl. apply Hgoal; reflexivity.
  - destruct (dispatch env) as [m|m|m|m]; simpl in Hd; try discriminate;
      injection Hd as <-; simpl; apply Hgoal; reflexivity.
Qed.

(** *** Runs of one notification *)

Lemma update_parent_failed (notif : NotificationORM) (number : Z) (err : option string) (t : Z) :
  update_parent notif number "failed" err t =
    {| tracking_id := tracking_id notif;
       channel := channel notif;
       recipient := recipient notif;
       content := content notif;
       status := "failed";
       priority := priority notif;
       attempts := Z.max (attempts notif) number;
       created_at := created_at notif;
       delivered_at := delivered_at notif;
       last_attempt_at := Some t;
       failure_reason := err |}.
Proof. reflexivity. Qed.














(** ** Delivery store *)

Lemma record_delivery_attempt_fields
    (now : Z) (tid : string) (number : Z) (st : string) (latency_ms : Q)
    (error : option string) (code : option Z) (w : World) (notif : NotificationORM) :
  notifications w !! tid = Some notif ->
  let w' := record_delivery_attempt now tid number st latency_ms error code w in
  delivery_attempts w'
    = delivery_attempts w ++ [attempt_row tid number st latency_ms error code now]
  /\ notifications w' = <[tid := update_parent notif number st error now]> (notifications w)
  /\ _ready_queue w' = _ready_queue w
  /\ _seq_counter w' = _seq_counter w
  /\ _circuit_breakers w' = _circuit_breakers w
  /\ _rate_limiter w' = _rate_limiter w
  /\ pending_requeues w' = pending_requeues w.
Proof.
  intros Hn w'. subst w'. unfold record_delivery_attempt. rewrite Hn. simpl.
  repeat split; reflexivity.
Qed.

Lemma update_parent_fields (notif : NotificationORM) (number : Z) (st : string)
    (error : option string) (t : Z) :
  attempts (update_parent notif number st error t) = Z.max (attempts notif) number
  /\ last_attempt_at (update_parent notif number st error t) = Some t
  /\ (st = "delivered" ->
      status (update_parent notif number st error t) = "delivered"
      /\ delivered_at (update_parent notif number st error t) = Some t
      /\ failure_reason (update_parent notif number st error t) = None)
  /\ (st = "failed" \/ st = "bounced" ->
      status (update_parent notif number st error t) = st
      /\ failure_reason (update_parent notif number st error t) = error
      /\ delivered_at (update_parent notif number st error t) = delivered_at notif)
  /\ (st <> "delivered" ->
      delivered_at (update_parent notif number st error t) = delivered_at notif).
Proof.
  unfold update_parent.
  destruct (decide (st = "delivered")) as [->|Hnd].
  - simpl. split; [reflexivity|]. split; [reflexivity|].
    split; [intros _; repeat split; reflexivity|].
    split; [intros [Hf|Hf]; discriminate Hf | congruence].
  - destruct (bool_decide (st ∈ ["failed"; "bounced"])) eqn:E; simpl.
    + split; [reflexivity|]. split; [reflexivity|].
      split; [congruence|].
      split; [intros _; repeat split; reflexivity | reflexivity].
    + apply bool_decide_eq_false in E.
      split; [reflexivity|]. split; [reflexivity|].
      split; [congruence|].
      split; [|reflexivity].
      intros Hf. exfalso. apply E.
      destruct Hf as [->| ->]; [apply elem_of_cons; left; reflexivity|].
      apply elem_of_cons; right. apply elem_of_cons; left. reflexivity.
Qed.

(** ** The states the pipeline reaches *)

(** Closes the routine side conditions on added tokens. *)
Ltac tokens_side :=
  first [ assumption
        | reflexivity
        | solve [repeat constructor]
        | solve [simpl; lia]
        | solve [rewrite ?update_parent_failed in *; simpl in *; congruence] ].

(** What processing [tid] can change: only the row of [tid]; the queue
    and the timers gain at most one token, for [tid]; and [delivered_at]
    becomes set only together with the status delivered, and then no token
    is added. *)
Lemma process_shape (env : step_env) (tid : string) (w : World) :
  let w' := fst (_process_tracking_id env tid w) in
  (forall t, t <> tid -> notifications w' !! t = notifications w !! t)
  /\ (notifications w !! tid = None -> w' = w)
  /\ (forall n, notifications w !! tid = Some n ->
        exists n' qadd padd,
          notifications w' !! tid = Some n'
          /\ _ready_queue w' = _ready_queue w ++ qadd
          /\ pending_requeues w' = pending_requeues w ++ padd
          /\ Forall (λ e, entry_tid e = tid) qadd
          /\ Forall (λ r : Requeue, r.1.1 = tid) padd
          /\ (length qadd + length padd <= 1)%nat
          /\ (delivered_at n = None -> delivered_at n' <> None ->
              status n' = "delivered" /\ qadd = [] /\ padd = [])).
Proof.
  cbv zeta. unfold _process_tracking_id.
  destruct (notifications w !! tid) as [notif|] eqn:Hn.
  2:{ simpl. split; [reflexivity|]. split; [reflexivity | discriminate]. }
  split; [|split; [discriminate|]].
  - (* the other rows *)
    intros t Ht.
    destruct (_reconstruct_request_from_notif notif) as [req|]; [|reflexivity].
    destruct (fst (allow_request _ _)); cbn [negb].
    + unfold consult_rate_limiter. cbn [_rate_limiter set_circuit_breakers].
      destruct (_rate_limiter w) as [rl|]; cbn [fst snd].
      * destruct (fst (allow _ _ _ _ rl)); cbn [negb fst]; [|reflexivity].
        unfold attempt_send, handle_failure, record_delivery_attempt.
        destruct (dispatch env); simpl; rewrite ?lookup_insert_eq;
          repeat match goal with |- context [if ?c then _ else _] => destruct c end;
          simpl; rewrite ?lookup_insert_ne by congruence; reflexivity.
      * unfold attempt_send, handle_failure, record_delivery_attempt.
        destruct (dispatch env); simpl; rewrite ?lookup_insert_eq;
          repeat match goal with |- context [if ?c then _ else _] => destruct c end;
          simpl; rewrite ?lookup_insert_ne by congruence; reflexivity.
    + unfold record_delivery_attempt. simpl. rewrite Hn. simpl.
      rewrite lookup_insert_ne by congruence. reflexivity.
  - (* the row of [tid], the queue and the timers *)
    intros n [= <-].
    destruct (_reconstruct_request_from_notif notif) as [req|].
    2:{ exists notif, [], []. simpl. rewrite !app_nil_r.
        repeat split; tokens_side. }
    destruct (fst (allow_request _ _)); cbn [negb].
    2:{ unfold record_delivery_attempt. simpl. rewrite Hn. simpl.
        eexists _, [], []. rewrite lookup_insert_eq, !app_nil_r.
        split; [reflexivity|]. repeat split; tokens_side. }
    assert (Hsend : forall w2 : World,
              notifications w2 = notifications w ->
              _ready_queue w2 = _ready_queue w ->
              pending_requeues w2 = pending_requeues w ->
              exists n' qadd padd,
                notifications
                  (attempt_send env tid notif req (get_retry_plan (req_priority req))
                     (snd (allow_request (t_allow env)
                             (_get_or_create_cb (req_recipient req) w))) w2) !! tid = Some n'
                /\ _ready_queue
                     (attempt_send env tid notif req (get_retry_plan (req_priority req))
                        (snd (allow_request (t_allow env)
                                (_get_or_create_cb (req_recipient req) w))) w2)
                   = _ready_queue w ++ qadd
                /\ pending_requeues
                     (attempt_send env tid notif req (get_retry_plan (req_priority req))
                        (snd (allow_request (t_allow env)
                                (_get_or_create_cb (req_recipient req) w))) w2)
                   = pending_requeues w ++ padd
                /\ Forall (λ e, entry_tid e = tid) qadd
                /\ Forall (λ r : Requeue, r.1.1 = tid) padd
                /\ (length qadd + length padd <= 1)%nat
                /\ (delivered_at notif = None -> delivered_at n' <> None ->
                    status n' = "delivered" /\ qadd = [] /\ padd = [])).
    { intros w2 H1 H2 H3.
      unfold attempt_send, handle_failure, record_delivery_attempt.
      destruct (dispatch env) as [m|msg|msg|msg]; simpl; rewrite ?lookup_insert_eq.
      - eexists _, [], []. simpl. rewrite lookup_insert_eq, H2, H3, !app_nil_r.
        split; [reflexivity|]. repeat split; tokens_side.
      - eexists _, [], []. simpl. rewrite lookup_insert_eq, H2, H3, !app_nil_r.
        split; [reflexivity|]. repeat split; tokens_side.
      - destruct (attempts notif + 1 <? _)%Z; simpl.
        + eexists _, [], [_]. simpl. rewrite lookup_insert_eq, H2, H3, !app_nil_r.
          split; [reflexivity|]. repeat split; tokens_side.
        + eexists _, [], []. simpl. rewrite lookup_insert_eq, H2, H3, !app_nil_r.
          split; [reflexivity|]. repeat split; tokens_side.
      - destruct (attempts notif + 1 <? _)%Z; simpl.
        + eexists _, [], [_]. simpl. rewrite lookup_insert_eq, H2, H3, !app_nil_r.
          split; [reflexivity|]. repeat split; tokens_side.
        + eexists _, [], []. simpl. rewrite lookup_insert_eq, H2, H3, !app_nil_r.
          split; [reflexivity|]. repeat split; tokens_side. }
    unfold consult_rate_limiter. cbn [_rate_limiter set_circuit_breakers].
    destruct (_rate_limiter w) as [rl|]; cbn [fst snd].
    + destruct (fst (allow _ _ _ _ rl)); cbn [negb fst].
      * apply Hsend; reflexivity.
      * exists notif, [(_priority_value (req_priority req), (_seq_counter w + 1)%Z, tid)], [].
        simpl. rewrite Hn, app_nil_r.
        repeat split; tokens_side.
    + apply Hsend; reflexivity.
Qed.

Lemma tokens_for_added (tid t : string) (w w' : World) (qadd : list QueueEntry)
    (padd : list Requeue) :
  _ready_queue w' = _ready_queue w ++ qadd ->
  pending_requeues w' = pending_requeues w ++ padd ->
  Forall (λ e, entry_tid e = tid) qadd ->
  Forall (λ r : Requeue, r.1.1 = tid) padd ->
  tokens_for t w'
    = (tokens_for t w + if decide (t = tid) then length qadd + length padd else 0)%nat.
Proof.
  intros Hq Hp Fq Fp. unfold tokens_for. rewrite Hq, Hp, !filter_app, !length_app.
  clear Hq Hp.
  destruct (decide (t = tid)) as [->|Hne].
  - match goal with |- context [@filter ?A ?B ?F ?P ?D qadd] =>
      assert (H1 : @filter A B F P D qadd = qadd)
    end.
    { induction Fq as [|x l Hx _ IH]; [reflexivity|].
      rewrite filter_cons_True by exact Hx. f_equal. exact IH. }
    match goal with |- context [@filter ?A ?B ?F ?P ?D padd] =>
      assert (H2 : @filter A B F P D padd = padd)
    end.
    { induction Fp as [|x l Hx _ IH]; [reflexivity|].
      rewrite filter_cons_True by exact Hx. f_equal. exact IH. }
    rewrite H1, H2. unfold Requeue, QueueEntry in *. lia.
  - match goal with |- context [@filter ?A ?B ?F ?P ?D qadd] =>
      assert (H1 : @filter A B F P D qadd = [])
    end.
    { induction Fq as [|x l Hx _ IH]; [reflexivity|].
      rewrite filter_cons_False by congruence. exact IH. }
    match goal with |- context [@filter ?A ?B ?F ?P ?D padd] =>
      assert (H2 : @filter A B F P D padd = [])
    end.
    { induction Fp as [|x l Hx _ IH]; [reflexivity|].
      rewrite filter_cons_False by congruence. exact IH. }
    rewrite H1, H2. unfold Requeue, QueueEntry in *. simpl. lia.
Qed.

Lemma tokens_for_popped (t : string) (w : World) (e : QueueEntry) (q' : list QueueEntry) :
  queue_get (_ready_queue w) = Some (e, q') ->
  tokens_for t w
    = (tokens_for t (set_queue q' (_seq_counter w) w)
       + if decide (entry_tid e = t) then 1 else 0)%nat.
Proof.
  intros Hget. apply queue_get_spec in Hget as [Hperm _].
  unfold tokens_for. simpl. rewrite Hperm.
  destruct (decide (entry_tid e = t)) as [He|He].
  - rewrite filter_cons_True by exact He. simpl. lia.
  - rewrite filter_cons_False by exact He. lia.
Qed.

Lemma settled_start (limiter : option RateLimiter) (cooldown : Q) (t : string) :
  settled t (initial_world limiter cooldown).
Proof.
  unfold settled, tokens_for. simpl. split; [lia|]. split; [|reflexivity].
  intros notif H. rewrite lookup_empty in H. discriminate.
Qed.

Lemma settled_restart (limiter : option RateLimiter) (cooldown : Q) (w : World) (t : string) :
  settled t w -> settled t (restart limiter cooldown w).
Proof.
  intros (_ & H2 & _). unfold settled, tokens_for. simpl.
  split; [lia|]. split; [|reflexivity].
  intros notif Hn Hd. split; [apply (H2 notif Hn Hd) | reflexivity].
Qed.

Lemma settled_enqueue (w : World) (new_id : string) (now : Z) (req : NotificationRequest) :
  (forall t, settled t w) ->
  forall t, settled t (fst (enqueue_notification new_id now req w)).
Proof.
  intros Hall t. unfold enqueue_notification.
  destruct (notifications w !! new_id) eqn:Hnew; [apply Hall|].
  cbn [fst].
  set (w1 := set_notifications _ w).
  pose proof (tokens_for_added new_id t w1 (_enqueue_ready new_id (req_priority req) w1)
                [(_priority_value (req_priority req), (_seq_counter w1 + 1)%Z, new_id)] []) as Htok.
  rewrite app_nil_r in Htok.
  specialize (Htok eq_refl eq_refl).
  assert (F1 : Forall (λ e : QueueEntry, entry_tid e = new_id)
                 [(_priority_value (req_priority req), (_seq_counter w1 + 1)%Z, new_id)])
    by (repeat constructor).
  assert (F2 : Forall (λ r : Requeue, r.1.1 = new_id) []) by constructor.
  specialize (Htok F1 F2). clear F1 F2.
  change (tokens_for t w1) with (tokens_for t w) in Htok.
  destruct (Hall t) as (I1 & I2 & I3).
  unfold settled. rewrite Htok.
  change (notifications (_enqueue_ready new_id (req_priority req) w1))
    with (notifications w1).
  subst w1. cbn [notifications set_notifications].
  destruct (decide (t = new_id)) as [->|Hne].
  - rewrite lookup_insert_eq. specialize (I3 Hnew). rewrite I3. simpl.
    split; [lia|]. split; [|discriminate].
    intros notif [= <-]. simpl. congruence.
  - rewrite lookup_insert_ne by congruence. rewrite Nat.add_0_r.
    split; [exact I1|]. split; [exact I2 | exact I3].
Qed.

Lemma settled_requeue (w : World) (i : nat) :
  (forall t, settled t w) -> forall t, settled t (_delayed_requeue i w).
Proof.
  intros Hall t. unfold _delayed_requeue.
  destruct (pending_requeues w !! i) as [[[tid prio] delay]|] eqn:Hi; [|apply Hall].
  assert (Htok : tokens_for t (_enqueue_ready tid prio
                                 (set_pending_requeues (delete i (pending_requeues w)) w))
                 = tokens_for t w).
  { unfold tokens_for. simpl. rewrite filter_app, length_app.
    rewrite (delete_Permutation (pending_requeues w) i _ Hi) at 2.
    destruct (decide (tid = t)) as [->|Hne].
    - rewrite !filter_cons_True by reflexivity. simpl.
      unfold Requeue, QueueEntry in *. lia.
    - rewrite !filter_cons_False by (simpl; congruence). simpl.
      unfold Requeue, QueueEntry in *. lia. }
  destruct (Hall t) as (I1 & I2 & I3).
  unfold settled. rewrite Htok. simpl. split; [exact I1|]. split; [exact I2 | exact I3].
Qed.

Lemma settled_worker (w : World) (env : step_env) :
  (forall t, settled t w) -> forall t, settled t (_worker_loop_turn env w).
Proof.
  intros Hall t. unfold _worker_loop_turn.
  destruct (queue_get (_ready_queue w)) as [[e q']|] eqn:Hget; [|apply Hall].
  set (tid := entry_tid e). set (wp := set_queue q' (_seq_counter w) w).
  pose proof (tokens_for_popped tid w e q' Hget) as Hpop.
  fold wp in Hpop. rewrite decide_True in Hpop by reflexivity.
  destruct (Hall tid) as (I1 & I2 & I3).
  destruct (notifications w !! tid) as [n|] eqn:Hn; [|specialize (I3 eq_refl); lia].
  assert (Hnd : delivered_at n = None).
  { destruct (delivered_at n) eqn:E; [|reflexivity].
    destruct (I2 n eq_refl) as [_ H0]; [congruence | lia]. }
  destruct (process_shape env tid wp) as (S1 & _ & S3).
  destruct (S3 n Hn) as (n' & qadd & padd & Hn' & Hq & Hp & Fq & Fp & Hlen & Hdel).
  pose proof (tokens_for_added tid t wp _ qadd padd Hq Hp Fq Fp) as Htok.
  pose proof (tokens_for_popped t w e q' Hget) as Hpop_t. fold wp tid in Hpop_t.
  unfold settled. rewrite Htok.
  destruct (decide (t = tid)) as [->|Hne].
  - rewrite Hn'. split; [lia|]. split; [|discriminate].
    intros notif [= <-] Hset.
    destruct (Hdel Hnd Hset) as (Hst & -> & ->). simpl. split; [exact Hst | lia].
  - rewrite (S1 t Hne). change (notifications wp) with (notifications w).
    rewrite decide_False in Hpop_t by congruence.
    destruct (Hall t) as (J1 & J2 & J3).
    rewrite !Nat.add_0_r in *. rewrite <- Hpop_t.
    split; [exact J1|]. split; [exact J2 | exact J3].
Qed.

(** A suspended turn has run to its end, or it has taken an entry for an
    existing notification off the queue and at most marked that
    notification as sending. *)
Lemma suspended_turn_shape (env : step_env) (w : World) :
  suspended_turn env w = _worker_loop_turn env w
  \/ exists e q' notif,
       queue_get (_ready_queue w) = Some (e, q')
       /\ notifications w !! entry_tid e = Some notif
       /\ delivery_attempts (suspended_turn env w) = delivery_attempts w
       /\ _ready_queue (suspended_turn env w) = q'
       /\ _seq_counter (suspended_turn env w) = _seq_counter w
       /\ pending_requeues (suspended_turn env w) = pending_requeues w
       /\ (notifications (suspended_turn env w) = notifications w
           \/ notifications (suspended_turn env w)
              = <[entry_tid e := set_status "sending" notif]> (notifications w)).
Proof.
  unfold suspended_turn.
  destruct (queue_get (_ready_queue w)) as [[e q']|] eqn:Hget.
  2:{ left. unfold _worker_loop_turn. rewrite Hget. reflexivity. }
  cbv zeta. cbn [notifications set_queue].
  destruct (notifications w !! entry_tid e) as [notif|] eqn:Hn; [|left; reflexivity].
  destruct (_reconstruct_request_from_notif notif) as [req|]; [|left; reflexivity].
  destruct (fst (allow_request _ _)); [|left; reflexivity].
  right. exists e, q', notif.
  split; [reflexivity|]. split; [exact Hn|].
  match goal with |- context [consult_rate_limiter env req ?w1] =>
    destruct (consult_rate_limiter_frame env req w1) as (F1 & F2 & F3 & F4 & _ & F6)
  end.
  destruct (fst (consult_rate_limiter env req _)).
  - cbn [delivery_attempts _ready_queue _seq_counter pending_requeues notifications
         set_notifications].
    rewrite F1, F2, F3, F4, F6. repeat split; try reflexivity. right. reflexivity.
  - rewrite F1, F2, F3, F4, F6. repeat split; try reflexivity. left. reflexivity.
Qed.

Lemma tokens_for_suspended (t : string) (env : step_env) (w : World) (e : QueueEntry)
    (q' : list QueueEntry) :
  queue_get (_ready_queue w) = Some (e, q') ->
  _ready_queue (suspended_turn env w) = q' ->
  pending_requeues (suspended_turn env w) = pending_requeues w ->
  tokens_for t w
  = (tokens_for t (suspended_turn env w) + if decide (entry_tid e = t) then 1 else 0)%nat.
Proof.
  intros Hget Hq Hp. rewrite (tokens_for_popped t w e q' Hget).
  unfold tokens_for. rewrite Hq, Hp. reflexivity.
Qed.

Lemma settled_suspended (w : World) (env : step_env) :
  (forall t, settled t w) -> forall t, settled t (suspended_turn env w).
Proof.
  intros Hall t.
  destruct (suspended_turn_shape env w)
    as [E|(e & q' & notif & Hget & Hn & _ & Hq & _ & Hp & Hnot)].
  { rewrite E. apply settled_worker. exact Hall. }
  pose proof (tokens_for_suspended t env w e q' Hget Hq Hp) as Htok.
  destruct (Hall t) as (I1 & I2 & I3).
  assert (Hrow : forall n, notifications (suspended_turn env w) !! t = Some n ->
            exists n0, notifications w !! t = Some n0
                       /\ delivered_at n0 = delivered_at n
                       /\ (t <> entry_tid e -> n0 = n)).
  { intros n Hs. destruct Hnot as [E|E]; rewrite E in Hs.
    - exists n. split; [exact Hs|]. split; reflexivity.
    - destruct (decide (t = entry_tid e)) as [->|Hne].
      + rewrite lookup_insert_eq in Hs. injection Hs as <-.
        exists notif. split; [exact Hn|]. split; [reflexivity | congruence].
      + rewrite lookup_insert_ne in Hs by congruence.
        exists n. split; [exact Hs|]. split; reflexivity. }
  unfold settled. split; [lia|]. split.
  - intros n Hs Hd. destruct (Hrow n Hs) as (n0 & Hn0 & Hd0 & Hsame).
    destruct (I2 n0 Hn0) as [Hst H0]; [congruence|].
    destruct (decide (entry_tid e = t)) as [He|He]; [lia|].
    rewrite <- (Hsame (not_eq_sym He)). split; [exact Hst | lia].
  - intros Hnone. apply Nat.le_0_r. rewrite <- (I3 ltac:(
      destruct Hnot as [E|E]; rewrite E in Hnone; [exact Hnone|];
      destruct (decide (t = entry_tid e)) as [->|Hne];
        [rewrite lookup_insert_eq in Hnone; discriminate
        |rewrite lookup_insert_ne in Hnone by congruence; exact Hnone])).
    lia.
Qed.

(** Every state of the pipeline is settled for every tracking id. *)
Lemma reachable_settled (w : World) : reachable w -> forall t, settled t w.
Proof.
  induction 1 as [limiter cooldown | w new_id now req _ IH | w env _ IH
                  | w i _ IH | w limiter cooldown _ IH | w env _ IH]; intros t.
  - apply settled_start.
  - apply settled_enqueue. exact IH.
  - apply settled_worker. exact IH.
  - apply settled_requeue. exact IH.
  - apply settled_restart. apply IH.
  - apply settled_suspended. exact IH.
Qed.

(** C5.  [record_delivery_attempt] appends the attempt row and, when the
    notification exists, sets its [attempts] to
    [max(attempts, attempt_number)] and its [last_attempt_at] to the time
    of the attempt; a delivered attempt makes the status delivered, sets
    [delivered_at] and clears [failure_reason]; a failed or bounced
    attempt makes the status that status and [failure_reason] the error
    message and leaves [delivered_at] as it was.  In every state the
    pipeline reaches, a notification whose [delivered_at] is set has
    status delivered. *)
Theorem record_attempt_updates_parent :
  (forall (now : Z) (tid : string) (number : Z) (st : string) (latency_ms : Q)
          (error : option string) (code : option Z) (w : World) (notif : NotificationORM),
     notifications w !! tid = Some notif ->
     let w' := record_delivery_attempt now tid number st latency_ms error code w in
     delivery_attempts w'
       = delivery_attempts w ++ [attempt_row tid number st latency_ms error code now]
     /\ exists notif',
          notifications w' !! tid = Some notif'
          /\ attempts notif' = Z.max (attempts notif) number
          /\ last_attempt_at notif' = Some now
          /\ (st = "delivered" ->
              status notif' = "delivered" /\ delivered_at notif' = Some now
              /\ failure_reason notif' = None)
          /\ (st = "failed" \/ st = "bounced" ->
              status notif' = st /\ failure_reason notif' = error
              /\ delivered_at notif' = delivered_at notif))
  /\ (forall (w : World) (tid : string) (notif : NotificationORM),
        reachable w ->
        notifications w !! tid = Some notif ->
        delivered_at notif <> None ->
        status notif = "delivered").
Proof.
  split.
  - intros now tid number st latency_ms error code w notif Hn w'.
    destruct (record_delivery_attempt_fields now tid number st latency_ms error code w notif Hn)
      as (G1 & G2 & _).
    fold w' in G1, G2. split; [exact G1|].
    exists (update_parent notif number st error now).
    rewrite G2, lookup_insert_eq.
    destruct (update_parent_fields notif number st error now) as (U1 & U2 & U3 & U4 & _).
    split; [reflexivity|]. split; [exact U1|]. split; [exact U2|].
    split; [exact U3 | exact U4].
  - intros w tid notif Hreach Hn Hset.
    destruct (reachable_settled w Hreach tid) as (_ & I2 & _).
    apply (I2 notif Hn Hset).
Qed.

Lemma record_attempt_updates_parent_witness :
  let w := sample_world "normal" in
  let w' := record_delivery_attempt 7 "n1" 1 "failed" 5 (Some "boom") None w in
  (delivery_attempts w' = [attempt_row "n1" 1 "failed" 5 (Some "boom") None 7]
   /\ exists notif',
        notifications w' !! "n1" = Some notif'
        /\ attempts notif' = Z.max 0 1
        /\ last_attempt_at notif' = Some 7%Z
        /\ ("failed" = "delivered" ->
            status notif' = "delivered" /\ delivered_at notif' = Some 7%Z
            /\ failure_reason notif' = None)
        /\ ("failed" = "failed" \/ "failed" = "bounced" ->
            status notif' = "failed" /\ failure_reason notif' = Some "boom"
            /\ delivered_at notif' = None))
  /\ status sample_row_delivered = "delivered".
Proof.
  intros w w'.
  destruct record_attempt_updates_parent as [H1 H2].
  split.
  - apply (H1 7%Z "n1" 1%Z "failed" 5%Q (Some "boom") None w (sample_row "normal")).
    vm_compute. reflexivity.
  - apply (H2 (_worker_loop_turn (sample_env 1 sample_success) w) "n1" sample_row_delivered).
    + apply reach_worker. apply reach_enqueue. apply reach_start.
    + vm_compute. reflexivity.
    + discriminate.
Defined.

(** ** Unknown priorities *)

Lemma not_in_Priority (p : string) :
  p ∉ Priority <-> p <> "low" /\ p <> "normal" /\ p <> "high" /\ p <> "critical".
Proof.
  unfold Priority. rewrite !not_elem_of_cons. split.
  - intros (H1 & H2 & H3 & H4 & _). repeat split; assumption.
  - intros (H1 & H2 & H3 & H4). repeat split; try assumption. apply not_elem_of_nil.
Qed.

(** C9 (amended).  For every priority string outside the four known
    ones, [get_retry_plan] returns the normal plan (2 attempts, delays 10
    and 60), the rank is 2, and [_enqueue_ready] queues the entry as it
    would for normal.  But no request can carry such a priority: building
    one fails validation, and so does rebuilding the request from a stored
    row, so a worker that takes such a row leaves everything as it is and
    the validation error escapes to the worker loop. *)
Theorem unknown_priority_plan_rank_and_rejection (p : string) :
  p ∉ Priority ->
  get_retry_plan p = {| max_attempts := 2; delays := [10; 60]%Q |}
  /\ _priority_value p = 2%Z
  /\ (forall (tid : string) (w : World),
        _enqueue_ready tid p w = _enqueue_ready tid "normal" w)
  /\ (forall (ch rc : string) (tpl : option string) (c v m : json),
        make_request ch rc tpl c v m p = None)
  /\ (forall (env : step_env) (tid : string) (w : World) (notif : NotificationORM),
        notifications w !! tid = Some notif -> priority notif = p ->
        _process_tracking_id env tid w = (w, Some "ValidationError")).
Proof.
  intros Hp. pose proof Hp as Hp'. apply not_in_Priority in Hp' as (H1 & H2 & H3 & H4).
  assert (Hplan : get_retry_plan p = {| max_attempts := 2; delays := [10; 60]%Q |}).
  { unfold get_retry_plan, RETRY_CONFIGS.
    rewrite !lookup_insert_ne, lookup_empty by congruence. reflexivity. }
  assert (Hrank : _priority_value p = 2%Z).
  { unfold _priority_value, priority_order.
    rewrite !lookup_insert_ne, lookup_empty by congruence. reflexivity. }
  assert (Hmake : forall ch rc tpl c v m, make_request ch rc tpl c v m p = None).
  { intros. unfold make_request.
    rewrite (bool_decide_eq_false_2 (p ∈ Priority) Hp), andb_false_r. reflexivity. }
  split; [exact Hplan|]. split; [exact Hrank|]. split; [|split; [exact Hmake|]].
  - intros tid w. unfold _enqueue_ready. rewrite Hrank. reflexivity.
  - intros env tid w notif Hn Hprio. unfold _process_tracking_id. rewrite Hn.
    unfold _reconstruct_request_from_notif. rewrite Hprio, Hmake. reflexivity.
Qed.

Lemma unknown_priority_plan_rank_and_rejection_witness :
  get_retry_plan "urgent" = {| max_attempts := 2; delays := [10; 60]%Q |}
  /\ _priority_value "urgent" = 2%Z
  /\ _process_tracking_id (sample_env 1 sample_success) "n1" urgent_world
     = (urgent_world, Some "ValidationError").
Proof.
  destruct (unknown_priority_plan_rank_and_rejection "urgent") as (H1 & H2 & _ & _ & H5).
  - apply not_in_Priority. repeat split; discriminate.
  - split; [exact H1|]. split; [exact H2|].
    apply (H5 (sample_env 1 sample_success) "n1" urgent_world (sample_row "urgent")).
    + vm_compute. reflexivity.
    + reflexivity.
Defined.

(** C9 as stated fails: a stored notification of priority ["urgent"] is
    not processed as a normal one.  With the adapter ready to accept it,
    the worker records nothing for it, while for the same row with
    priority normal it records the delivered attempt. *)
Lemma unknown_priority_not_processed_as_normal :
  ("urgent" ∉ Priority) /\ ~ processed_as_normal "urgent".
Proof.
  split; [apply not_in_Priority; repeat split; discriminate|].
  intros (_ & _ & H).
  specialize (H (sample_env 1 sample_success) "n1" urgent_world (sample_row "urgent")).
  assert (Hn : notifications urgent_world !! "n1" = Some (sample_row "urgent"))
    by (vm_compute; reflexivity).
  specialize (H Hn eq_refl). vm_compute in H. discriminate H.
Qed.

(** ** Scheduler *)

Lemma enqueue_notification_fresh (new_id : string) (now : Z) (req : NotificationRequest)
    (w : World) :
  notifications w !! new_id = None ->
  enqueue_notification new_id now req w
    = (fst (enqueue_notification new_id now req w), Some new_id).
Proof. intros H. unfold enqueue_notification. rewrite H. reflexivity. Qed.

(** What firing a due recurring schedule stores, for any time zone data
    and any cron evaluator: the instant of the next occurrence is written
    to [send_at] as it reads in UTC, so that reading it back in the
    schedule's zone gives that instant shifted by the zone's offset. *)
Lemma process_schedule_recurring
    (zone : string -> option (Z -> Z)) (croniter_next : string -> string -> Z -> option Z)
    (now_utc : Z) (new_id : string) (utcnow : Z) (i : nat) (st : scan_state)
    (sched : ScheduledNotificationORM) (offset : Z -> Z) (req : NotificationRequest)
    (cron : string) (next_utc : Z) :
  session st !! i = Some sched ->
  timezone sched <> "" ->
  zone (timezone sched) = Some offset ->
  (send_at sched - offset (send_at sched) <= now_utc)%Z ->
  last_run sched = None ->
  parse_obj (notification_data sched) = Some req ->
  notifications (world st) !! new_id = None ->
  recurrence sched = Some cron -> cron <> "" ->
  croniter_next cron (timezone sched) (send_at sched - offset (send_at sched))%Z
    = Some next_utc ->
  let st' := process_schedule zone croniter_next now_utc new_id utcnow i st in
  world st' = fst (enqueue_notification new_id utcnow req (world st))
  /\ committed st' = session st'
  /\ exists sched',
       session st' !! i = Some sched'
       /\ last_run sched' = Some now_utc
       /\ timezone sched' = timezone sched
       /\ active sched' = active sched
       /\ send_at sched' = next_utc
       /\ _to_utc zone (send_at sched') (timezone sched')
          = Some (next_utc - offset next_utc)%Z.
Proof.
  intros Hi Htz Hzone Hdue Hlast Hparse Hnew Hrec Hcron Hnext st'. subst st'.
  unfold process_schedule. rewrite Hi.
  apply String.eqb_neq in Htz. rewrite Htz.
  unfold _to_utc, _next_cron_time. rewrite Hzone.
  apply Z.leb_le in Hdue. rewrite Hdue, Hlast, Hparse.
  rewrite (enqueue_notification_fresh new_id utcnow req (world st) Hnew).
  rewrite Hrec. apply String.eqb_neq in Hcron. rewrite Hcron, Hnext.
  cbn [world committed session].
  split; [reflexivity|]. split; [reflexivity|].
  exists (set_send_at next_utc (set_last_run now_utc sched)).
  split.
  - apply list_lookup_insert_eq. eapply lookup_lt_Some. exact Hi.
  - simpl. rewrite Hzone. repeat split; reflexivity.
Qed.

(** What firing a due one-off schedule stores. *)
Lemma process_schedule_one_off
    (zone : string -> option (Z -> Z)) (croniter_next : string -> string -> Z -> option Z)
    (now_utc : Z) (new_id : string) (utcnow : Z) (i : nat) (st : scan_state)
    (sched : ScheduledNotificationORM) (offset : Z -> Z) (req : NotificationRequest) :
  session st !! i = Some sched ->
  timezone sched <> "" ->
  zone (timezone sched) = Some offset ->
  (send_at sched - offset (send_at sched) <= now_utc)%Z ->
  last_run sched = None ->
  parse_obj (notification_data sched) = Some req ->
  notifications (world st) !! new_id = None ->
  recurrence sched = None ->
  let st' := process_schedule zone croniter_next now_utc new_id utcnow i st in
  world st' = fst (enqueue_notification new_id utcnow req (world st))
  /\ committed st' = session st'
  /\ exists sched',
       session st' !! i = Some sched'
       /\ last_run sched' = Some now_utc
       /\ timezone sched' = timezone sched
       /\ send_at sched' = send_at sched
       /\ active sched' = false.
Proof.
  intros Hi Htz Hzone Hdue Hlast Hparse Hnew Hrec st'. subst st'.
  unfold process_schedule. rewrite Hi.
  apply String.eqb_neq in Htz. rewrite Htz.
  unfold _to_utc. rewrite Hzone.
  apply Z.leb_le in Hdue. rewrite Hdue, Hlast, Hparse.
  rewrite (enqueue_notification_fresh new_id utcnow req (world st) Hnew).
  rewrite Hrec.
  cbn [world committed session].
  split; [reflexivity|]. split; [reflexivity|].
  exists (set_active false (set_last_run now_utc sched)).
  split.
  - apply list_lookup_insert_eq. eapply lookup_lt_Some. exact Hi.
  - simpl. repeat split; reflexivity.
Qed.

(** C2 (the code departs from the claim).  The daily 09:00 Tokyo
    schedule, due at 2024-01-01 00:00 UTC, is scanned one second later.
    The scan admits the notification, sets [last_run] to the time of the
    scan and keeps the time zone and the active flag.  The next occurrence
    is 2024-01-02 09:00 in Tokyo, that is 2024-01-02 00:00 UTC; the scan
    stores this UTC reading in [send_at].  Read back as wall-clock time in
    Tokyo, as the next scan does, the stored value denotes
    2024-01-01 15:00 UTC: nine hours before the next occurrence. *)
Theorem tokyo_schedule_next_send_at_is_nine_hours_early :
  let sched' := set_send_at (jan1 + 24 * hour_us) (set_last_run (jan1 + 1000000) tokyo_schedule) in
  fst tokyo_scan = [sched']
  /\ status_of "n1" (snd tokyo_scan) = Some "queued"
  /\ _ready_queue (snd tokyo_scan) = [(2, 1, "n1")%Z]
  /\ last_run sched' = Some (jan1 + 1000000)%Z
  /\ timezone sched' = "Asia/Tokyo"
  /\ active sched' = true
  /\ daily_nine "0 9 * * *" "Asia/Tokyo" jan1 = Some (jan1 + 24 * hour_us)%Z
  /\ send_at sched' = (jan1 + 24 * hour_us)%Z
  /\ _to_utc fixed_zones (send_at sched') (timezone sched') = Some (jan1 + 15 * hour_us)%Z
  /\ (jan1 + 15 * hour_us)%Z <> (jan1 + 24 * hour_us)%Z.
Proof.
  cbv zeta. repeat split; try (vm_compute; reflexivity).
  vm_compute. discriminate.
Qed.

(** ** Webhook adapter *)

(** C10.  For a recipient that passes the URL check, a response whose
    status code lies neither in 200-299 nor in 400-499 (1xx, 3xx, 5xx and
    anything outside the usual classes) makes [send] raise
    [TransientChannelError]: it is neither a success nor a permanent
    failure.  A worker that reaches the adapter and gets this result
    records a failed attempt and starts the retry timer of the plan when
    attempts remain. *)
Theorem webhook_other_status_is_transient
    (recipient text : string) (code : Z) (lat : Q) :
  is_http_url recipient = true ->
  ~ (200 <= code < 300)%Z -> ~ (400 <= code < 500)%Z ->
  let msg := "Webhook server error " +:+ str_of_Z code +:+ ": " +:+ String.substring 0 200 text in
  webhook_send recipient (Response code text) lat = TransientChannelError msg
  /\ forall (env : step_env) (w : World) (e : QueueEntry) (q' : list QueueEntry)
            (notif : NotificationORM) (req : NotificationRequest),
       dispatch env = webhook_send recipient (Response code text) lat ->
       queue_get (_ready_queue w) = Some (e, q') ->
       notifications w !! entry_tid e = Some notif ->
       _reconstruct_request_from_notif notif = Some req ->
       reaches_dispatch env (entry_tid e) w = true ->
       delivery_attempts (_worker_loop_turn env w)
         = delivery_attempts w
             ++ [failed_row (entry_tid e) (attempts notif + 1) (latency env) msg
                   (utcnow env)]
       /\ pending_requeues (_worker_loop_turn env w)
          = pending_requeues w
              ++ (if (attempts notif + 1 <? max_attempts (get_retry_plan (req_priority req)))%Z
                  then [(entry_tid e, req_priority req,
                         next_delay (get_retry_plan (req_priority req)) (jitter_draw env)
                           (attempts notif + 1 + 1))]
                  else []).
Proof.
  intros Hurl H2 H4 msg.
  assert (Hsend : webhook_send recipient (Response code text) lat
                  = TransientChannelError msg).
  { unfold webhook_send, is_http_url in *. rewrite Hurl. simpl.
    destruct (Z.leb_spec 200 code), (Z.ltb_spec code 300); simpl; try lia;
      destruct (Z.leb_spec 400 code), (Z.ltb_spec code 500); simpl; try lia; reflexivity. }
  split; [exact Hsend|].
  intros env w e q' notif req Hd Hget Hn Hreq Hreach.
  rewrite Hsend in Hd.
  assert (Hmsg : transient_message (dispatch env) = Some msg) by (rewrite Hd; reflexivity).
  destruct (worker_turn_failure env w e q' notif req msg true Hget Hn Hreq Hreach
              (or_intror (conj Hmsg eq_refl))) as (G1 & _ & _ & _ & G5 & _).
  split; [exact G1 | exact G5].
Qed.

Lemma webhook_other_status_is_transient_witness :
  webhook_send hook (Response 301 "Moved") 12 =
    TransientChannelError "Webhook server error 301: Moved"
  /\ pending_requeues
       (_worker_loop_turn (sample_env 1 (webhook_send hook (Response 301 "Moved") 12))
          (sample_world "normal"))
     = [("n1", "normal", 10%Q)].
Proof.
  destruct (webhook_other_status_is_transient hook "Moved" 301 12) as [H1 H2];
    [reflexivity | lia | lia |].
  split; [exact H1|].
  destruct (H2 (sample_env 1 (webhook_send hook (Response 301 "Moved") 12))
              (sample_world "normal") (2, 1, "n1")%Z [] (sample_row "normal")
              (sample_request "normal")) as [_ G].
  - reflexivity.
  - vm_compute. reflexivity.
  - vm_compute. reflexivity.
  - vm_compute. reflexivity.
  - vm_compute. reflexivity.
  - rewrite G. vm_compute. reflexivity.
Defined.

(** ** A run cut short by the breaker *)

(** With the default threshold of 3 and cooldown of 60 seconds, a
    critical notification whose adapter keeps timing out, retried as soon
    as the plan allows, does not reach its fifth attempt: the third
    failure opens the breaker, and the fourth round, 15 seconds later, is
    refused and recorded as ["circuit_open"] without a retry. *)
Remark critical_run_meets_open_breaker :
  let w := deliver timeouts_on_schedule (sample_world "critical") in
  map error_message (attempts_of "n1" w)
    = [Some "Webhook timeout after 10.0s"; Some "Webhook timeout after 10.0s";
       Some "Webhook timeout after 10.0s"; Some "circuit_open"]
  /\ status_of "n1" w = Some "failed"
  /\ _ready_queue w = [] /\ pending_requeues w = [].
Proof. vm_compute. repeat split; reflexivity. Qed.

(* ===================================================================== *)
(** * Further properties of the modelled code *)
(* ===================================================================== *)

(** ** Circuit breaker in use *)

Lemma allow_request_cases (now : Q) (cb : CircuitBreaker) :
  allow_request now cb = (true, cb) /\ state cb = closed
  \/ allow_request now cb = (false, stamp_opened now cb)
     /\ state cb = open /\ opened_at cb = None
  \/ allow_request now cb = (false, cb) /\ state cb = open /\ opened_at cb <> None
  \/ allow_request now cb = (true, claim_probe (to_half_open cb))
     /\ state cb = open /\ opened_at cb <> None
  \/ allow_request now cb = (true, claim_probe cb)
     /\ state cb = half_open /\ half_open_probe_in_flight cb = false
  \/ allow_request now cb = (false, cb)
     /\ state cb = half_open /\ half_open_probe_in_flight cb = true.
Proof.
  destruct (state cb) eqn:Hs.
  - left. split; [apply allow_request_closed; exact Hs | reflexivity].
  - destruct (opened_at cb) as [t|] eqn:Ho.
    + destruct (Qlt_le_dec (now - t) (cooldown_seconds cb)) as [Hlt|Hle].
      * right; right; left.
        rewrite (allow_request_open_waiting now t cb Hs Ho Hlt).
        split; [reflexivity|]. split; [reflexivity | discriminate].
      * right; right; right; left.
        rewrite (allow_request_open_elapsed now t cb Hs Ho Hle).
        split; [reflexivity|]. split; [reflexivity | discriminate].
    + right; left. rewrite (allow_request_open_unstamped now cb Hs Ho).
      repeat split; reflexivity.
  - rewrite (allow_request_half_open now cb Hs).
    destruct (half_open_probe_in_flight cb) eqn:Hp; simpl.
    + right; right; right; right; right. repeat split; reflexivity.
    + right; right; right; right; left. repeat split; reflexivity.
Qed.

Lemma cb_consistent_reachable (cb : CircuitBreaker) : cb_reachable cb -> cb_consistent cb.
Proof.
  induction 1 as [th cd Hth | cb _ IH | cb now _ IH | cb now _ IH].
  - unfold cb_consistent. simpl. repeat split; lia.
  - destruct IH as [Hth _]. unfold cb_consistent. simpl. repeat split; lia.
  - destruct IH as [Hth IH]. unfold cb_consistent, on_failure.
    destruct (state cb) eqn:Hs.
    + destruct IH as [Hc Hp].
      destruct (Z.leb_spec (failure_threshold cb) (failure_count cb + 1)); simpl.
      * split; [exact Hth|]. split; [lia|]. split; [discriminate | exact Hp].
      * split; [exact Hth|]. split; [lia | exact Hp].
    + destruct IH as (Hc & Ho & Hp).
      destruct (Z.leb_spec (failure_threshold cb) (failure_count cb + 1)); [|lia].
      simpl. split; [exact Hth|]. split; [lia|]. split; [discriminate | exact Hp].
    + destruct IH as [Hc Ho]. simpl.
      split; [exact Hth|]. split; [lia|]. split; [discriminate | reflexivity].
  - destruct IH as [Hth IH].
    destruct (allow_request_cases now cb)
      as [[E Hs]|[(E & Hs & Ho)|[(E & Hs & Ho)|[(E & Hs & Ho)|[(E & Hs & Hp)|(E & Hs & Hp)]]]]];
      rewrite E; simpl; rewrite Hs in IH.
    + unfold cb_consistent. rewrite Hs. split; assumption.
    + destruct IH as (_ & Ho' & _). congruence.
    + unfold cb_consistent. rewrite Hs. split; assumption.
    + destruct IH as (Hc & _ & _). unfold cb_consistent. simpl.
      split; [exact Hth|]. split; assumption.
    + unfold cb_consistent. simpl. rewrite Hs. split; assumption.
    + unfold cb_consistent. rewrite Hs. split; assumption.
Qed.

(** X1.  For a breaker built by the constructor with a threshold of at
    least 1 and touched only through [on_success], [on_failure] and
    [allow_request]: it is closed exactly when fewer failures than the
    threshold are counted; when it is open or half-open, [opened_at] is
    set; and [allow_request] changes neither [opened_at] nor
    [failure_count], so the branch that stamps an open breaker without
    [opened_at] is never taken. *)
Theorem breaker_fields_agree_with_state (cb : CircuitBreaker) :
  cb_reachable cb ->
  (state cb = closed <-> (failure_count cb < failure_threshold cb)%Z)
  /\ (state cb <> closed -> opened_at cb <> None)
  /\ forall now : Q,
       opened_at (snd (allow_request now cb)) = opened_at cb
       /\ failure_count (snd (allow_request now cb)) = failure_count cb.
Proof.
  intros Hr. pose proof (cb_consistent_reachable cb Hr) as [Hth Hc].
  split; [|split].
  - destruct (state cb); split; intros H; try discriminate; try reflexivity;
      destruct Hc as [Hc _]; lia.
  - intros Hne. destruct (state cb); [congruence | apply Hc | apply Hc].
  - intros now.
    destruct (allow_request_cases now cb)
      as [[E Hs]|[(E & Hs & Ho)|[(E & Hs & Ho)|[(E & Hs & Ho)|[(E & Hs & Hp)|(E & Hs & Hp)]]]]];
      rewrite E; simpl; try (split; reflexivity).
    rewrite Hs in Hc. destruct Hc as (_ & Ho' & _). congruence.
Qed.

Lemma breaker_fields_agree_with_state_witness :
  let cb := snd (allow_request 70 (failures [1; 2; 3]%Q (new_breaker 3 60))) in
  (state cb = closed <-> (failure_count cb < failure_threshold cb)%Z)
  /\ (state cb <> closed -> opened_at cb <> None)
  /\ forall now : Q,
       opened_at (snd (allow_request now cb)) = opened_at cb
       /\ failure_count (snd (allow_request now cb)) = failure_count cb.
Proof.
  intros cb. apply (breaker_fields_agree_with_state cb).
  apply cbr_allow. unfold failures. simpl.
  apply cbr_failure. apply cbr_failure. apply cbr_failure. apply cbr_new. lia.
Defined.

(** X2.  A failure recorded while the breaker is open or half-open (the
    late failure of a request let through earlier, or the failed probe)
    restarts the cooldown: until [cooldown_seconds] have passed since
    that failure, [allow_request] refuses. *)
Theorem failure_restarts_cooldown (cb : CircuitBreaker) (t now : Q) :
  cb_reachable cb -> state cb <> closed ->
  (now - t < cooldown_seconds cb)%Q ->
  state (on_failure t cb) = open
  /\ opened_at (on_failure t cb) = Some t
  /\ fst (allow_request now (on_failure t cb)) = false.
Proof.
  intros Hr Hne Hlt. pose proof (cb_consistent_reachable cb Hr) as [Hth Hc].
  assert (H : state (on_failure t cb) = open /\ opened_at (on_failure t cb) = Some t
              /\ cooldown_seconds (on_failure t cb) = cooldown_seconds cb).
  { unfold on_failure. destruct (state cb); [congruence | |].
    - destruct Hc as (Hc & _).
      destruct (Z.leb_spec (failure_threshold cb) (failure_count cb + 1)); [|lia].
      repeat split.
    - repeat split. }
  destruct H as (Hs & Ho & Hcd).
  split; [exact Hs|]. split; [exact Ho|].
  rewrite (allow_request_open_waiting now t (on_failure t cb) Hs Ho); [reflexivity|].
  rewrite Hcd. exact Hlt.
Qed.

Lemma failure_restarts_cooldown_witness :
  let cb := failures [1; 2; 3]%Q (new_breaker 3 60) in
  state (on_failure 50 cb) = open
  /\ opened_at (on_failure 50 cb) = Some 50%Q
  /\ fst (allow_request 100 (on_failure 50 cb)) = false.
Proof.
  intros cb. apply (failure_restarts_cooldown cb 50 100).
  - unfold cb, failures. simpl.
    apply cbr_failure. apply cbr_failure. apply cbr_failure. apply cbr_new. lia.
  - discriminate.
  - reflexivity.
Defined.

(** ** Retry plans within the budget *)

(** X3.  For every plan of the table, the delay before an attempt within
    the budget ([k <= max_attempts]) is read from the configured list: it
    does not depend on the random draw, and it does not decrease from one
    attempt to the next.  The jittered fallback is therefore never used
    for a retry the worker schedules. *)
Theorem delays_within_budget_are_configured (p : string) (r1 r2 : Q) (k1 k2 : Z) :
  (k1 <= k2)%Z -> (k2 <= max_attempts (get_retry_plan p))%Z ->
  next_delay (get_retry_plan p) r1 k2 = next_delay (get_retry_plan p) r2 k2
  /\ (next_delay (get_retry_plan p) r1 k1 <= next_delay (get_retry_plan p) r1 k2)%Q.
Proof.
  intros H12 Hmax.
  assert (Hcases : forall (plan : RetryPlan) (k : Z),
            (k <= 1 \/ k = 2 \/ k = 3 \/ k = 4 \/ k = 5 \/ 6 <= k)%Z) by (intros; lia).
  destruct (get_retry_plan_cases p) as [H|[H|[H|H]]]; rewrite H in *; simpl in Hmax;
    unfold next_delay; simpl;
    destruct (Z.leb_spec k2 1); destruct (Z.leb_spec k1 1); try lia;
    try (split; [reflexivity | lra]);
    destruct (Hcases (get_retry_plan p) k2) as [?|[->|[->|[->|[->|?]]]]]; try lia;
    destruct (Hcases (get_retry_plan p) k1) as [?|[->|[->|[->|[->|?]]]]]; try lia;
    simpl; split; try reflexivity; lra.
Qed.

Lemma delays_within_budget_are_configured_witness :
  next_delay (get_retry_plan "critical") (1 # 3) 5
    = next_delay (get_retry_plan "critical") (2 # 3) 5
  /\ (next_delay (get_retry_plan "critical") (1 # 3) 4
      <= next_delay (get_retry_plan "critical") (1 # 3) 5)%Q.
Proof.
  apply (delays_within_budget_are_configured "critical" (1 # 3) (2 # 3) 4 5).
  - lia.
  - vm_compute. discriminate.
Defined.

(** X4.  [next_delay] does not return a negative delay, for any plan of
    the table, any value of the random draw and any attempt number up to
    1000, also 0 and negative ones and those beyond the budget (in the
    range where the floats of the source stay finite). *)
Theorem next_delay_is_not_negative (p : string) (r : Q) (k : Z) :
  (k <= float_safe_attempts)%Z ->
  (0 <= next_delay (get_retry_plan p) r k)%Q.
Proof.
  intros _. unfold next_delay.
  destruct (Z.leb_spec k 1); [lra|].
  destruct (Z.ltb_spec (k - 2) (Z.of_nat (length (delays (get_retry_plan p))))) as [Hlt|_].
  - assert (Hall : Forall (λ d, (0 <= d)%Q) (delays (get_retry_plan p))).
    { destruct (get_retry_plan_cases p) as [Hp|[Hp|[Hp|Hp]]]; rewrite Hp; simpl;
        repeat constructor; lra. }
    destruct (delays (get_retry_plan p) !! Z.to_nat (k - 2)) as [d|] eqn:E; simpl; [|lra].
    rewrite Forall_forall in Hall. apply Hall.
    eapply list_elem_of_lookup_2. exact E.
  - unfold backoff_with_jitter. apply Q.le_max_l.
Qed.

Lemma next_delay_is_not_negative_witness :
  (0 <= next_delay (get_retry_plan "low") (-3) 7)%Q
  /\ (0 <= next_delay (get_retry_plan "critical") (1 # 2) (-2))%Q.
Proof.
  split; apply next_delay_is_not_negative; unfold float_safe_attempts; lia.
Defined.

(** ** Rate limiter in use *)

(** X5.  Buckets are independent: a call for one key changes neither the
    bucket of another key nor the answer a later call for that other key
    gets. *)
Theorem allow_leaves_other_keys_alone
    (key key' : string) (amount amount' created created' now now' : Q) (rl : RateLimiter) :
  key <> key' ->
  _buckets (snd (allow key amount created now rl)) !! key' = _buckets rl !! key'
  /\ fst (allow key' amount' created' now' (snd (allow key amount created now rl)))
     = fst (allow key' amount' created' now' rl).
Proof.
  intros Hne.
  assert (Hb : forall c, bucket_for key' c (snd (allow key amount created now rl))
                         = bucket_for key' c rl).
  { intros c. unfold bucket_for, allow. simpl.
    rewrite lookup_insert_ne by exact Hne. reflexivity. }
  split.
  - unfold allow. simpl. apply lookup_insert_ne. exact Hne.
  - unfold allow at 1 3. simpl. rewrite Hb. reflexivity.
Qed.

Lemma allow_leaves_other_keys_alone_witness :
  let rl := new_limiter 1 1 in
  _buckets (snd (allow "recipient:a" 1 0 0 rl)) !! "recipient:b" = _buckets rl !! "recipient:b"
  /\ fst (allow "recipient:b" 1 0 0 (snd (allow "recipient:a" 1 0 0 rl)))
     = fst (allow "recipient:b" 1 0 0 rl).
Proof.
  intros rl.
  apply (allow_leaves_other_keys_alone "recipient:a" "recipient:b" 1 1 0 0 0 0 rl).
  discriminate.
Defined.

(** The level of every bucket lies between 0 and the capacity, and every
    bucket carries the parameters of its limiter. *)
Lemma rl_reachable_bounds (cap rate : Q) (rl : RateLimiter) :
  (0 <= cap)%Q -> (0 <= rate)%Q -> rl_reachable cap rate rl ->
  rl_capacity rl = cap /\ rl_refill_rate rl = rate
  /\ forall key b, _buckets rl !! key = Some b ->
       (0 <= tokens b)%Q /\ (tokens b <= cap)%Q /\ capacity b = cap /\ refill_rate b = rate.
Proof.
  intros Hcap Hrate. induction 1 as [|rl key amount created now _ IH Ha].
  - split; [reflexivity|]. split; [reflexivity|].
    intros key b H. simpl in H. rewrite lookup_empty in H. discriminate.
  - destruct IH as (Hc & Hr & IH).
    split; [exact Hc|]. split; [exact Hr|].
    intros key' b'. unfold allow. simpl.
    destruct (decide (key = key')) as [<-|Hne].
    2:{ rewrite lookup_insert_ne by exact Hne. apply IH. }
    rewrite lookup_insert_eq. intros [= <-].
    assert (Hb : (0 <= tokens (bucket_for key created rl))%Q
                 /\ (tokens (bucket_for key created rl) <= cap)%Q
                 /\ capacity (bucket_for key created rl) = cap
                 /\ refill_rate (bucket_for key created rl) = rate).
    { unfold bucket_for. destruct (_buckets rl !! key) as [b|] eqn:E.
      - apply (IH key b E).
      - simpl. rewrite Hc, Hr. repeat split; lra. }
    destruct Hb as (B1 & B2 & B3 & B4).
    set (b := bucket_for key created rl) in *.
    assert (Hre : (0 <= tokens (refill now b))%Q /\ (tokens (refill now b) <= cap)%Q
                  /\ capacity (refill now b) = cap /\ refill_rate (refill now b) = rate).
    { unfold refill. destruct (Qgtb (now - last_refill b) 0) eqn:E; simpl.
      - apply Qgtb_true in E. rewrite B3, B4.
        assert (0 <= (now - last_refill b) * rate)%Q by (apply Qmult_le_0_compat; lra).
        repeat split.
        + apply Q.min_glb; lra.
        + apply Q.le_min_l.
      - repeat split; assumption. }
    destruct Hre as (R1 & R2 & R3 & R4).
    unfold try_consume.
    destruct (Qgeb (tokens (refill now b)) amount) eqn:E; simpl.
    + apply Qgeb_true in E. repeat split; try assumption; lra.
    + repeat split; assumption.
Qed.

(** X6.  In a limiter built by the constructor with a capacity and a
    refill rate that are not negative, and used through [allow] with
    amounts that are not negative, the level of every bucket stays
    between 0 and the capacity, whatever the clock does. *)
Theorem bucket_level_stays_in_range
    (cap rate : Q) (rl : RateLimiter) (key : string) (b : TokenBucket) :
  (0 <= cap)%Q -> (0 <= rate)%Q -> rl_reachable cap rate rl ->
  _buckets rl !! key = Some b ->
  (0 <= tokens b)%Q /\ (tokens b <= capacity b)%Q.
Proof.
  intros Hcap Hrate Hr Hb.
  destruct (rl_reachable_bounds cap rate rl Hcap Hrate Hr) as (_ & _ & H).
  destruct (H key b Hb) as (H1 & H2 & H3 & _). rewrite H3. split; assumption.
Qed.

Lemma bucket_level_stays_in_range_witness :
  let rl := snd (allow "k" 1 5 3 (snd (allow "k" 2 0 0 (new_limiter 2 1)))) in
  let b := {| capacity := 2; refill_rate := 1; tokens := 1; last_refill := 3 |} in
  _buckets rl !! "k" = Some b /\ (0 <= tokens b)%Q /\ (tokens b <= capacity b)%Q.
Proof.
  intros rl b.
  assert (Hb : _buckets rl !! "k" = Some b) by (vm_compute; reflexivity).
  split; [exact Hb|].
  apply (bucket_level_stays_in_range 2 1 rl "k" b); [lra | lra | | exact Hb].
  apply rlr_allow; [apply rlr_allow; [apply rlr_new | lra] | lra].
Defined.

Lemma calls_spaced (key : string) (ts : list Q) : forall (rl : RateLimiter) (b : TokenBucket),
  _buckets rl !! key = Some b ->
  (0 <= tokens b)%Q -> (1 <= capacity b)%Q -> (0 < refill_rate b)%Q ->
  spaced (refill_rate b) (last_refill b) ts ->
  Forall (λ a, a = true) (calls key ts rl).
Proof.
  induction ts as [|t ts IH]; intros rl b Hb Htok Hcap Hrate Hsp; simpl.
  - constructor.
  - destruct Hsp as [Hstep Hsp].
    assert (Hel : (0 < t - last_refill b)%Q).
    { destruct (Qlt_le_dec 0 (t - last_refill b)) as [H|H]; [exact H|].
      assert ((t - last_refill b) * refill_rate b <= 0)%Q by nra. lra. }
    assert (Hfor : bucket_for key t rl = b) by (unfold bucket_for; rewrite Hb; reflexivity).
    assert (Hre : refill t b =
                  {| capacity := capacity b;
                     refill_rate := refill_rate b;
                     tokens := Qmin (capacity b)
                                 (tokens b + (t - last_refill b) * refill_rate b);
                     last_refill := t |}).
    { unfold refill. apply Qgtb_true in Hel. rewrite Hel. reflexivity. }
    assert (Hlevel : (1 <= Qmin (capacity b)
                              (tokens b + (t - last_refill b) * refill_rate b))%Q).
    { apply Q.min_glb; lra. }
    assert (Htry : try_consume t 1 b =
                   (true,
                    {| capacity := capacity b;
                       refill_rate := refill_rate b;
                       tokens := Qmin (capacity b)
                                   (tokens b + (t - last_refill b) * refill_rate b) - 1;
                       last_refill := t |})).
    { unfold try_consume. rewrite Hre. simpl.
      apply Qgeb_true in Hlevel. rewrite Hlevel. reflexivity. }
    unfold allow. rewrite Hfor, Htry. simpl.
    constructor; [reflexivity|].
    eapply IH.
    + simpl. apply lookup_insert_eq.
    + simpl. lra.
    + exact Hcap.
    + exact Hrate.
    + exact Hsp.
Qed.

(** X7.  Requests for one key that arrive no faster than the refill rate
    are all granted: with a capacity of at least 1 and a positive refill
    rate, a first call for an unseen key and every later call made at
    least [1 / refill_rate] seconds after the one before return true. *)
Theorem steady_rate_is_always_granted
    (rl : RateLimiter) (key : string) (t0 : Q) (ts : list Q) :
  _buckets rl !! key = None ->
  (1 <= rl_capacity rl)%Q -> (0 < rl_refill_rate rl)%Q ->
  spaced (rl_refill_rate rl) t0 ts ->
  Forall (λ a, a = true) (calls key (t0 :: ts) rl).
Proof.
  intros Hnone Hcap Hrate Hsp. simpl.
  assert (Hfor : bucket_for key t0 rl =
                 {| capacity := rl_capacity rl;
                    refill_rate := rl_refill_rate rl;
                    tokens := rl_capacity rl;
                    last_refill := t0 |})
    by (unfold bucket_for; rewrite Hnone; reflexivity).
  assert (Htry : try_consume t0 1 (bucket_for key t0 rl) =
                 (true,
                  {| capacity := rl_capacity rl;
                     refill_rate := rl_refill_rate rl;
                     tokens := rl_capacity rl - 1;
                     last_refill := t0 |})).
  { rewrite Hfor. unfold try_consume, refill. simpl.
    assert (E : Qgtb (t0 - t0) 0 = false) by (apply Qgtb_false; lra).
    rewrite E. simpl. apply Qgeb_true in Hcap. rewrite Hcap. reflexivity. }
  unfold allow. rewrite Htry. simpl.
  constructor; [reflexivity|].
  eapply calls_spaced.
  - simpl. apply lookup_insert_eq.
  - simpl. lra.
  - simpl. lra.
  - exact Hrate.
  - exact Hsp.
Qed.

Lemma steady_rate_is_always_granted_witness :
  Forall (λ a, a = true) (calls "recipient:a" [0; 1 # 2; 1; 3]%Q (new_limiter 1 2)).
Proof.
  apply (steady_rate_is_always_granted (new_limiter 1 2) "recipient:a" 0 [1 # 2; 1; 3]%Q).
  - apply lookup_empty.
  - simpl. lra.
  - simpl. lra.
  - simpl. repeat split; lra.
Defined.

(** ** The attempt history *)

Lemma update_parent_sending (n : NotificationORM) (number : Z) (st : string)
    (err : option string) (t : Z) :
  st = "delivered" \/ st = "failed" ->
  update_parent (set_status "sending" n) number st err t = update_parent n number st err t.
Proof. intros [-> | ->]; reflexivity. Qed.

(** A run of [_process_tracking_id] on an existing notification writes
    no row and leaves the notification as it is, or writes one row, with
    the next number, and updates the notification from it. *)
Lemma process_ledger (env : step_env) (tid : string) (w : World) (n : NotificationORM) :
  notifications w !! tid = Some n ->
  let w' := fst (_process_tracking_id env tid w) in
  (delivery_attempts w' = delivery_attempts w /\ notifications w' !! tid = Some n)
  \/ exists st err lat,
       delivery_attempts w'
         = delivery_attempts w
             ++ [attempt_row tid (attempts n + 1) st lat err None (utcnow env)]
       /\ notifications w' !! tid
          = Some (update_parent n (attempts n + 1) st err (utcnow env))
       /\ (st = "delivered" /\ err = None \/ st = "failed" /\ err <> None).
Proof.
  intros Hn. cbv zeta. unfold _process_tracking_id. rewrite Hn.
  destruct (_reconstruct_request_from_notif n) as [req|]; [|left; split; [reflexivity|exact Hn]].
  destruct (fst (allow_request _ _)); cbn [negb].
  2:{ right. exists "failed", (Some "circuit_open"), 0%Q.
      unfold record_delivery_attempt. simpl. rewrite Hn. simpl.
      rewrite lookup_insert_eq.
      split; [reflexivity|]. split; [reflexivity|]. right. split; [reflexivity | discriminate]. }
  set (cb := snd (allow_request _ _)).
  set (w1 := set_circuit_breakers _ w).
  destruct (consult_rate_limiter_frame env req w1) as (F1 & F2 & _).
  destruct (fst (consult_rate_limiter env req w1)); cbn [negb fst].
  2:{ left. unfold _enqueue_ready. simpl. rewrite F1, F2. split; [reflexivity | exact Hn]. }
  set (w2 := snd (consult_rate_limiter env req w1)) in *.
  right. unfold attempt_send.
  set (w3 := set_notifications _ w2).
  assert (Hn3 : notifications w3 !! tid = Some (set_status "sending" n))
    by (subst w3; simpl; apply lookup_insert_eq).
  assert (Hd3 : delivery_attempts w3 = delivery_attempts w) by (subst w3; simpl; exact F2).
  assert (Hfail : forall msg retry,
            let w4 := handle_failure env tid req (get_retry_plan (req_priority req)) cb
                        (attempts n + 1) msg retry w3 in
            exists st err lat,
              delivery_attempts w4
                = delivery_attempts w
                    ++ [attempt_row tid (attempts n + 1) st lat err None (utcnow env)]
              /\ notifications w4 !! tid
                 = Some (update_parent n (attempts n + 1) st err (utcnow env))
              /\ (st = "delivered" /\ err = None \/ st = "failed" /\ err <> None)).
  { intros msg retry.
    destruct (handle_failure_fields env tid (set_status "sending" n) req
                (get_retry_plan (req_priority req)) cb (attempts n + 1) msg retry w3 Hn3)
      as (G1 & _ & _ & _ & _ & G6).
    cbv zeta. exists "failed", (Some msg), (latency env).
    rewrite G1, G6, Hd3, lookup_insert_eq.
    split; [reflexivity|]. split; [reflexivity|]. right. split; [reflexivity | discriminate]. }
  destruct (dispatch env) as [m|msg|msg|msg]; try apply Hfail.
  exists "delivered", None, (latency env).
  set (w4 := set_circuit_breakers _ w3).
  assert (Hn4 : notifications w4 !! tid = Some (set_status "sending" n)) by exact Hn3.
  destruct (record_delivery_attempt_fields (utcnow env) tid (attempts n + 1) "delivered"
              (latency env) None None w4 _ Hn4) as (G1 & G2 & _).
  cbv zeta in G1, G2. rewrite G1, G2, lookup_insert_eq.
  split; [change (delivery_attempts w4) with (delivery_attempts w3); rewrite Hd3; reflexivity|].
  split; [reflexivity|]. left. split; reflexivity.
Qed.

(** Processing [tid] leaves the rows of every other id alone. *)
Lemma process_other_rows (env : step_env) (tid t : string) (w : World) :
  t <> tid ->
  attempts_of t (fst (_process_tracking_id env tid w)) = attempts_of t w.
Proof.
  intros Hne.
  destruct (notifications w !! tid) as [n|] eqn:Hn.
  - destruct (process_ledger env tid w n Hn) as [[H _]|(st & err & lat & H & _)];
      unfold attempts_of; rewrite H; [reflexivity|].
    rewrite filter_app, filter_cons_False by (simpl; congruence).
    apply app_nil_r.
  - destruct (process_shape env tid w) as (_ & S2 & _). rewrite (S2 Hn). reflexivity.
Qed.

Lemma last_removelast {A : Type} (l : list A) (x : A) :
  last l = Some x -> l = removelast l ++ [x].
Proof.
  induction l as [|a l IH]; [discriminate|].
  destruct l as [|b l']; [intros [= ->]; reflexivity|].
  intros H. change (removelast (a :: b :: l')) with (a :: removelast (b :: l')).
  simpl. f_equal. apply IH. exact H.
Qed.

Lemma one_to_S (k : nat) : one_to (S k) = one_to k ++ [Z.of_nat (S k)].
Proof. unfold one_to. rewrite seq_S, map_app. reflexivity. Qed.

Lemma ledger_start (limiter : option RateLimiter) (cooldown : Q) (t : string) :
  ledger t (initial_world limiter cooldown).
Proof. unfold ledger. simpl. rewrite lookup_empty. reflexivity. Qed.

Lemma ledger_tables (w w' : World) (t : string) :
  notifications w' = notifications w ->
  delivery_attempts w' = delivery_attempts w ->
  ledger t w -> ledger t w'.
Proof. unfold ledger, attempts_of. intros -> ->. exact id. Qed.

Lemma ledger_enqueue (w : World) (new_id : string) (now : Z) (req : NotificationRequest) :
  (forall t, ledger t w) ->
  forall t, ledger t (fst (enqueue_notification new_id now req w)).
Proof.
  intros Hall t. unfold enqueue_notification.
  destruct (notifications w !! new_id) eqn:Hnew; [apply Hall|].
  cbn [fst]. specialize (Hall t). unfold ledger, attempts_of in *. simpl.
  destruct (decide (t = new_id)) as [->|Hne].
  - rewrite Hnew in Hall. rewrite lookup_insert_eq, Hall. simpl.
    repeat split; first [left; reflexivity | constructor].
  - rewrite lookup_insert_ne by congruence. exact Hall.
Qed.

Lemma ledger_requeue (w : World) (i : nat) (t : string) :
  ledger t w -> ledger t (_delayed_requeue i w).
Proof.
  unfold _delayed_requeue.
  destruct (pending_requeues w !! i) as [[[tid prio] delay]|]; [|exact id].
  apply ledger_tables; reflexivity.
Qed.

Lemma ledger_worker (w : World) (env : step_env) :
  (forall t, settled t w) -> (forall t, ledger t w) ->
  forall t, ledger t (_worker_loop_turn env w).
Proof.
  intros Hset Hall t. unfold _worker_loop_turn.
  destruct (queue_get (_ready_queue w)) as [[e q']|] eqn:Hget; [|apply Hall].
  set (tid := entry_tid e). set (wp := set_queue q' (_seq_counter w) w).
  assert (Hwp : forall u, ledger u wp)
    by (intros u; apply (ledger_tables w); [reflexivity | reflexivity | apply Hall]).
  destruct (decide (t = tid)) as [->|Hne].
  2:{ destruct (process_shape env tid wp) as (S1 & _).
      specialize (Hwp t). unfold ledger in *.
      rewrite (process_other_rows env tid t wp Hne), (S1 t Hne). exact Hwp. }
  destruct (notifications w !! tid) as [n|] eqn:Hn.
  2:{ destruct (process_shape env tid wp) as (_ & S2 & _). rewrite (S2 Hn). apply Hwp. }
  (* the popped notification is not delivered yet *)
  assert (Hnd : delivered_at n = None).
  { pose proof (tokens_for_popped tid w e q' Hget) as Hpop.
    rewrite decide_True in Hpop by reflexivity.
    destruct (Hset tid) as (_ & I2 & _).
    destruct (delivered_at n) eqn:E; [|reflexivity].
    destruct (I2 n Hn) as [_ H0]; [congruence | lia]. }
  specialize (Hwp tid).
  destruct (process_ledger env tid wp n Hn) as [[Hrows Hrow]|(st & err & lat & Hrows & Hrow & Hst)].
  - unfold ledger, attempts_of in *. rewrite Hrows, Hrow.
    change (notifications wp) with (notifications w) in Hwp. rewrite Hn in Hwp. exact Hwp.
  - unfold ledger, attempts_of in *. rewrite Hrows, Hrow.
    change (notifications wp) with (notifications w) in Hwp. rewrite Hn in Hwp.
    rewrite filter_app, filter_cons_True by reflexivity.
    change (filter _ []) with (@nil DeliveryAttemptORM).
    destruct Hwp as (Hnum & Hcount & Hold & Hlast).
    assert (Hfailed : Forall (λ r, da_status r = "failed")
                        (filter (λ a, da_tracking_id a = tid) (delivery_attempts wp))).
    { destruct (last (filter (λ a, da_tracking_id a = tid) (delivery_attempts wp)))
        as [r|] eqn:El.
      - rewrite (last_removelast _ r El). apply Forall_app. split; [exact Hold|].
        constructor; [|constructor].
        destruct Hlast as (_ & _ & _ & [(_ & _ & D)|(D & _)]); [congruence | exact D].
      - apply last_None in El. rewrite El. constructor. }
    rewrite removelast_last.
    rewrite map_app, length_app, last_snoc. cbn [length map attempt_number attempt_row].
    rewrite Nat.add_1_r, one_to_S, Hnum, Hcount.
    destruct (update_parent_fields n (Z.of_nat (length (filter (λ a, da_tracking_id a = tid)
                                                          (delivery_attempts wp))) + 1)
                st err (utcnow env)) as (U1 & U2 & U3 & U4 & _).
    split; [f_equal; f_equal; lia|]. split; [rewrite U1; lia|].
    split; [exact Hfailed|].
    cbn [da_status attempted_at error_message].
    destruct Hst as [[-> ->]|[-> Herr]].
    + destruct (U3 eq_refl) as (V1 & V2 & V3). rewrite V1, V2, V3, U2.
      split; [left; reflexivity|]. repeat split. left. repeat split.
    + destruct (U4 (or_introl eq_refl)) as (V1 & V2 & V3). rewrite V1, V2, V3, U2, Hnd.
      split; [left; reflexivity|]. repeat split. right. repeat split. exact Herr.
Qed.

Lemma ledger_suspended (w : World) (env : step_env) :
  (forall t, settled t w) -> (forall t, ledger t w) ->
  forall t, ledger t (suspended_turn env w).
Proof.
  intros Hset Hall t.
  destruct (suspended_turn_shape env w)
    as [E|(e & q' & notif & Hget & Hn & Hrows & _ & _ & _ & Hnot)].
  { rewrite E. apply ledger_worker; assumption. }
  destruct Hnot as [E|E].
  { apply (ledger_tables w); [exact E | exact Hrows | apply Hall]. }
  specialize (Hall t). unfold ledger, attempts_of in *. rewrite Hrows, E.
  destruct (decide (t = entry_tid e)) as [->|Hne].
  2:{ rewrite lookup_insert_ne by congruence. exact Hall. }
  rewrite lookup_insert_eq. rewrite Hn in Hall.
  (* the popped notification is not delivered yet *)
  assert (Hnd : delivered_at notif = None).
  { pose proof (tokens_for_popped (entry_tid e) w e q' Hget) as Hpop.
    rewrite decide_True in Hpop by reflexivity.
    destruct (Hset (entry_tid e)) as (_ & I2 & _).
    destruct (delivered_at notif) eqn:Ed; [|reflexivity].
    destruct (I2 notif Hn) as [_ H0]; [congruence | lia]. }
  destruct Hall as (H1 & H2 & H3 & H4).
  cbn [set_status attempts status last_attempt_at failure_reason delivered_at].
  split; [exact H1|]. split; [exact H2|]. split; [exact H3|].
  destruct (last (filter (λ a, da_tracking_id a = entry_tid e) (delivery_attempts w)))
    as [r|].
  - destruct H4 as (_ & L & F & [(_ & _ & D)|(D1 & D2 & D3)]); [congruence|].
    split; [right; split; [reflexivity | exact D1]|].
    split; [exact L|]. split; [exact F|]. right. repeat split; assumption.
  - destruct H4 as (_ & L & F & D).
    split; [right; reflexivity|]. repeat split; assumption.
Qed.

Lemma reachable_ledger (w : World) : reachable w -> forall t, ledger t w.
Proof.
  induction 1 as [limiter cooldown | w new_id now req _ IH | w env Hr IH
                  | w i _ IH | w limiter cooldown _ IH | w env Hr IH]; intros t.
  - apply ledger_start.
  - apply ledger_enqueue. exact IH.
  - apply ledger_worker; [apply reachable_settled; exact Hr | exact IH].
  - apply ledger_requeue. apply IH.
  - apply (ledger_tables w); [reflexivity | reflexivity | apply IH].
  - apply ledger_suspended; [apply reachable_settled; exact Hr | exact IH].
Qed.

Lemma reachable_delivered_world : reachable delivered_world.
Proof. apply reach_worker. apply reach_enqueue. apply reach_start. Qed.

(** X8.  In every state the pipeline reaches, the attempt rows of a
    notification are numbered 1, 2, 3, ... without gap or repetition in
    the order they were written, the [attempts] column is their count, and
    no attempt row refers to a tracking id that has no notification. *)
Theorem attempt_rows_are_numbered_in_order (w : World) (tid : string) :
  reachable w ->
  (notifications w !! tid = None -> attempts_of tid w = [])
  /\ (forall n, notifications w !! tid = Some n ->
        map attempt_number (attempts_of tid w) = one_to (Z.to_nat (attempts n))
        /\ attempts n = Z.of_nat (length (attempts_of tid w))).
Proof.
  intros Hr. pose proof (reachable_ledger w Hr tid) as L. unfold ledger in L.
  split.
  - intros Hn. rewrite Hn in L. exact L.
  - intros n Hn. rewrite Hn in L. destruct L as (L1 & L2 & _).
    rewrite L2, Nat2Z.id. split; [exact L1 | reflexivity].
Qed.

Lemma attempt_rows_are_numbered_in_order_witness :
  map attempt_number (attempts_of "n1" delivered_world) = [1%Z]
  /\ attempts sample_row_delivered = 1%Z.
Proof.
  destruct (attempt_rows_are_numbered_in_order delivered_world "n1" reachable_delivered_world)
    as [_ H].
  destruct (H sample_row_delivered) as [H1 H2]; [vm_compute; reflexivity|].
  split; [exact H1 | reflexivity].
Defined.

(** X9.  In every state the pipeline reaches, also while a send is under
    way or after one was cut off, [last_attempt_at], [failure_reason] and
    [delivered_at] of a notification mirror its last attempt row: the
    time of the row, its error message, and its time when the row is a
    delivered one (which has no error) or nothing when it is a failed one
    (which has an error); without attempt rows the three columns are
    unset.  The status is that of the last row, or queued without rows,
    except that it reads sending from the moment a send begins until its
    outcome is recorded, which can only be before the first row or after a
    failed one. *)
Theorem notification_mirrors_last_attempt (w : World) (tid : string) (n : NotificationORM) :
  reachable w ->
  notifications w !! tid = Some n ->
  (attempts_of tid w = [] ->
     (status n = "queued" \/ status n = "sending")
     /\ last_attempt_at n = None
     /\ failure_reason n = None /\ delivered_at n = None)
  /\ (forall r, last (attempts_of tid w) = Some r ->
        (status n = da_status r \/ status n = "sending" /\ da_status r = "failed")
        /\ last_attempt_at n = Some (attempted_at r)
        /\ failure_reason n = error_message r
        /\ (da_status r = "delivered" /\ error_message r = None
            /\ delivered_at n = Some (attempted_at r)
            \/ da_status r = "failed" /\ error_message r <> None
               /\ delivered_at n = None)).
Proof.
  intros Hr Hn. pose proof (reachable_ledger w Hr tid) as L. unfold ledger in L.
  rewrite Hn in L. destruct L as (_ & _ & _ & L). split.
  - intros He. rewrite He in L. exact L.
  - intros r Hl. rewrite Hl in L. exact L.
Qed.

Lemma reachable_sending_world : reachable sending_world.
Proof. apply reach_suspended. apply reach_enqueue. apply reach_start. Qed.

Lemma notification_mirrors_last_attempt_witness :
  (last_attempt_at sample_row_delivered = Some 1000000%Z
   /\ failure_reason sample_row_delivered = None)
  /\ (last_attempt_at (set_status "sending" (sample_row "normal")) = None
      /\ delivered_at (set_status "sending" (sample_row "normal")) = None).
Proof.
  split.
  - destruct (notification_mirrors_last_attempt delivered_world "n1" sample_row_delivered
                reachable_delivered_world) as [_ H]; [vm_compute; reflexivity|].
    destruct (H (attempt_row "n1" 1 "delivered" 5 None None 1000000))
      as (_ & H2 & H3 & _); [vm_compute; reflexivity|].
    split; [exact H2 | exact H3].
  - destruct (notification_mirrors_last_attempt sending_world "n1"
                (set_status "sending" (sample_row "normal")) reachable_sending_world)
      as [H _]; [vm_compute; reflexivity|].
    destruct H as (_ & H2 & _ & H4); [vm_compute; reflexivity|].
    split; [exact H2 | exact H4].
Defined.

(** *** The status query *)




(** X11.  In every state the pipeline reaches, a tracking id waits at
    most once (as a queue entry or behind a retry timer), a delivered
    notification does not wait at all, and a delivered attempt row is the
    last row of its notification: nothing is attempted after a delivery. *)
Theorem nothing_is_attempted_after_delivery (w : World) (tid : string) :
  reachable w ->
  (tokens_for tid w <= 1)%nat
  /\ (forall n, notifications w !! tid = Some n -> status n = "delivered" ->
        tokens_for tid w = 0%nat)
  /\ (forall i r, attempts_of tid w !! i = Some r -> da_status r = "delivered" ->
        S i = length (attempts_of tid w)).
Proof.
  intros Hr.
  destruct (reachable_settled w Hr tid) as (I1 & I2 & I3).
  pose proof (reachable_ledger w Hr tid) as L. unfold ledger in L.
  split; [exact I1|]. split.
  - intros n Hn Hst. rewrite Hn in L. destruct L as (_ & _ & _ & L).
    destruct (last (attempts_of tid w)) as [r|].
    + destruct L as (E & _ & _ & [(_ & _ & D)|(D & _)]).
      * apply (I2 n Hn). congruence.
      * destruct E as [E|[E _]]; congruence.
    + destruct L as ([E|E] & _); congruence.
  - intros i r Hi Hd.
    destruct (notifications w !! tid) as [n|]; [|rewrite L in Hi; discriminate].
    destruct L as (_ & _ & Hold & _).
    destruct (last (attempts_of tid w)) as [x|] eqn:El.
    2:{ apply last_None in El. rewrite El in Hi. discriminate. }
    rewrite (last_removelast _ x El) in Hi |- *.
    rewrite length_app. simpl.
    destruct (decide (i < length (removelast (attempts_of tid w)))%nat) as [Hlt|Hge].
    + rewrite lookup_app_l in Hi by exact Hlt.
      pose proof (proj1 (Forall_lookup _ _) Hold i r Hi) as Hf. simpl in Hf. congruence.
    + apply lookup_lt_Some in Hi. rewrite length_app in Hi. simpl in Hi. lia.
Qed.

Lemma nothing_is_attempted_after_delivery_witness :
  (tokens_for "n1" delivered_world <= 1)%nat
  /\ tokens_for "n1" delivered_world = 0%nat
  /\ 1%nat = length (attempts_of "n1" delivered_world).
Proof.
  destruct (nothing_is_attempted_after_delivery delivered_world "n1" reachable_delivered_world)
    as (H1 & H2 & H3).
  split; [exact H1|]. split.
  - apply (H2 sample_row_delivered); [vm_compute; reflexivity | reflexivity].
  - apply (H3 0%nat (attempt_row "n1" 1 "delivered" 5 None None 1000000));
      [vm_compute; reflexivity | reflexivity].
Defined.

(** ** Worker turns *)

(** A worker turn on an entry whose notification exists and rebuilds to
    [req], stage by stage. *)
Lemma worker_turn_stages
    (env : step_env) (w : World) (e : QueueEntry) (q' : list QueueEntry)
    (notif : NotificationORM) (req : NotificationRequest) :
  queue_get (_ready_queue w) = Some (e, q') ->
  notifications w !! entry_tid e = Some notif ->
  _reconstruct_request_from_notif notif = Some req ->
  let r := allow_request (t_allow env) (_get_or_create_cb (req_recipient req) w) in
  let w1 := set_circuit_breakers (<[req_recipient req := snd r]> (_circuit_breakers w))
              (set_queue q' (_seq_counter w) w) in
  _worker_loop_turn env w =
    if negb (fst r) then
      record_delivery_attempt (utcnow env) (entry_tid e) (attempts notif + 1) "failed" 0
        (Some "circuit_open") None w1
    else if negb (fst (consult_rate_limiter env req w1)) then
      _enqueue_ready (entry_tid e) (req_priority req) (snd (consult_rate_limiter env req w1))
    else
      attempt_send env (entry_tid e) notif req (get_retry_plan (req_priority req)) (snd r)
        (snd (consult_rate_limiter env req w1)).
Proof.
  intros Hget Hn Hreq. cbv zeta.
  unfold _worker_loop_turn. rewrite Hget.
  unfold _process_tracking_id. simpl notifications. rewrite Hn, Hreq.
  change (_get_or_create_cb (req_recipient req) (set_queue q' (_seq_counter w) w))
    with (_get_or_create_cb (req_recipient req) w).
  destruct (fst (allow_request _ _)); cbn [negb fst]; [|reflexivity].
  destruct (fst (consult_rate_limiter _ _ _)); reflexivity.
Qed.

Lemma record_delivery_attempt_breakers
    (now : Z) (tid : string) (number : Z) (st : string) (latency_ms : Q)
    (error : option string) (code : option Z) (w : World) :
  _circuit_breakers (record_delivery_attempt now tid number st latency_ms error code w)
    = _circuit_breakers w.
Proof. unfold record_delivery_attempt. destruct (notifications w !! tid); reflexivity. Qed.

(** The breakers after [attempt_send]: only the one of the recipient is
    written, with the outcome of the dispatch. *)
Lemma attempt_send_breakers
    (env : step_env) (tid : string) (notif : NotificationORM) (req : NotificationRequest)
    (plan : RetryPlan) (cb : CircuitBreaker) (w : World) :
  _circuit_breakers (attempt_send env tid notif req plan cb w)
    = <[req_recipient req :=
          match dispatch env with
          | Sent _ => on_success cb
          | _ => on_failure (t_failure env) cb
          end]> (_circuit_breakers w).
Proof.
  unfold attempt_send, handle_failure.
  destruct (dispatch env); try destruct (_ && _);
    cbn [set_pending_requeues _circuit_breakers];
    rewrite record_delivery_attempt_breakers; reflexivity.
Qed.

(** What a worker turn does to the breakers: nothing, or it writes the
    breaker of the recipient of the popped notification and no other. *)
Lemma worker_turn_breakers (env : step_env) (w : World) :
  _circuit_breakers (_worker_loop_turn env w) = _circuit_breakers w
  \/ exists e q' notif req,
       queue_get (_ready_queue w) = Some (e, q')
       /\ notifications w !! entry_tid e = Some notif
       /\ _reconstruct_request_from_notif notif = Some req
       /\ (forall r, r <> req_recipient req ->
             _circuit_breakers (_worker_loop_turn env w) !! r = _circuit_breakers w !! r).
Proof.
  destruct (queue_get (_ready_queue w)) as [[e q']|] eqn:Hget.
  2:{ left. unfold _worker_loop_turn. rewrite Hget. reflexivity. }
  destruct (notifications w !! entry_tid e) as [notif|] eqn:Hn.
  2:{ left. unfold _worker_loop_turn, _process_tracking_id. rewrite Hget. simpl notifications.
      rewrite Hn. reflexivity. }
  destruct (_reconstruct_request_from_notif notif) as [req|] eqn:Hreq.
  2:{ left. unfold _worker_loop_turn, _process_tracking_id. rewrite Hget. simpl notifications.
      rewrite Hn, Hreq. reflexivity. }
  right. exists e, q', notif, req.
  split; [reflexivity|]. split; [exact Hn|]. split; [exact Hreq|].
  intros r Hne.
  rewrite (worker_turn_stages env w e q' notif req Hget Hn Hreq). cbv zeta.
  set (w1 := set_circuit_breakers _ _).
  destruct (consult_rate_limiter_frame env req w1) as (_ & _ & _ & _ & F5 & _).
  destruct (negb (fst (allow_request _ _))).
  - rewrite record_delivery_attempt_breakers. subst w1. simpl.
    apply lookup_insert_ne. congruence.
  - destruct (negb (fst (consult_rate_limiter env req w1))).
    + unfold _enqueue_ready. cbn [set_queue _circuit_breakers]. rewrite F5. subst w1. simpl.
      apply lookup_insert_ne. congruence.
    + rewrite attempt_send_breakers, F5. subst w1. simpl.
      rewrite !lookup_insert_ne by congruence. reflexivity.
Qed.

Lemma reaches_dispatch_stages
    (env : step_env) (w : World) (q' : list QueueEntry) (tid : string)
    (notif : NotificationORM) (req : NotificationRequest) :
  notifications w !! tid = Some notif ->
  _reconstruct_request_from_notif notif = Some req ->
  reaches_dispatch env tid w = true ->
  let r := allow_request (t_allow env) (_get_or_create_cb (req_recipient req) w) in
  let w1 := set_circuit_breakers (<[req_recipient req := snd r]> (_circuit_breakers w))
              (set_queue q' (_seq_counter w) w) in
  fst r = true /\ fst (consult_rate_limiter env req w1) = true.
Proof.
  intros Hn Hreq Hreach. cbv zeta.
  unfold reaches_dispatch in Hreach. rewrite Hn, Hreq in Hreach.
  apply andb_true_iff in Hreach as [Hcb Hrl].
  split; [exact Hcb|].
  unfold consult_rate_limiter. simpl.
  destruct (_rate_limiter w); simpl; [assumption | reflexivity].
Qed.

(** X12.  A worker turn that reaches the adapter and gets a success:
    one delivered attempt row with the next number and the measured
    latency is appended, the notification becomes delivered with
    [delivered_at] and [last_attempt_at] the time of the attempt and a
    cleared [failure_reason], the breaker of the recipient is closed with
    its failure count reset, and nothing is queued or scheduled. *)
Theorem successful_turn_delivers
    (env : step_env) (w : World) (e : QueueEntry) (q' : list QueueEntry)
    (notif : NotificationORM) (req : NotificationRequest) (m : send_metadata) :
  queue_get (_ready_queue w) = Some (e, q') ->
  notifications w !! entry_tid e = Some notif ->
  _reconstruct_request_from_notif notif = Some req ->
  reaches_dispatch env (entry_tid e) w = true ->
  dispatch env = Sent m ->
  let w' := _worker_loop_turn env w in
  delivery_attempts w'
    = delivery_attempts w
        ++ [attempt_row (entry_tid e) (attempts notif + 1) "delivered" (latency env)
              None None (utcnow env)]
  /\ _ready_queue w' = q'
  /\ _seq_counter w' = _seq_counter w
  /\ pending_requeues w' = pending_requeues w
  /\ (exists cb, _circuit_breakers w' !! req_recipient req = Some cb
        /\ state cb = closed /\ failure_count cb = 0%Z /\ opened_at cb = None
        /\ half_open_probe_in_flight cb = false)
  /\ (exists n', notifications w' !! entry_tid e = Some n'
        /\ status n' = "delivered"
        /\ delivered_at n' = Some (utcnow env)
        /\ last_attempt_at n' = Some (utcnow env)
        /\ failure_reason n' = None
        /\ attempts n' = Z.max (attempts notif) (attempts notif + 1)).
Proof.
  intros Hget Hn Hreq Hreach Hd w'. subst w'.
  rewrite (worker_turn_stages env w e q' notif req Hget Hn Hreq). cbv zeta.
  destruct (reaches_dispatch_stages env w q' (entry_tid e) notif req Hn Hreq Hreach)
    as [Hcb Hrl].
  cbv zeta in Hcb, Hrl. rewrite Hcb, Hrl. cbn [negb].
  set (cb := snd (allow_request _ _)).
  set (w1 := set_circuit_breakers _ _).
  destruct (consult_rate_limiter_frame env req w1) as (F1 & F2 & F3 & F4 & F5 & F6).
  set (w2 := snd (consult_rate_limiter env req w1)) in *.
  rewrite attempt_send_breakers, Hd.
  unfold attempt_send. rewrite Hd.
  set (w3 := set_notifications _ w2).
  set (w4 := set_circuit_breakers _ w3).
  assert (Hn4 : notifications w4 !! entry_tid e = Some (set_status "sending" notif))
    by (subst w4 w3; simpl; apply lookup_insert_eq).
  destruct (record_delivery_attempt_fields (utcnow env) (entry_tid e) (attempts notif + 1)
              "delivered" (latency env) None None w4 _ Hn4)
    as (G1 & G2 & G3 & G4 & _ & _ & G7).
  cbv zeta in G1, G2, G3, G4, G7. rewrite G1, G2, G3, G4, G7.
  split; [subst w4 w3; simpl; rewrite F2; reflexivity|].
  split; [subst w4 w3; simpl; rewrite F3; reflexivity|].
  split; [subst w4 w3; simpl; rewrite F4; reflexivity|].
  split; [subst w4 w3; simpl; rewrite F6; reflexivity|].
  split.
  - exists (on_success cb). rewrite lookup_insert_eq. repeat split; reflexivity.
  - eexists. rewrite lookup_insert_eq. split; [reflexivity|].
    repeat split; reflexivity.
Qed.

Lemma successful_turn_delivers_witness :
  delivery_attempts delivered_world = [attempt_row "n1" 1 "delivered" 5 None None 1000000]
  /\ _ready_queue delivered_world = []
  /\ pending_requeues delivered_world = [].
Proof.
  destruct (successful_turn_delivers (sample_env 1 sample_success) (sample_world "normal")
              (2, 1, "n1")%Z [] (sample_row "normal") (sample_request "normal")
              {| provider := "http"; status_code := Some 200%Z; latency_ms := 5 |})
    as (H1 & H2 & _ & H4 & _); try (vm_compute; reflexivity).
  split; [exact H1 | split; [exact H2 | exact H4]].
Defined.

(** X13.  A permanent channel error is never retried, whatever the
    priority and however few attempts were made: the turn appends one
    failed row carrying the adapter's message, counts the failure on the
    breaker of the recipient, marks the notification failed with that
    message, and neither queues the id nor starts a retry timer. *)
Theorem permanent_error_is_not_retried
    (env : step_env) (w : World) (e : QueueEntry) (q' : list QueueEntry)
    (notif : NotificationORM) (req : NotificationRequest) (msg : string) :
  queue_get (_ready_queue w) = Some (e, q') ->
  notifications w !! entry_tid e = Some notif ->
  _reconstruct_request_from_notif notif = Some req ->
  reaches_dispatch env (entry_tid e) w = true ->
  dispatch env = PermanentChannelError msg ->
  let w' := _worker_loop_turn env w in
  delivery_attempts w'
    = delivery_attempts w
        ++ [failed_row (entry_tid e) (attempts notif + 1) (latency env) msg (utcnow env)]
  /\ _ready_queue w' = q'
  /\ pending_requeues w' = pending_requeues w
  /\ _circuit_breakers w' !! req_recipient req
     = Some (on_failure (t_failure env)
               (snd (allow_request (t_allow env) (_get_or_create_cb (req_recipient req) w))))
  /\ (exists n', notifications w' !! entry_tid e = Some n'
        /\ status n' = "failed" /\ failure_reason n' = Some msg
        /\ delivered_at n' = delivered_at notif).
Proof.
  intros Hget Hn Hreq Hreach Hd w'.
  destruct (worker_turn_failure env w e q' notif req msg false Hget Hn Hreq Hreach
              (or_introl (conj Hd eq_refl))) as (G1 & G2 & G3 & _ & G5 & G6).
  cbv zeta in G1, G2, G3, G5, G6. subst w'.
  split; [exact G1|]. split; [exact G3|].
  split; [rewrite G5; apply app_nil_r|]. split; [exact G2|].
  rewrite G6, lookup_insert_eq. eexists. split; [reflexivity|].
  rewrite update_parent_failed. repeat split; reflexivity.
Qed.

Lemma permanent_error_is_not_retried_witness :
  let w' := _worker_loop_turn
              (sample_env 1 (PermanentChannelError "Webhook client error 404: gone"))
              (sample_world "critical") in
  delivery_attempts w' = [failed_row "n1" 1 5 "Webhook client error 404: gone" 1000000]
  /\ _ready_queue w' = []
  /\ pending_requeues w' = [].
Proof.
  intros w'.
  destruct (permanent_error_is_not_retried
              (sample_env 1 (PermanentChannelError "Webhook client error 404: gone"))
              (sample_world "critical") (0, 1, "n1")%Z [] (sample_row "critical")
              (sample_request "critical") "Webhook client error 404: gone")
    as (H1 & H2 & H3 & _); try (vm_compute; reflexivity).
  split; [exact H1 | split; [exact H2 | exact H3]].
Defined.

(** X14.  A worker turn in which the breaker allows and the rate limiter
    refuses: no attempt row is written and the notification is left as it
    is (its status does not become sending), no retry timer is started,
    and the id goes back to the end of the queue at the rank of its
    priority with the next sequence number.  The breaker is stored as
    [allow_request] left it and the limiter as [allow] left it. *)
Theorem rate_limited_turn_requeues
    (env : step_env) (w : World) (e : QueueEntry) (q' : list QueueEntry)
    (notif : NotificationORM) (req : NotificationRequest) (rl : RateLimiter) :
  queue_get (_ready_queue w) = Some (e, q') ->
  notifications w !! entry_tid e = Some notif ->
  _reconstruct_request_from_notif notif = Some req ->
  fst (allow_request (t_allow env) (_get_or_create_cb (req_recipient req) w)) = true ->
  _rate_limiter w = Some rl ->
  fst (allow ("recipient:" +:+ req_recipient req) 1 (t_bucket env) (t_consume env) rl) = false ->
  let w' := _worker_loop_turn env w in
  delivery_attempts w' = delivery_attempts w
  /\ notifications w' = notifications w
  /\ pending_requeues w' = pending_requeues w
  /\ _ready_queue w'
     = q' ++ [(_priority_value (req_priority req), (_seq_counter w + 1)%Z, entry_tid e)]
  /\ _seq_counter w' = (_seq_counter w + 1)%Z
  /\ _circuit_breakers w'
     = <[req_recipient req :=
           snd (allow_request (t_allow env) (_get_or_create_cb (req_recipient req) w))]>
         (_circuit_breakers w)
  /\ _rate_limiter w'
     = Some (snd (allow ("recipient:" +:+ req_recipient req) 1
                    (t_bucket env) (t_consume env) rl)).
Proof.
  intros Hget Hn Hreq Hcb Hrl Hno w'. subst w'.
  rewrite (worker_turn_stages env w e q' notif req Hget Hn Hreq). cbv zeta.
  rewrite Hcb. cbn [negb].
  unfold consult_rate_limiter. cbn [_rate_limiter set_circuit_breakers set_queue].
  rewrite Hrl. cbn [fst snd]. rewrite Hno. cbn [negb].
  repeat split; reflexivity.
Qed.

Lemma rate_limited_turn_requeues_witness :
  let w' := _worker_loop_turn (sample_env 70 sample_success) throttled_world in
  delivery_attempts w' = []
  /\ pending_requeues w' = []
  /\ _ready_queue w' = [(2, 2, "n1")%Z].
Proof.
  intros w'.
  destruct (rate_limited_turn_requeues (sample_env 70 sample_success) throttled_world
              (2, 1, "n1")%Z [] (sample_row "normal") (sample_request "normal")
              (snd (allow ("recipient:" +:+ hook) 1 70 70 (new_limiter 1 (1 # 100)))))
    as (H1 & _ & H3 & H4 & _); try (vm_compute; reflexivity).
  split; [exact H1 | split; [exact H3 | exact H4]].
Defined.

(** *** A probe that the rate limiter turns away *)

Lemma allow_request_probe (now : Q) (cb : CircuitBreaker) :
  state cb <> closed ->
  fst (allow_request now cb) = true ->
  state (snd (allow_request now cb)) = half_open
  /\ half_open_probe_in_flight (snd (allow_request now cb)) = true.
Proof.
  intros Hs Ha.
  destruct (allow_request_cases now cb)
    as [[E H]|[[E H]|[[E H]|[[E H]|[[E H]|[E H]]]]]]; rewrite E in Ha |- *;
    simpl in Ha; try discriminate.
  - congruence.
  - split; reflexivity.
  - simpl. split; [apply H | reflexivity].
Qed.

(** X15.  When a breaker that is not closed lets a request through (as
    the probe after its cooldown) and the rate limiter then refuses the
    request, the turn ends without an attempt and without an outcome for
    the breaker: the breaker stays half-open with its probe handed out. *)
Theorem rate_limited_probe_stays_outstanding
    (env : step_env) (w : World) (e : QueueEntry) (q' : list QueueEntry)
    (notif : NotificationORM) (req : NotificationRequest) (rl : RateLimiter) :
  queue_get (_ready_queue w) = Some (e, q') ->
  notifications w !! entry_tid e = Some notif ->
  _reconstruct_request_from_notif notif = Some req ->
  state (_get_or_create_cb (req_recipient req) w) <> closed ->
  fst (allow_request (t_allow env) (_get_or_create_cb (req_recipient req) w)) = true ->
  _rate_limiter w = Some rl ->
  fst (allow ("recipient:" +:+ req_recipient req) 1 (t_bucket env) (t_consume env) rl) = false ->
  probe_outstanding (req_recipient req) (_worker_loop_turn env w)
  /\ delivery_attempts (_worker_loop_turn env w) = delivery_attempts w.
Proof.
  intros Hget Hn Hreq Hs Hcb Hrl Hno.
  rewrite (worker_turn_stages env w e q' notif req Hget Hn Hreq). cbv zeta.
  rewrite Hcb. cbn [negb].
  unfold consult_rate_limiter. cbn [_rate_limiter set_circuit_breakers set_queue].
  rewrite Hrl. cbn [fst snd]. rewrite Hno. cbn [negb].
  split; [|reflexivity].
  exists (snd (allow_request (t_allow env) (_get_or_create_cb (req_recipient req) w))).
  split; [simpl; apply lookup_insert_eq|].
  apply allow_request_probe; assumption.
Qed.

Lemma rate_limited_probe_stays_outstanding_witness :
  probe_outstanding hook stalled_world /\ delivery_attempts stalled_world = [].
Proof.
  apply (rate_limited_probe_stays_outstanding (sample_env 70 sample_success) throttled_world
           (2, 1, "n1")%Z [] (sample_row "normal") (sample_request "normal")
           (snd (allow ("recipient:" +:+ hook) 1 70 70 (new_limiter 1 (1 # 100)))));
    try (vm_compute; reflexivity).
  vm_compute. discriminate.
Defined.

(** X16.  While worker turns do not overlap, a handed-out probe that has
    no outcome is never taken back: admissions, retry timers and worker
    turns at any time leave the breaker half-open with the probe out, and
    every notification for that recipient that a worker takes up is
    failed with ["circuit_open"] without reaching the adapter and without
    a retry. *)
Theorem outstanding_probe_fails_later_attempts (w : World) (r : string) :
  probe_outstanding r w ->
  (forall env, probe_outstanding r (_worker_loop_turn env w))
  /\ (forall new_id now rq, probe_outstanding r (fst (enqueue_notification new_id now rq w)))
  /\ (forall i, probe_outstanding r (_delayed_requeue i w))
  /\ (forall env e q' notif req,
        queue_get (_ready_queue w) = Some (e, q') ->
        notifications w !! entry_tid e = Some notif ->
        _reconstruct_request_from_notif notif = Some req ->
        req_recipient req = r ->
        delivery_attempts (_worker_loop_turn env w)
          = delivery_attempts w
              ++ [failed_row (entry_tid e) (attempts notif + 1) 0 "circuit_open" (utcnow env)]
        /\ _ready_queue (_worker_loop_turn env w) = q'
        /\ pending_requeues (_worker_loop_turn env w) = pending_requeues w).
Proof.
  intros (cb & Hcb & Hs & Hp).
  assert (Hno : forall now, allow_request now cb = (false, cb)).
  { intros now. rewrite (allow_request_half_open now cb Hs), Hp. reflexivity. }
  assert (Hturn : forall env e q' notif req,
            queue_get (_ready_queue w) = Some (e, q') ->
            notifications w !! entry_tid e = Some notif ->
            _reconstruct_request_from_notif notif = Some req ->
            req_recipient req = r ->
            _worker_loop_turn env w
            = record_delivery_attempt (utcnow env) (entry_tid e) (attempts notif + 1) "failed" 0
                (Some "circuit_open") None
                (set_circuit_breakers (<[r := cb]> (_circuit_breakers w))
                   (set_queue q' (_seq_counter w) w))).
  { intros env e q' notif req Hget Hn Hreq Hr.
    rewrite (worker_turn_stages env w e q' notif req Hget Hn Hreq). cbv zeta.
    unfold _get_or_create_cb. rewrite Hr, Hcb, Hno. reflexivity. }
  split; [|split; [|split]].
  - intros env.
    destruct (worker_turn_breakers env w) as [E|(e & q' & notif & req & Hget & Hn & Hreq & Ho)].
    + exists cb. rewrite E. auto.
    + destruct (decide (r = req_recipient req)) as [Hr|Hr].
      * exists cb. rewrite (Hturn env e q' notif req Hget Hn Hreq (eq_sym Hr)).
        rewrite record_delivery_attempt_breakers. simpl. rewrite lookup_insert_eq. auto.
      * exists cb. rewrite (Ho r Hr). auto.
  - intros new_id now rq. exists cb. unfold enqueue_notification.
    destruct (notifications w !! new_id); simpl; auto.
  - intros i. exists cb. unfold _delayed_requeue.
    destruct (pending_requeues w !! i) as [[[tid prio] delay]|]; simpl; auto.
  - intros env e q' notif req Hget Hn Hreq Hr.
    rewrite (Hturn env e q' notif req Hget Hn Hreq Hr).
    unfold record_delivery_attempt. simpl. rewrite Hn. simpl.
    repeat split; reflexivity.
Qed.

Lemma outstanding_probe_fails_later_attempts_witness :
  probe_outstanding hook (_worker_loop_turn (sample_env 5000 sample_success) stalled_world)
  /\ delivery_attempts (_worker_loop_turn (sample_env 5000 sample_success) stalled_world)
     = [failed_row "n1" 1 0 "circuit_open" 5000000000].
Proof.
  assert (H : probe_outstanding hook stalled_world).
  { eexists. split; [vm_compute; reflexivity|]. split; reflexivity. }
  destruct (outstanding_probe_fails_later_attempts stalled_world hook H) as (H1 & _ & _ & H4).
  split; [apply H1|].
  refine (proj1 (H4 (sample_env 5000 sample_success) (2, 2, "n1")%Z [] (sample_row "normal")
                   (sample_request "normal") _ _ _ _)); vm_compute; reflexivity.
Defined.

(** ** The queue in use *)













(** ** Admission and the worker's view of the stored row *)

Lemma lstrip_head (s : string) :
  lstrip s = EmptyString
  \/ exists c r, lstrip s = String c r /\ is_space c = false.
Proof.
  induction s as [|c s IH]; [left; reflexivity|].
  simpl. destruct (is_space c) eqn:E; [exact IH|].
  right. exists c, s. split; [reflexivity | exact E].
Qed.

Lemma rstrip_head (c : ascii) (s : string) :
  is_space c = false -> rstrip (String c s) = String c (rstrip s).
Proof. intros E. simpl. rewrite E. destruct (rstrip s); reflexivity. Qed.

Lemma rstrip_idempotent (s : string) : rstrip (rstrip s) = rstrip s.
Proof.
  induction s as [|c s IH]; [reflexivity|].
  cbn [rstrip]. destruct (rstrip s) as [|d r] eqn:E.
  - destruct (is_space c) eqn:Ec; [reflexivity|]. simpl. rewrite Ec. reflexivity.
  - cbn [rstrip]. cbn [rstrip] in IH.
    destruct (match rstrip r with
              | EmptyString => if is_space d then EmptyString else String d EmptyString
              | String a s0 => String d (String a s0)
              end) eqn:E2; [discriminate IH|].
    rewrite IH. reflexivity.
Qed.

Lemma strip_idempotent (s : string) : strip (strip s) = strip s.
Proof.
  unfold strip. destruct (lstrip_head s) as [E|(c & r & E & Hc)]; rewrite E.
  - reflexivity.
  - rewrite (rstrip_head c r Hc). simpl lstrip. rewrite Hc.
    rewrite (rstrip_head c _ Hc), rstrip_idempotent. reflexivity.
Qed.

(** X18.  A request that passed the schema's validation and is admitted
    under a fresh id is stored as a queued notification without attempts,
    and the worker can always rebuild a request from that row: the second
    validation accepts it (the stripped recipient is stripped again and
    stays the same), with the channel, recipient, priority and template id
    of the admitted request. *)
Theorem admitted_request_is_rebuilt
    (channel recipient : string) (template_id : option string)
    (content variables metadata : json) (priority : string)
    (req : NotificationRequest) (new_id : string) (now : Z) (w : World) :
  make_request channel recipient template_id content variables metadata priority = Some req ->
  notifications w !! new_id = None ->
  snd (enqueue_notification new_id now req w) = Some new_id
  /\ exists n req',
       notifications (fst (enqueue_notification new_id now req w)) !! new_id = Some n
       /\ status n = "queued" /\ attempts n = 0%Z
       /\ _reconstruct_request_from_notif n = Some req'
       /\ req_channel req' = req_channel req
       /\ req_recipient req' = req_recipient req
       /\ req_priority req' = req_priority req
       /\ req_template_id req' = req_template_id req.
Proof.
  intros Hreq Hnew. unfold enqueue_notification. rewrite Hnew. cbn [fst snd].
  split; [reflexivity|].
  unfold make_request in Hreq.
  destruct (bool_decide (channel ∈ Channel)) eqn:Hc; [|discriminate].
  destruct (bool_decide (priority ∈ Priority)) eqn:Hp; [|discriminate].
  destruct (negb (String.eqb (strip recipient) "")) eqn:Hr; [|discriminate].
  simpl in Hreq. injection Hreq as <-.
  eexists. eexists.
  split; [cbn [_enqueue_ready set_queue set_notifications notifications];
          apply lookup_insert_eq|].
  split; [reflexivity|]. split; [reflexivity|].
  unfold _reconstruct_request_from_notif, make_request.
  cbn [queue_service.channel queue_service.recipient queue_service.priority
       queue_service.content sc_template_id sc_content sc_variables sc_metadata
       req_channel req_recipient req_priority req_template_id req_content
       req_variables req_metadata].
  rewrite Hc, Hp, strip_idempotent, Hr. cbn [andb].
  split; [reflexivity|]. repeat split; reflexivity.
Qed.

Lemma admitted_request_is_rebuilt_witness :
  snd (enqueue_notification "n1" 0 (sample_request "high") (initial_world None 60))
    = Some "n1"
  /\ exists n req',
       notifications (fst (enqueue_notification "n1" 0 (sample_request "high")
                             (initial_world None 60))) !! "n1" = Some n
       /\ status n = "queued" /\ attempts n = 0%Z
       /\ _reconstruct_request_from_notif n = Some req'
       /\ req_channel req' = "webhook"
       /\ req_recipient req' = hook
       /\ req_priority req' = "high"
       /\ req_template_id req' = None.
Proof.
  apply (admitted_request_is_rebuilt "webhook" ("  " +:+ hook) None "{}" "{}" "{}" "high"
           (sample_request "high") "n1" 0 (initial_world None 60)).
  - vm_compute. reflexivity.
  - apply lookup_empty.
Defined.

(** ** Scans of the schedule table *)

Section Scans.

Variable zone : string -> option (Z -> Z).
Variable croniter_next : string -> string -> Z -> option Z.

Lemma process_schedule_passed_over
    (now_utc : Z) (new_id : string) (utcnow : Z) (i : nat) (st : scan_state)
    (r : ScheduledNotificationORM) :
  session st !! i = Some r ->
  passed_over zone now_utc r ->
  (if active r then process_schedule zone croniter_next now_utc new_id utcnow i st else st)
  = st.
Proof.
  intros Hi Hp. destruct (active r) eqn:Ha; [|reflexivity].
  unfold process_schedule. rewrite Hi. fold (zone_name r).
  destruct Hp as [H|[H|[H|[(u & H & Hu)|H]]]].
  - congruence.
  - destruct (_to_utc zone (send_at r) (zone_name r)); [|reflexivity].
    destruct (_ <=? _)%Z; [|reflexivity].
    destruct (last_run r); [reflexivity | congruence].
  - rewrite H. reflexivity.
  - rewrite H. replace (u <=? now_utc)%Z with false; [reflexivity|].
    symmetry. apply Z.leb_gt. exact Hu.
  - destruct (_to_utc zone (send_at r) (zone_name r)); [|reflexivity].
    destruct (_ <=? _)%Z; [|reflexivity].
    destruct (last_run r); [reflexivity|]. rewrite H. reflexivity.
Qed.

Lemma scan_rows_passed_over (now_utc : Z) (rows : list ScheduledNotificationORM) :
  forall (i : nat) (draws : list (string * Z)) (st : scan_state),
    (forall k r, rows !! k = Some r -> session st !! (i + k)%nat = Some r) ->
    Forall (passed_over zone now_utc) rows ->
    scan_rows zone croniter_next now_utc i rows draws st = st.
Proof.
  induction rows as [|r rows IH]; intros i draws st Hs Hall; [reflexivity|].
  destruct draws as [|[new_id utcnow] draws]; [reflexivity|].
  apply Forall_cons in Hall as [Hr Hall].
  cbn [scan_rows].
  assert (Hi : session st !! i = Some r).
  { specialize (Hs 0%nat r eq_refl). rewrite Nat.add_0_r in Hs. exact Hs. }
  rewrite (process_schedule_passed_over now_utc new_id utcnow i st r Hi Hr).
  apply IH; [|exact Hall].
  intros k r' Hk. specialize (Hs (S k) r' Hk).
  rewrite Nat.add_succ_r in Hs. exact Hs.
Qed.

Lemma ran_insert (now_utc : Z) (table rows : list ScheduledNotificationORM) (i : nat)
    (sched x : ScheduledNotificationORM) :
  table !! i = Some sched ->
  ran zone now_utc sched x ->
  (forall j r r', table !! j = Some r -> rows !! j = Some r' -> ran zone now_utc r r') ->
  forall j r r', table !! j = Some r -> <[i := x]> rows !! j = Some r' ->
                 ran zone now_utc r r'.
Proof.
  intros Hi Hx Hrows j r r' Hj Hj'.
  destruct (decide (i = j)) as [<-|Hne].
  - apply list_lookup_insert_Some in Hj' as [(_ & -> & _)|(Hne & _)]; [|congruence].
    rewrite Hi in Hj. injection Hj as <-. exact Hx.
  - rewrite list_lookup_insert_ne in Hj' by exact Hne. apply (Hrows j r r' Hj Hj').
Qed.

Lemma process_schedule_inv
    (now_utc : Z) (table : list ScheduledNotificationORM) (new_id : string) (utcnow : Z)
    (i : nat) (st : scan_state) (r : ScheduledNotificationORM) :
  table !! i = Some r ->
  active r = true ->
  scan_inv zone now_utc table i st ->
  scan_inv zone now_utc table (S i)
    (process_schedule zone croniter_next now_utc new_id utcnow i st).
Proof.
  intros Hi Ha (L1 & L2 & Hfut & Hses & Hcom).
  assert (Hkeep : scan_inv zone now_utc table (S i) st).
  { split; [exact L1|]. split; [exact L2|]. split; [|split; assumption].
    intros j Hj. apply Hfut. lia. }
  assert (Hsi : session st !! i = Some r) by (rewrite (Hfut i (le_n i)); exact Hi).
  unfold process_schedule. rewrite Hsi.
  destruct (_to_utc zone (send_at r) _) as [u|] eqn:Hu; [|exact Hkeep].
  destruct (u <=? now_utc)%Z eqn:Hdue; [|exact Hkeep].
  destruct (last_run r) eqn:Hlast; [exact Hkeep|].
  destruct (parse_obj (notification_data r)) as [req|] eqn:Hparse; [|exact Hkeep].
  assert (Hfires : fires zone now_utc r <> None).
  { unfold fires, zone_name. rewrite Ha, Hu, Hdue, Hlast, Hparse. discriminate. }
  destruct (enqueue_notification new_id utcnow req (world st)) as [w' [tid|]]; [|exact Hkeep].
  assert (Hupd : forall x, ran zone now_utc r x ->
            scan_inv zone now_utc table (S i)
              {| session := <[i := x]> (session st);
                 committed := <[i := x]> (session st);
                 world := w' |}).
  { intros x Hx. unfold scan_inv. cbn [session committed].
    rewrite length_insert.
    split; [exact L1|]. split; [exact L1|]. split; [|split].
    - intros j Hj. rewrite list_lookup_insert_ne by lia. apply Hfut. lia.
    - apply (ran_insert now_utc table (session st) i r x Hi Hx Hses).
    - apply (ran_insert now_utc table (session st) i r x Hi Hx Hses). }
  assert (R1 : ran zone now_utc r (set_active false (set_last_run now_utc r)))
    by (right; repeat split; assumption).
  destruct (recurrence r) as [cron|]; [|apply Hupd; exact R1].
  destruct (String.eqb cron ""); [apply Hupd; exact R1|].
  destruct (_next_cron_time zone croniter_next u cron _) as [next_utc|].
  - apply Hupd. right; repeat split; assumption.
  - unfold scan_inv. cbn [session committed]. rewrite length_insert.
    split; [exact L1|]. split; [exact L1|]. split; [|split].
    + intros j Hj. rewrite list_lookup_insert_ne by lia. apply Hfut. lia.
    + apply (ran_insert now_utc table (session st) i r _ Hi); [|exact Hses].
      right; repeat split; assumption.
    + exact Hses.
Qed.

Lemma scan_rows_inv (now_utc : Z) (table : list ScheduledNotificationORM) :
  forall (rows : list ScheduledNotificationORM) (i : nat) (draws : list (string * Z))
         (st : scan_state),
    (forall k r, rows !! k = Some r -> table !! (i + k)%nat = Some r) ->
    scan_inv zone now_utc table i st ->
    exists i', scan_inv zone now_utc table i'
                 (scan_rows zone croniter_next now_utc i rows draws st).
Proof.
  induction rows as [|r rows IH]; intros i draws st Hrows Hinv; [exists i; exact Hinv|].
  destruct draws as [|[new_id utcnow] draws]; [exists i; exact Hinv|].
  cbn [scan_rows].
  assert (Hi : table !! i = Some r).
  { specialize (Hrows 0%nat r eq_refl). rewrite Nat.add_0_r in Hrows. exact Hrows. }
  apply IH.
  - intros k r' Hk. specialize (Hrows (S k) r' Hk).
    rewrite Nat.add_succ_r in Hrows. exact Hrows.
  - destruct (active r) eqn:Ha.
    + apply (process_schedule_inv now_utc table new_id utcnow i st r Hi Ha Hinv).
    + destruct Hinv as (L1 & L2 & Hfut & Hses & Hcom).
      split; [exact L1|]. split; [exact L2|]. split; [|split; assumption].
      intros j Hj. apply Hfut. lia.
Qed.

(** The rows of the table after a scan, against the rows before it. *)
Lemma scan_rows_ran (now_utc : Z) (draws : list (string * Z))
    (table : list ScheduledNotificationORM) (w : World) (j : nat)
    (r : ScheduledNotificationORM) :
  table !! j = Some r ->
  exists r', fst (_process_due_schedules zone croniter_next now_utc draws table w) !! j = Some r'
             /\ ran zone now_utc r r'.
Proof.
  intros Hj. unfold _process_due_schedules. cbn [fst].
  destruct (scan_rows_inv now_utc table table 0 draws
              {| session := table; committed := table; world := w |})
    as (i' & _ & L2 & _ & _ & Hcom).
  - intros k r' Hk. exact Hk.
  - unfold scan_inv. cbn [session committed].
    split; [reflexivity|]. split; [reflexivity|]. split; [reflexivity|].
    split; intros j' r1 r2 H1 H2; left; congruence.
  - destruct (lookup_lt_is_Some_2 (committed (scan_rows zone croniter_next now_utc 0 table draws
                 {| session := table; committed := table; world := w |})) j) as [r' Hr'].
    { rewrite L2. eapply lookup_lt_Some. exact Hj. }
    exists r'. split; [exact Hr'|]. apply (Hcom j r r' Hj Hr').
Qed.

Lemma enqueue_notification_refused (new_id : string) (now : Z) (req : NotificationRequest)
    (w w' : World) :
  enqueue_notification new_id now req w = (w', None) -> w' = w.
Proof.
  unfold enqueue_notification. destruct (notifications w !! new_id); [|discriminate].
  intros [= <-]. reflexivity.
Qed.

(** One iteration of the scan on the row [r] at position [i]: the world
    gains the admission of the row, if it fires, and the session changes
    at position [i] only. *)
Lemma scan_step_world (now_utc : Z) (new_id : string) (utcnow : Z) (i : nat)
    (st : scan_state) (r : ScheduledNotificationORM) :
  session st !! i = Some r ->
  let st' := if active r then process_schedule zone croniter_next now_utc new_id utcnow i st
             else st in
  world st' = admit_fired zone now_utc (world st) (r, (new_id, utcnow))
  /\ (forall k, k <> i -> session st' !! k = session st !! k).
Proof.
  intros Hi. cbv zeta. unfold admit_fired, fires, zone_name. cbn [fst snd].
  destruct (active r); [|split; reflexivity].
  unfold process_schedule. rewrite Hi.
  destruct (_to_utc zone (send_at r) _) as [u|]; [|split; reflexivity].
  destruct (u <=? now_utc)%Z; [|split; reflexivity].
  destruct (last_run r); [split; reflexivity|].
  destruct (parse_obj (notification_data r)) as [req|]; [|split; reflexivity].
  destruct (enqueue_notification new_id utcnow req (world st)) as [w' [tid|]] eqn:E.
  2:{ split; [|reflexivity]. cbn [fst].
      symmetry. apply (enqueue_notification_refused _ _ _ _ _ E). }
  cbn [fst].
  destruct (recurrence r) as [cron|].
  2:{ cbn [world session]. split; [reflexivity|].
      intros k Hk. apply list_lookup_insert_ne. congruence. }
  destruct (String.eqb cron "").
  { cbn [world session]. split; [reflexivity|].
    intros k Hk. apply list_lookup_insert_ne. congruence. }
  destruct (_next_cron_time zone croniter_next u cron _) as [next_utc|];
    cbn [world session]; (split; [reflexivity|]);
    intros k Hk; apply list_lookup_insert_ne; congruence.
Qed.

(** The world after the loop of a scan: the admissions of the rows that
    fire, in the order of the table. *)
Lemma scan_rows_world (now_utc : Z) (rows : list ScheduledNotificationORM) :
  forall (i : nat) (draws : list (string * Z)) (st : scan_state),
    (forall k r, rows !! k = Some r -> session st !! (i + k)%nat = Some r) ->
    world (scan_rows zone croniter_next now_utc i rows draws st)
    = fold_left (admit_fired zone now_utc) (zip rows draws) (world st).
Proof.
  induction rows as [|r rows IH]; intros i draws st Hs; [reflexivity|].
  destruct draws as [|[new_id utcnow] draws]; [reflexivity|].
  cbn [scan_rows zip zip_with fold_left].
  assert (Hi : session st !! i = Some r).
  { specialize (Hs 0%nat r eq_refl). rewrite Nat.add_0_r in Hs. exact Hs. }
  destruct (scan_step_world now_utc new_id utcnow i st r Hi) as [Hw Hk].
  cbv zeta in Hw, Hk. rewrite <- Hw. apply IH.
  intros k r' Hr'. rewrite Hk by lia.
  specialize (Hs (S k) r' Hr'). rewrite Nat.add_succ_r in Hs. exact Hs.
Qed.

End Scans.

(** X19.  A scan of a table in which every row is inactive, has run
    before, has an unknown zone, is not due yet or carries an invalid
    payload changes no row and admits no notification.  In particular a
    recurring schedule that has run once is passed over by every later
    scan, also when its next occurrence has come: its stored [last_run]
    cannot be compared with the zone-aware due time. *)
Theorem scan_passes_over_rows
    (zone : string -> option (Z -> Z)) (croniter_next : string -> string -> Z -> option Z)
    (now_utc : Z) (draws : list (string * Z)) (table : list ScheduledNotificationORM)
    (w : World) :
  Forall (passed_over zone now_utc) table ->
  _process_due_schedules zone croniter_next now_utc draws table w = (table, w).
Proof.
  intros Hall. unfold _process_due_schedules.
  rewrite (scan_rows_passed_over zone croniter_next now_utc table 0 draws); [reflexivity| |exact Hall].
  intros k r Hk. exact Hk.
Qed.

Lemma scan_passes_over_rows_witness :
  _process_due_schedules fixed_zones daily_nine (jan1 + 2 * day_us)
    [("n2", jan1 + 2 * day_us)%Z] (fst tokyo_scan) (snd tokyo_scan)
  = (fst tokyo_scan, snd tokyo_scan).
Proof.
  apply scan_passes_over_rows.
  assert (E : fst tokyo_scan = [tokyo_schedule_after]) by (vm_compute; reflexivity).
  rewrite E. constructor; [|constructor]. right. left. discriminate.
Defined.

Lemma fires_last_run (zone : string -> option (Z -> Z)) (now_utc : Z)
    (r : ScheduledNotificationORM) :
  last_run r <> None -> fires zone now_utc r = None.
Proof.
  intros Hl. unfold fires.
  destruct (active r); [|reflexivity].
  destruct (_to_utc zone (send_at r) (zone_name r)); [|reflexivity].
  destruct (_ <=? now_utc)%Z; [|reflexivity].
  destruct (last_run r); [reflexivity | congruence].
Qed.

(** X20.  What a scan admits and what it records.  The process after a
    scan is the process before it with one admission for each row that
    fires, in the order of the table; a row fires when it is active, its
    zone is known, it is due, its payload is a valid request and it has
    no [last_run].  A row that has a [last_run] does not fire and is left
    as it is.  A row the scan changes fired in this scan, carries the
    time of the scan as its [last_run] afterwards, and fires in no scan
    at any later or earlier time.  (A row that fires and is left as it
    was, see X21, is not covered by the last part.) *)
Theorem scan_admits_rows_never_run
    (zone : string -> option (Z -> Z)) (croniter_next : string -> string -> Z -> option Z)
    (now_utc : Z) (draws : list (string * Z))
    (table : list ScheduledNotificationORM) (w : World) :
  let out := _process_due_schedules zone croniter_next now_utc draws table w in
  snd out = fold_left (admit_fired zone now_utc) (zip table draws) w
  /\ forall (j : nat) (r : ScheduledNotificationORM),
       table !! j = Some r ->
       exists r1,
         fst out !! j = Some r1
         /\ (last_run r <> None -> r1 = r /\ fires zone now_utc r = None)
         /\ (r1 <> r ->
             fires zone now_utc r <> None
             /\ last_run r1 = Some now_utc
             /\ forall now2, fires zone now2 r1 = None).
Proof.
  intros out. split.
  - unfold out, _process_due_schedules. cbn [snd].
    rewrite (scan_rows_world zone croniter_next now_utc table 0 draws).
    + reflexivity.
    + intros k r Hk. exact Hk.
  - intros j r Hj.
    destruct (scan_rows_ran zone croniter_next now_utc draws table w j r Hj) as (r1 & H1 & R1).
    exists r1. split; [exact H1|]. split.
    + intros Hl.
      assert (Hf : fires zone now_utc r = None) by (apply fires_last_run; exact Hl).
      split; [|exact Hf].
      destruct R1 as [E|(Hfi & _)]; [exact E | contradiction].
    + intros Hne. destruct R1 as [E|(Hf & Hl & _)]; [congruence|].
      split; [exact Hf|]. split; [exact Hl|].
      intros now2. apply fires_last_run. rewrite Hl. discriminate.
Qed.

Lemma scan_admits_rows_never_run_witness :
  snd tokyo_scan
  = fold_left (admit_fired fixed_zones (jan1 + 1000000)) [(tokyo_schedule, ("n1", jan1 + 1000000)%Z)]
      (initial_world None 60)
  /\ exists r1,
       fst tokyo_scan !! 0%nat = Some r1
       /\ (last_run tokyo_schedule <> None ->
           r1 = tokyo_schedule /\ fires fixed_zones (jan1 + 1000000) tokyo_schedule = None)
       /\ (r1 <> tokyo_schedule ->
           fires fixed_zones (jan1 + 1000000) tokyo_schedule <> None
           /\ last_run r1 = Some (jan1 + 1000000)%Z
           /\ forall now2, fires fixed_zones now2 r1 = None).
Proof.
  destruct (scan_admits_rows_never_run fixed_zones daily_nine (jan1 + 1000000)
              [("n1", jan1 + 1000000)%Z] [tokyo_schedule] (initial_world None 60))
    as [Hw Hrows].
  split; [exact Hw|].
  apply (Hrows 0%nat tokyo_schedule). reflexivity.
Defined.

(** X21.  A due recurring schedule whose expression the cron library
    rejects admits its notification and is then left as it was when no
    later row of the scan commits: the error comes after the admission
    and before the commit of the row.  The row is due again at once, so
    the next scan admits the notification a second time. *)
Theorem rejected_cron_is_admitted_by_every_scan
    (zone : string -> option (Z -> Z)) (croniter_next : string -> string -> Z -> option Z)
    (now1 now2 t1 t2 : Z) (id1 id2 : string) (sched : ScheduledNotificationORM)
    (u : Z) (req : NotificationRequest) (cron : string) (w : World) :
  active sched = true ->
  last_run sched = None ->
  _to_utc zone (send_at sched) (zone_name sched) = Some u ->
  (u <= now1)%Z -> (now1 <= now2)%Z ->
  parse_obj (notification_data sched) = Some req ->
  recurrence sched = Some cron -> cron <> "" ->
  croniter_next cron (zone_name sched) u = None ->
  notifications w !! id1 = None -> notifications w !! id2 = None -> id1 <> id2 ->
  let scan1 := _process_due_schedules zone croniter_next now1 [(id1, t1)] [sched] w in
  let scan2 := _process_due_schedules zone croniter_next now2 [(id2, t2)] (fst scan1)
                 (snd scan1) in
  fst scan1 = [sched]
  /\ snd scan1 = fst (enqueue_notification id1 t1 req w)
  /\ fst scan2 = [sched]
  /\ snd scan2 = fst (enqueue_notification id2 t2 req (snd scan1))
  /\ is_Some (notifications (snd scan2) !! id1)
  /\ is_Some (notifications (snd scan2) !! id2).
Proof.
  intros Ha Hl Hu Hdue Hlater Hparse Hrec Hcron Hnext Hid1 Hid2 Hne.
  assert (Hscan : forall now id t w0,
            (u <= now)%Z -> notifications w0 !! id = None ->
            _process_due_schedules zone croniter_next now [(id, t)] [sched] w0
            = ([sched], fst (enqueue_notification id t req w0))).
  { intros now id t w0 Hn Hid. unfold _process_due_schedules. cbn [scan_rows].
    rewrite Ha. unfold process_schedule.
    change (session {| session := [sched]; committed := [sched]; world := w0 |} !! 0%nat)
      with (Some sched).
    cbv beta iota zeta. fold (zone_name sched). rewrite Hu.
    apply Z.leb_le in Hn. rewrite Hn, Hl, Hparse.
    cbn [world]. rewrite (enqueue_notification_fresh id t req w0 Hid), Hrec.
    apply String.eqb_neq in Hcron. rewrite Hcron.
    unfold _next_cron_time.
    unfold _to_utc in Hu. destruct (zone (zone_name sched)); [|discriminate].
    rewrite Hnext. reflexivity. }
  cbv zeta. rewrite (Hscan now1 id1 t1 w Hdue Hid1). cbn [fst snd].
  assert (Hw1 : notifications (fst (enqueue_notification id1 t1 req w)) !! id2 = None).
  { unfold enqueue_notification. rewrite Hid1. cbn [fst]. simpl.
    rewrite lookup_insert_ne by exact Hne. exact Hid2. }
  rewrite (Hscan now2 id2 t2 _ ltac:(lia) Hw1). cbn [fst snd].
  split; [reflexivity|]. split; [reflexivity|]. split; [reflexivity|].
  split; [reflexivity|].
  unfold enqueue_notification at 1 3. rewrite Hw1. cbn [fst]. simpl.
  split.
  - rewrite lookup_insert_ne by congruence.
    unfold enqueue_notification. rewrite Hid1. simpl. rewrite lookup_insert_eq. eexists; reflexivity.
  - rewrite lookup_insert_eq. eexists; reflexivity.
Qed.

Lemma rejected_cron_is_admitted_by_every_scan_witness :
  let scan1 := _process_due_schedules fixed_zones daily_nine (jan1 + 1000000)
                 [("n1", jan1 + 1000000)%Z] [broken_schedule] (initial_world None 60) in
  let scan2 := _process_due_schedules fixed_zones daily_nine (jan1 + 2000000)
                 [("n2", jan1 + 2000000)%Z] (fst scan1) (snd scan1) in
  fst scan2 = [broken_schedule]
  /\ is_Some (notifications (snd scan2) !! "n1")
  /\ is_Some (notifications (snd scan2) !! "n2").
Proof.
  intros scan1 scan2.
  destruct (rejected_cron_is_admitted_by_every_scan fixed_zones daily_nine
              (jan1 + 1000000) (jan1 + 2000000) (jan1 + 1000000) (jan1 + 2000000)
              "n1" "n2" broken_schedule jan1 (sample_request "normal") "every day"
              (initial_world None 60))
    as (_ & _ & H3 & _ & H5 & H6);
    try (vm_compute; reflexivity); try discriminate; try lia; try apply lookup_empty.
  split; [exact H3 | split; [exact H5 | exact H6]].
Defined.

(** ** The mock adapters *)

Lemma eqb_empty_false (s : string) :
  String.eqb s "" = false -> (1 <= Z.of_nat (String.length s))%Z.
Proof. destruct s; [discriminate | simpl; lia]. Qed.

(** X22.  The SMS adapter on an ASCII recipient and body.  It delivers
    exactly when the stripped body has 1 to 1000 characters, the stripped
    recipient matches the phone pattern and the random draw is at least
    0.05; the metadata are then the provider mock-twilio, the measured
    latency and as segment count the body length divided by 160 and
    rounded up, which is between 1 and 7.  It raises the transient error
    exactly when the same checks pass and the draw is below 0.05.  It
    raises a permanent error exactly in three cases, whatever the draw:
    an empty body, then a recipient that does not match, then a body of
    more than 1000 characters, each with its own message. *)
Theorem sms_send_outcome (recipient : string) (rendered_body : option string)
    (draw latency : Q) :
  ascii_text recipient = true ->
  ascii_text (default "" rendered_body) = true ->
  let n := Z.of_nat (String.length (body_of rendered_body)) in
  let ok := mock_channels.phone_match (strip recipient) in
  let out := mock_channels.sms_send recipient rendered_body draw latency in
  (forall m, out = mock_channels.Delivered m <->
     (1 <= n <= 1000)%Z /\ ok = true /\ (5 # 100 <= draw)%Q
     /\ mock_channels.sms_provider m = "mock-twilio"
     /\ mock_channels.sms_latency_ms m = latency
     /\ (160 * (mock_channels.segments m - 1) < n <= 160 * mock_channels.segments m)%Z)
  /\ (forall m, out = mock_channels.Delivered m ->
        (1 <= mock_channels.segments m <= 7)%Z)
  /\ (forall msg, out = mock_channels.Transient msg <->
        (1 <= n <= 1000)%Z /\ ok = true /\ (draw < 5 # 100)%Q
        /\ msg = "Carrier temporary failure")
  /\ (forall msg, out = mock_channels.Permanent msg <->
        (n = 0%Z /\ msg = "SMS body is required")
        \/ ((1 <= n)%Z /\ ok = false /\ msg = "Invalid phone number format")
        \/ ((1000 < n)%Z /\ ok = true /\ msg = "SMS body exceeds 1000 characters")).
Proof.
  intros _ _. cbv zeta. unfold mock_channels.sms_send, body_of.
  set (b := strip (default "" rendered_body)).
  set (n := Z.of_nat (String.length b)).
  unfold mock_channels.HARD_CHAR_LIMIT, mock_channels.SEGMENT_SIZE, mock_channels.FAILURE_RATE.
  change ("SMS body exceeds " +:+ str_of_Z 1000 +:+ " characters")
    with "SMS body exceeds 1000 characters".
  destruct (String.eqb b "") eqn:Eb.
  { apply String.eqb_eq in Eb.
    assert (Hn : n = 0%Z) by (subst n; rewrite Eb; reflexivity).
    split; [intros m; split; [discriminate | intros (H & _); lia]|].
    split; [discriminate|].
    split; [intros msg; split; [discriminate | intros (H & _); lia]|].
    intros msg. split.
    - intros [= <-]. left. split; [exact Hn | reflexivity].
    - intros [(_ & ->)|[(H & _)|(H & _)]]; [reflexivity | lia | lia]. }
  assert (Hn : (1 <= n)%Z) by (apply eqb_empty_false; exact Eb).
  destruct (mock_channels.phone_match (strip recipient)) eqn:Ep; cbn [negb].
  2:{ split; [intros m; split; [discriminate | intros (_ & H & _); discriminate]|].
      split; [discriminate|].
      split; [intros msg; split; [discriminate | intros (_ & H & _); discriminate]|].
      intros msg. split.
      - intros [= <-]. right. left. split; [exact Hn|]. split; reflexivity.
      - intros [(H & _)|[(_ & _ & ->)|(_ & H & _)]]; [lia | reflexivity | discriminate]. }
  destruct (1000 <? n)%Z eqn:El.
  { apply Z.ltb_lt in El.
    split; [intros m; split; [discriminate | intros (H & _); lia]|].
    split; [discriminate|].
    split; [intros msg; split; [discriminate | intros (H & _); lia]|].
    intros msg. split.
    - intros [= <-]. right. right. split; [exact El|]. split; reflexivity.
    - intros [(H & _)|[(_ & H & _)|(_ & _ & ->)]]; [lia | discriminate | reflexivity]. }
  apply Z.ltb_ge in El.
  pose proof (Z.div_mod (n + 160 - 1) 160 ltac:(lia)) as Hdm.
  pose proof (Z.mod_pos_bound (n + 160 - 1) 160 ltac:(lia)) as Hmod.
  destruct (Qgtb (5 # 100) draw) eqn:Ed.
  - apply Qgtb_true in Ed.
    split; [intros m; split;
            [discriminate | intros (_ & _ & H & _); exfalso; apply (Qlt_not_le _ _ Ed H)]|].
    split; [discriminate|].
    split.
    + intros msg. split.
      * intros [= <-]. split; [lia|]. split; [reflexivity|]. split; [exact Ed | reflexivity].
      * intros (_ & _ & _ & ->). reflexivity.
    + intros msg. split; [discriminate|].
      intros [(H & _)|[(_ & H & _)|(H & _)]]; [lia | discriminate | lia].
  - apply Qgtb_false in Ed.
    split; [|split; [|split]].
    + intros m. split.
      * intros [= <-]. cbn [mock_channels.sms_provider mock_channels.sms_latency_ms
                            mock_channels.segments].
        split; [lia|]. split; [reflexivity|]. split; [exact Ed|].
        split; [reflexivity|]. split; [reflexivity|]. lia.
      * intros (_ & _ & _ & Hp & Hl & Hs). destruct m as [p s l].
        cbn [mock_channels.sms_provider mock_channels.sms_latency_ms
             mock_channels.segments] in Hp, Hl, Hs.
        subst p l. do 2 f_equal. lia.
    + intros m [= <-]. cbn [mock_channels.segments]. lia.
    + intros msg. split; [discriminate|].
      intros (_ & _ & H & _). exfalso. apply (Qlt_not_le _ _ H Ed).
    + intros msg. split; [discriminate|].
      intros [(H & _)|[(_ & H & _)|(H & _)]]; [lia | discriminate | lia].
Qed.

(** X23.  The push adapter on an ASCII recipient and body.  It delivers
    exactly when the stripped recipient matches the token pattern, the
    stripped body is not empty and the random draw is at most 0.95; the
    metadata are then the provider mock-push, the measured latency and a
    receipt id made of the clock in milliseconds and the serial drawn.
    It raises the transient error exactly when both checks pass and the
    draw is above 0.95.  It raises a permanent error exactly in two
    cases, whatever the draw and the clock: a recipient that does not
    match (also when the body is empty), then an empty body, each with
    its own message. *)
Theorem push_send_outcome (recipient : string) (rendered_body : option string)
    (draw latency now : Q) (serial : Z) :
  ascii_text recipient = true ->
  ascii_text (default "" rendered_body) = true ->
  let ok := mock_channels.token_match (strip recipient) in
  let out := mock_channels.push_send recipient rendered_body draw latency now serial in
  (forall m, out = mock_channels.Delivered m <->
     ok = true /\ body_of rendered_body <> "" /\ (draw <= 95 # 100)%Q
     /\ mock_channels.push_provider m = "mock-push"
     /\ mock_channels.push_latency_ms m = latency
     /\ mock_channels.receipt_id m
        = "r_" +:+ str_of_Z (mock_channels.int_of (now * 1000)) +:+ "_" +:+ str_of_Z serial)
  /\ (forall msg, out = mock_channels.Transient msg <->
        ok = true /\ body_of rendered_body <> "" /\ (95 # 100 < draw)%Q
        /\ msg = "Push provider temporary failure")
  /\ (forall msg, out = mock_channels.Permanent msg <->
        (ok = false /\ msg = "Invalid device token")
        \/ (ok = true /\ body_of rendered_body = "" /\ msg = "Push body is required")).
Proof.
  intros _ _. cbv zeta. unfold mock_channels.push_send, body_of.
  set (b := strip (default "" rendered_body)).
  destruct (mock_channels.token_match (strip recipient)) eqn:Et; cbn [negb].
  2:{ split; [intros m; split; [discriminate | intros (H & _); discriminate]|].
      split; [intros msg; split; [discriminate | intros (H & _); discriminate]|].
      intros msg. split.
      - intros [= <-]. left. split; reflexivity.
      - intros [(_ & ->)|(H & _)]; [reflexivity | discriminate]. }
  destruct (String.eqb b "") eqn:Eb.
  { apply String.eqb_eq in Eb.
    split; [intros m; split; [discriminate | intros (_ & H & _); contradiction]|].
    split; [intros msg; split; [discriminate | intros (_ & H & _); contradiction]|].
    intros msg. split.
    - intros [= <-]. right. split; [reflexivity|]. split; [exact Eb | reflexivity].
    - intros [(H & _)|(_ & _ & ->)]; [discriminate | reflexivity]. }
  apply String.eqb_neq in Eb.
  unfold mock_channels.RECEIPT_RATE.
  destruct (Qgtb draw (95 # 100)) eqn:Ed.
  - apply Qgtb_true in Ed.
    split; [intros m; split;
            [discriminate | intros (_ & _ & H & _); exfalso; apply (Qlt_not_le _ _ Ed H)]|].
    split.
    + intros msg. split.
      * intros [= <-]. split; [reflexivity|]. split; [exact Eb|]. split; [exact Ed | reflexivity].
      * intros (_ & _ & _ & ->). reflexivity.
    + intros msg. split; [discriminate|].
      intros [(H & _)|(_ & H & _)]; [discriminate | contradiction].
  - apply Qgtb_false in Ed.
    split; [|split].
    + intros m. split.
      * intros [= <-]. cbn [mock_channels.push_provider mock_channels.push_latency_ms
                            mock_channels.receipt_id].
        split; [reflexivity|]. split; [exact Eb|]. split; [exact Ed|].
        split; [reflexivity|]. split; reflexivity.
      * intros (_ & _ & _ & Hp & Hl & Hr). destruct m as [p r l].
        cbn [mock_channels.push_provider mock_channels.push_latency_ms
             mock_channels.receipt_id] in Hp, Hl, Hr.
        subst p l r. reflexivity.
    + intros msg. split; [discriminate|].
      intros (_ & _ & H & _). exfalso. apply (Qlt_not_le _ _ H Ed).
    + intros msg. split; [discriminate|].
      intros [(H & _)|(_ & H & _)]; [discriminate | contradiction].
Qed.

Lemma sms_send_outcome_witness :
  mock_channels.sms_send " +15551234567 " (Some (String.concat "" (replicate 161 "a")))
    (1 # 2) 5
  = mock_channels.Delivered
      {| mock_channels.sms_provider := "mock-twilio";
         mock_channels.segments := 2;
         mock_channels.sms_latency_ms := 5 |}.
Proof.
  apply (proj1 (sms_send_outcome " +15551234567 "
                  (Some (String.concat "" (replicate 161 "a"))) (1 # 2) 5
                  ltac:(vm_compute; reflexivity) ltac:(vm_compute; reflexivity))).
  vm_compute. repeat split; discriminate.
Defined.

Lemma push_send_outcome_witness :
  mock_channels.push_send "device:0123456789abcdef" (Some " hello ") (96 # 100) 5 0 1234
  = mock_channels.Transient "Push provider temporary failure".
Proof.
  apply (proj1 (proj2 (push_send_outcome "device:0123456789abcdef" (Some " hello ")
                         (96 # 100) 5 0 1234
                         ltac:(vm_compute; reflexivity) ltac:(vm_compute; reflexivity)))).
  vm_compute. repeat split; discriminate.
Defined.

(** ** Templates *)

Section Templates.

Variable V : Type.
Variable jinja : string -> gmap string V -> string + string.
Variable variables_of : json -> gmap string V.
Variable content_get : json -> string -> option string.

Lemma validate_missing (tpl : template_service.TemplateORM) (variables : gmap string V) :
  template_service._validate_required_variables V (template_service.t_variables tpl) variables
  = match missing_variables tpl variables with
    | [] => None
    | l => Some ("Missing required template variables: " +:+ String.concat ", " l)
    end.
Proof.
  unfold template_service._validate_required_variables, missing_variables.
  destruct (filter _ _); reflexivity.
Qed.

Lemma render_with_active (b : bool) (now : Z) (tpl : template_service.TemplateORM)
    (variables : gmap string V) :
  template_service.render V jinja (template_service.with_active b now tpl) variables
  = template_service.render V jinja tpl variables.
Proof. reflexivity. Qed.

Lemma get_template_orm_map (f : template_service.TemplateORM -> template_service.TemplateORM)
    (k : string) (table : list template_service.TemplateORM) :
  (forall t, template_service.template_id (f t) = template_service.template_id t) ->
  template_service.get_template_orm k (map f table)
  = option_map f (template_service.get_template_orm k table).
Proof.
  intros Hf. unfold template_service.get_template_orm.
  induction table as [|t table IH]; [reflexivity|].
  simpl. rewrite Hf. destruct (String.eqb (template_service.template_id t) k); [reflexivity|].
  exact IH.
Qed.

Lemma set_active_table (now : Z) (k : string) (b : bool)
    (table : list template_service.TemplateORM) (tpl : template_service.TemplateORM) :
  template_service.get_template_orm k table = Some tpl ->
  template_service.set_active now k b table
  = (map (λ t, if String.eqb (template_service.template_id t) k
               then template_service.with_active b now t else t) table, true).
Proof. intros H. unfold template_service.set_active. rewrite H. reflexivity. Qed.

Lemma find_some_eqb (k : string) (table : list template_service.TemplateORM)
    (tpl : template_service.TemplateORM) :
  template_service.get_template_orm k table = Some tpl ->
  template_service.template_id tpl = k.
Proof.
  unfold template_service.get_template_orm. intros H.
  apply find_some in H as [_ H]. apply String.eqb_eq. exact H.
Qed.

End Templates.

(** X24.  Deactivating a template affects only requests that address it
    by name.  A request whose [template_id] is the id of the template is
    rendered from it exactly as before, active or not; a request that
    carries the name of the template, when no template has that text as
    its id, is refused with the permanent error ["Template not found"]
    once the template is inactive. *)
Theorem deactivated_template_still_renders_by_id
    (V : Type) (jinja : string -> gmap string V -> string + string)
    (variables_of : json -> gmap string V) (content_get : json -> string -> option string)
    (table : list template_service.TemplateORM) (now : Z) (k : string)
    (tpl : template_service.TemplateORM) (by_id by_name : NotificationRequest) :
  k <> "" -> template_service.name tpl <> "" ->
  template_service.get_template_orm k table = Some tpl ->
  template_service.get_template_orm (template_service.name tpl) table = None ->
  Forall (λ t, template_service.name t = template_service.name tpl ->
               template_service.template_id t = k) table ->
  req_template_id by_id = Some k ->
  req_template_id by_name = Some (template_service.name tpl) ->
  let table' := fst (template_service.set_active now k false table) in
  template_service._render_content V jinja variables_of content_get table' by_id
  = template_service._render_content V jinja variables_of content_get table by_id
  /\ template_service._render_content V jinja variables_of content_get table by_id
     = template_service.render V jinja tpl (variables_of (req_variables by_id))
  /\ template_service._render_content V jinja variables_of content_get table' by_name
     = inr (template_service.RaisesPermanentChannelError "Template not found").
Proof.
  intros Hk Hname Hid Hnoid Huniq Hreq1 Hreq2 table'. subst table'.
  rewrite (set_active_table now k false table tpl Hid). cbn [fst].
  set (f := λ t, if String.eqb (template_service.template_id t) k
                 then template_service.with_active false now t else t).
  assert (Hf : forall t, template_service.template_id (f t) = template_service.template_id t).
  { intros t. unfold f. destruct (String.eqb _ k); reflexivity. }
  unfold template_service._render_content.
  rewrite Hreq1, Hreq2. cbn [template_service.truthy from_option id].
  apply String.eqb_neq in Hk, Hname. rewrite Hk, Hname. cbn [negb].
  rewrite !(get_template_orm_map f _ table Hf), Hid, Hnoid. cbn [option_map].
  split; [|split; [reflexivity|]].
  - unfold f at 1. rewrite (find_some_eqb k table tpl Hid), String.eqb_refl.
    apply render_with_active.
  - replace (template_service.active_by_name (template_service.name tpl) (map f table))
      with (@None template_service.TemplateORM); [reflexivity|].
    symmetry. unfold template_service.active_by_name.
    clear Hid Hnoid. induction Huniq as [|t l Ht _ IH]; [reflexivity|].
    simpl. rewrite IH.
    destruct (String.eqb (template_service.name (f t)) (template_service.name tpl)) eqn:E;
      [|reflexivity].
    unfold f in *. destruct (String.eqb (template_service.template_id t) k) eqn:Ek.
    + reflexivity.
    + apply String.eqb_eq in E. apply Ht in E. apply String.eqb_neq in Ek. congruence.
Qed.

Lemma deactivated_template_still_renders_by_id_witness :
  let table' := fst (template_service.set_active 7 "t1" false [welcome_template]) in
  template_service._render_content string echo_engine (λ _, {["user" := "Ann"]}) no_content
    table' (template_request "t1")
  = template_service._render_content string echo_engine (λ _, {["user" := "Ann"]}) no_content
      [welcome_template] (template_request "t1")
  /\ template_service._render_content string echo_engine (λ _, {["user" := "Ann"]}) no_content
       [welcome_template] (template_request "t1")
     = template_service.render string echo_engine welcome_template {["user" := "Ann"]}
  /\ template_service._render_content string echo_engine (λ _, {["user" := "Ann"]}) no_content
       table' (template_request "welcome")
     = inr (template_service.RaisesPermanentChannelError "Template not found").
Proof.
  apply (deactivated_template_still_renders_by_id string echo_engine
           (λ _, {["user" := "Ann"]}) no_content [welcome_template] 7 "t1" welcome_template
           (template_request "t1") (template_request "welcome"));
    try discriminate; try reflexivity.
  constructor; [|constructor]. intros _. reflexivity.
Defined.

(** X25.  [TemplateService.render] checks the required variables before
    it renders anything: when the dictionary lacks required variables it
    raises the [ValueError] that lists exactly the missing ones, in the
    order the template declares them, whatever the template engine would
    do; and it raises that error only then. *)
Theorem render_checks_variables_first
    (V : Type) (jinja : string -> gmap string V -> string + string)
    (tpl : template_service.TemplateORM) (variables : gmap string V) :
  (missing_variables tpl variables <> [] ->
   forall engine : string -> gmap string V -> string + string,
     template_service.render V engine tpl variables
     = inr (template_service.RaisesValueError
              ("Missing required template variables: "
               +:+ String.concat ", " (missing_variables tpl variables))))
  /\ (forall msg, template_service.render V jinja tpl variables
                  = inr (template_service.RaisesValueError msg) ->
        exists v, v ∈ template_service.t_variables tpl /\ variables !! v = None)
  /\ (missing_variables tpl variables = [] ->
      template_service.truthy (template_service.tc_subject (template_service.t_content tpl))
        = false ->
      template_service.truthy (template_service.tc_body (template_service.t_content tpl))
        = false ->
      template_service.render V jinja tpl variables
      = inl {| template_service.r_subject := None; template_service.r_body := "" |}).
Proof.
  split; [|split].
  - intros Hm engine. unfold template_service.render. rewrite validate_missing.
    destruct (missing_variables tpl variables); [congruence | reflexivity].
  - intros msg H. unfold template_service.render in H. rewrite validate_missing in H.
    destruct (missing_variables tpl variables) as [|v l] eqn:E.
    + destruct (if template_service.truthy _ then _ else _) as [rs|e]; [|discriminate].
      destruct (if template_service.truthy _ then _ else _) as [rb|e]; discriminate.
    + exists v. assert (Hv : v ∈ missing_variables tpl variables)
        by (rewrite E; apply list_elem_of_here).
      unfold missing_variables in Hv. apply list_elem_of_filter in Hv as [H1 H2].
      split; [exact H2 | exact H1].
  - intros Hm Hs Hb. unfold template_service.render. rewrite validate_missing, Hm, Hs, Hb.
    reflexivity.
Qed.

Lemma render_checks_variables_first_witness :
  template_service.render string echo_engine welcome_template ∅
  = inr (template_service.RaisesValueError "Missing required template variables: user").
Proof.
  assert (Hm : missing_variables welcome_template (∅ : gmap string string) <> [])
    by (vm_compute; discriminate).
  rewrite (proj1 (render_checks_variables_first string echo_engine welcome_template ∅)
             Hm echo_engine).
  vm_compute. reflexivity.
Defined.

(** X26.  A notification whose template lacks a required variable is
    not failed for good: the [ValueError] of the rendering is caught as an
    unexpected error, so the turn records a failed attempt with the
    message ["unexpected: Missing required template variables: ..."],
    counts a failure on the breaker of the recipient and, while the
    attempt number is below the budget of the priority, starts a retry
    timer, although no adapter was called. *)
Theorem missing_variable_is_retried
    (V : Type) (jinja : string -> gmap string V -> string + string)
    (variables_of : json -> gmap string V) (content_get : json -> string -> option string)
    (templates : list template_service.TemplateORM)
    (registry : string -> option (NotificationRequest -> template_service.rendered
                                  -> send_result))
    (env : step_env) (w : World) (e : QueueEntry) (q' : list QueueEntry)
    (notif : NotificationORM) (req : NotificationRequest) (k : string)
    (tpl : template_service.TemplateORM) :
  queue_get (_ready_queue w) = Some (e, q') ->
  notifications w !! entry_tid e = Some notif ->
  _reconstruct_request_from_notif notif = Some req ->
  reaches_dispatch env (entry_tid e) w = true ->
  req_template_id req = Some k -> k <> "" ->
  template_service.get_template_orm k templates = Some tpl ->
  missing_variables tpl (variables_of (req_variables req)) <> [] ->
  dispatch env
  = template_service.dispatch_of V jinja variables_of content_get templates registry req ->
  let number := (attempts notif + 1)%Z in
  let plan := get_retry_plan (req_priority req) in
  let msg := "unexpected: Missing required template variables: "
             +:+ String.concat ", "
                   (missing_variables tpl (variables_of (req_variables req))) in
  let w' := _worker_loop_turn env w in
  delivery_attempts w'
    = delivery_attempts w ++ [failed_row (entry_tid e) number (latency env) msg (utcnow env)]
  /\ _ready_queue w' = q'
  /\ pending_requeues w'
     = pending_requeues w
         ++ (if (number <? max_attempts plan)%Z
             then [(entry_tid e, req_priority req,
                    next_delay plan (jitter_draw env) (number + 1))]
             else [])
  /\ _circuit_breakers w' !! req_recipient req
     = Some (on_failure (t_failure env)
               (snd (allow_request (t_allow env) (_get_or_create_cb (req_recipient req) w)))).
Proof.
  intros Hget Hn Hreq Hreach Hk Hne Htpl Hmiss Hd number plan msg w'.
  assert (Hdis : dispatch env
                 = OtherException
                     ("Missing required template variables: "
                      +:+ String.concat ", "
                            (missing_variables tpl (variables_of (req_variables req))))).
  { rewrite Hd. unfold template_service.dispatch_of, template_service._render_content.
    rewrite Hk. cbn [template_service.truthy from_option id].
    apply String.eqb_neq in Hne. rewrite Hne. cbn [negb]. rewrite Htpl.
    unfold template_service.render. rewrite validate_missing.
    destruct (missing_variables tpl (variables_of (req_variables req)));
      [congruence | reflexivity]. }
  destruct (worker_turn_failure env w e q' notif req msg true Hget Hn Hreq Hreach)
    as (G1 & G2 & G3 & _ & G5 & _).
  { right. split; [|reflexivity]. rewrite Hdis. reflexivity. }
  cbv zeta in G1, G2, G3, G5. subst w'.
  split; [exact G1|]. split; [exact G3|]. split; [exact G5 | exact G2].
Qed.

Lemma missing_variable_is_retried_witness :
  delivery_attempts (_worker_loop_turn template_env template_world)
  = [failed_row "n1" 1 5 "unexpected: Missing required template variables: user" 1000000]
  /\ pending_requeues (_worker_loop_turn template_env template_world)
     = [("n1", "normal", 10%Q)].
Proof.
  destruct (missing_variable_is_retried string echo_engine no_variables no_content
              [welcome_template] (λ _, None) template_env template_world
              (2, 1, "n1")%Z []
              {| tracking_id := "n1"; channel := "webhook"; recipient := hook;
                 content := {| sc_content := "{}"; sc_variables := "{}";
                               sc_metadata := "{}"; sc_template_id := Some "t1" |};
                 status := "queued"; priority := "normal"; attempts := 0;
                 created_at := 0; delivered_at := None; last_attempt_at := None;
                 failure_reason := None |}
              (template_request "t1") "t1" welcome_template)
    as (H1 & _ & H3 & _);
    try (vm_compute; reflexivity); try (vm_compute; discriminate).
  split; [exact H1 | exact H3].
Defined.

(** ** The send endpoint *)

(** X27.  The bulk path of [POST /send] never admits anything: before
    it looks at the recipients it builds a request with an empty
    recipient, which the schema rejects, so for every payload and every
    list of recipients the handler raises the validation error and leaves
    the process as it was.  The single path admits the payload under the
    id drawn for it. *)
Theorem bulk_send_admits_nothing
    (payload : NotificationRequest) (draws : nat -> string * Z) (w : World) :
  (forall recipients,
     api_notifications.send_notification payload (Some recipients) draws w
     = (w, api_notifications.Raises "ValidationError"))
  /\ (notifications w !! fst (draws 0%nat) = None ->
      api_notifications.send_notification payload None draws w
      = (fst (enqueue_notification (fst (draws 0%nat)) (snd (draws 0%nat)) payload w),
         api_notifications.TrackingId (fst (draws 0%nat)))).
Proof.
  split.
  - intros recipients. unfold api_notifications.send_notification, make_request.
    change (strip "") with "". rewrite String.eqb_refl, andb_false_r. reflexivity.
  - intros Hnew. unfold api_notifications.send_notification.
    rewrite (enqueue_notification_fresh _ _ payload w Hnew). reflexivity.
Qed.

Lemma bulk_send_admits_nothing_witness :
  api_notifications.send_notification (sample_request "high")
    (Some ["https://a.example/hook"; "https://b.example/hook"]) (λ _, ("n1", 0%Z))
    (initial_world None 60)
  = (initial_world None 60, api_notifications.Raises "ValidationError")
  /\ api_notifications.send_notification (sample_request "high") None (λ _, ("n1", 0%Z))
       (initial_world None 60)
     = (sample_world "high", api_notifications.TrackingId "n1").
Proof.
  destruct (bulk_send_admits_nothing (sample_request "high") (λ _, ("n1", 0%Z))
              (initial_world None 60)) as [H1 H2].
  split; [apply H1 | apply H2; apply lookup_empty].
Defined.

(** ** Restarts *)

Lemma tokens_for_requeue (t tid prio : string) (delay : Q) (i : nat) (w : World) :
  pending_requeues w !! i = Some (tid, prio, delay) ->
  tokens_for t (_delayed_requeue i w) = tokens_for t w.
Proof.
  intros Hi. unfold _delayed_requeue. rewrite Hi.
  unfold tokens_for. simpl. rewrite filter_app, length_app.
  rewrite (delete_Permutation (pending_requeues w) i _ Hi) at 2.
  destruct (decide (tid = t)) as [->|Hne].
  - rewrite !filter_cons_True by reflexivity. simpl.
    unfold Requeue, QueueEntry in *. lia.
  - rewrite !filter_cons_False by (simpl; congruence). simpl.
    unfold Requeue, QueueEntry in *. lia.
Qed.

Lemma at_rest_step (tid : string) (n : NotificationORM) (rows : list DeliveryAttemptORM)
    (w : World) :
  at_rest tid n rows w ->
  (forall new_id now req, at_rest tid n rows (fst (enqueue_notification new_id now req w)))
  /\ (forall env, at_rest tid n rows (_worker_loop_turn env w))
  /\ (forall i, at_rest tid n rows (_delayed_requeue i w))
  /\ (forall limiter cooldown, at_rest tid n rows (restart limiter cooldown w)).
Proof.
  intros (Hn & Hrows & Htok).
  split; [|split; [|split]].
  - intros new_id now req. unfold enqueue_notification.
    destruct (notifications w !! new_id) eqn:Hnew; [repeat split; assumption|].
    cbn [fst].
    assert (Hne : tid <> new_id) by congruence.
    set (w1 := set_notifications _ w).
    pose proof (tokens_for_added new_id tid w1 (_enqueue_ready new_id (req_priority req) w1)
                  [(_priority_value (req_priority req), (_seq_counter w1 + 1)%Z, new_id)] [])
      as Hadd.
    rewrite app_nil_r in Hadd. specialize (Hadd eq_refl eq_refl).
    assert (F1 : Forall (λ e : QueueEntry, entry_tid e = new_id)
                   [(_priority_value (req_priority req), (_seq_counter w1 + 1)%Z, new_id)])
      by (repeat constructor).
    assert (F2 : Forall (λ r : Requeue, r.1.1 = new_id) []) by constructor.
    specialize (Hadd F1 F2). rewrite decide_False in Hadd by exact Hne.
    split; [|split].
    + simpl. rewrite lookup_insert_ne by congruence. exact Hn.
    + exact Hrows.
    + rewrite Hadd. change (tokens_for tid w1) with (tokens_for tid w). lia.
  - intros env. unfold _worker_loop_turn.
    destruct (queue_get (_ready_queue w)) as [[e q']|] eqn:Hget; [|repeat split; assumption].
    pose proof (tokens_for_popped tid w e q' Hget) as Hpop.
    assert (Hne : tid <> entry_tid e).
    { intros ->. rewrite decide_True in Hpop by reflexivity. lia. }
    rewrite decide_False in Hpop by congruence.
    set (wp := set_queue q' (_seq_counter w) w) in *.
    destruct (process_shape env (entry_tid e) wp) as (S1 & S2 & S3).
    split; [|split].
    + rewrite (S1 tid Hne). exact Hn.
    + rewrite (process_other_rows env (entry_tid e) tid wp Hne). exact Hrows.
    + destruct (notifications wp !! entry_tid e) as [m|] eqn:Hm.
      * destruct (S3 m eq_refl) as (n' & qadd & padd & _ & Hq & Hp & Fq & Fp & _).
        rewrite (tokens_for_added (entry_tid e) tid wp _ qadd padd Hq Hp Fq Fp).
        rewrite decide_False by exact Hne. lia.
      * rewrite (S2 eq_refl). lia.
  - intros i.
    destruct (pending_requeues w !! i) as [[[t prio] delay]|] eqn:Hi.
    + pose proof (tokens_for_requeue tid t prio delay i w Hi) as Hq.
      unfold _delayed_requeue, Requeue in *. rewrite Hi in Hq |- *.
      split; [exact Hn|]. split; [exact Hrows|]. rewrite Hq. exact Htok.
    + unfold _delayed_requeue, Requeue in *. rewrite Hi. repeat split; assumption.
  - intros limiter cooldown. split; [exact Hn|]. split; [exact Hrows | reflexivity].
Qed.

Lemma at_rest_suspended (tid : string) (n : NotificationORM)
    (rows : list DeliveryAttemptORM) (w : World) (env : step_env) :
  at_rest tid n rows w -> at_rest tid n rows (suspended_turn env w).
Proof.
  intros H.
  destruct (suspended_turn_shape env w)
    as [E|(e & q' & notif & Hget & _ & Hrows & Hq & _ & Hp & Hnot)].
  { rewrite E. apply (at_rest_step tid n rows w H). }
  destruct H as (Hn & Hr & Htok).
  pose proof (tokens_for_suspended tid env w e q' Hget Hq Hp) as Hpop.
  assert (Hne : entry_tid e <> tid).
  { intros He. rewrite decide_True in Hpop by exact He. lia. }
  rewrite decide_False in Hpop by exact Hne.
  split; [|split].
  - destruct Hnot as [E|E]; rewrite E; [exact Hn|].
    rewrite lookup_insert_ne by exact Hne. exact Hn.
  - unfold attempts_of in *. rewrite Hrows. exact Hr.
  - lia.
Qed.

(** X28.  A restart forgets what was waiting, and nothing brings it
    back: from a restart on, through any admissions, worker turns, retry
    timers and further restarts, a notification that existed at the
    restart keeps the row and the attempt history it had then and never
    waits again.  A notification that was queued, or failed with a retry
    pending, stays so for good. *)
Theorem restart_forgets_waiting_notifications
    (w w' : World) (limiter : option RateLimiter) (cooldown : Q) (tid : string)
    (n : NotificationORM) :
  notifications w !! tid = Some n ->
  continues (restart limiter cooldown w) w' ->
  notifications w' !! tid = Some n
  /\ attempts_of tid w' = attempts_of tid w
  /\ tokens_for tid w' = 0%nat.
Proof.
  intros Hn Hc.
  change (at_rest tid n (attempts_of tid w) w').
  induction Hc as [|w1 new_id now req _ IH|w1 env _ IH|w1 i _ IH|w1 l c _ IH
                   |w1 env _ IH].
  - split; [exact Hn|]. split; reflexivity.
  - apply (at_rest_step tid n _ w1 IH).
  - apply (at_rest_step tid n _ w1 IH).
  - apply (at_rest_step tid n _ w1 IH).
  - apply (at_rest_step tid n _ w1 IH).
  - apply (at_rest_suspended tid n _ w1 env IH).
Qed.

Lemma restart_forgets_waiting_notifications_witness :
  let w' := _worker_loop_turn (sample_env 5 sample_success)
              (restart None 60 (sample_world "normal")) in
  notifications w' !! "n1" = Some (sample_row "normal")
  /\ attempts_of "n1" w' = attempts_of "n1" (sample_world "normal")
  /\ tokens_for "n1" w' = 0%nat.
Proof.
  intros w'.
  apply (restart_forgets_waiting_notifications (sample_world "normal") w' None 60 "n1"
           (sample_row "normal")).
  - vm_compute. reflexivity.
  - apply cont_worker. apply cont_here.
Defined.
